(** * openpond-code: frame decoder, tool sandbox and session driver

    A shallow embedding of [src/stream.ts] (the frame decoder
    [consumeStream]), [src/tools.ts] (the local tool sandbox) and the
    [ChatWorker] class (the session driver), with the properties the
    specification states about them.

    Conventions of the embedding.
    - A JavaScript string is held in UTF-8, as a byte string ([string]); the
      text handed to the decoder is the output of the streaming
      [TextDecoder], whose concatenation over chunks is the decoded text of
      the whole body.
    - [async] functions run to completion one after the other (the worker is
      single-threaded and awaits every call it makes), so an [await]ed call
      is a state transformer.
    - A computation ends in one of three ways: it returns a value, it raises
      a JavaScript exception, or it does not return ([Hang], which only the
      recursion bound of the session driver produces). *)

From Stdlib Require Import Ascii String ZArith Lia.
From stdpp Require Import gmap strings list pretty.

Set Default Proof Using "Type".
Set Warnings "-register-all".

(* ===================================================================== *)
(** ** JavaScript strings *)
(* ===================================================================== *)

Module Js.

Definition newline : ascii := "010"%char.
Definition slash : ascii := "/"%char.

(** [s.split(sep)] for a one-character separator: never empty, one more
    piece than there are separators. *)
Fixpoint split (sep : ascii) (s : string) : list string :=
  match s with
  | EmptyString => [EmptyString]
  | String c s' =>
      if Ascii.eqb c sep then EmptyString :: split sep s'
      else match split sep s' with
           | [] => [String c EmptyString]
           | piece :: pieces => String c piece :: pieces
           end
  end.

(** [xs.join(sep)] *)
Fixpoint join (sep : string) (xs : list string) : string :=
  match xs with
  | [] => EmptyString
  | [x] => x
  | x :: rest => x +:+ sep +:+ join sep rest
  end.

(** [s.startsWith(p)] *)
Definition startsWith (p s : string) : bool := String.prefix p s.

(** [s.slice(n)] for [0 <= n] *)
Fixpoint slice (n : nat) (s : string) : string :=
  match n, s with
  | O, _ => s
  | S n', String _ s' => slice n' s'
  | S _, EmptyString => EmptyString
  end.

(** [s.slice(0, n)] *)
Fixpoint take (n : nat) (s : string) : string :=
  match n, s with
  | S n', String c s' => String c (take n' s')
  | _, _ => EmptyString
  end.

(** White space, as [trim()] removes it and [\s] matches it: the
    [WhiteSpace] and [LineTerminator] characters of ECMAScript, in UTF-8.
    In one byte: tab, line feed, vertical tab, form feed, carriage return
    and space. *)
Definition white1 (a : ascii) : bool :=
  let x := nat_of_ascii a in
  ((9 <=? x) && (x <=? 13)) || (x =? 32).

(** In two bytes: the no-break space U+00A0. *)
Definition white2 (a b : ascii) : bool :=
  (nat_of_ascii a =? 194) && (nat_of_ascii b =? 160).

(** In three bytes: U+1680, U+2000 to U+200A, the line and paragraph
    separators U+2028 and U+2029, U+202F, U+205F, U+3000 and the byte order
    mark U+FEFF. *)
Definition white3 (a b c : ascii) : bool :=
  let x := nat_of_ascii a in
  let y := nat_of_ascii b in
  let z := nat_of_ascii c in
  ((x =? 225) && (y =? 154) && (z =? 128))
  || ((x =? 226) && (y =? 128) &&
      (((128 <=? z) && (z <=? 138)) || (z =? 168) || (z =? 169) || (z =? 175)))
  || ((x =? 226) && (y =? 129) && (z =? 159))
  || ((x =? 227) && (y =? 128) && (z =? 128))
  || ((x =? 239) && (y =? 187) && (z =? 191)).

(** [s.trimStart()] *)
Fixpoint trimStart (s : string) : string :=
  match s with
  | EmptyString => EmptyString
  | String a s1 =>
      if white1 a then trimStart s1
      else
        match s1 with
        | EmptyString => s
        | String b s2 =>
            if white2 a b then trimStart s2
            else
              match s2 with
              | EmptyString => s
              | String c s3 => if white3 a b c then trimStart s3 else s
              end
        end
  end.

(** [s.trimEnd()]: what is left of the tail is dropped with the byte before
    it when the two make up one white-space character. *)
Fixpoint trimEnd (s : string) : string :=
  match s with
  | EmptyString => EmptyString
  | String a s1 =>
      match trimEnd s1 with
      | EmptyString => if white1 a then EmptyString else String a EmptyString
      | String b EmptyString =>
          if white2 a b then EmptyString else String a (String b EmptyString)
      | String b (String c EmptyString) =>
          if white3 a b c then EmptyString
          else String a (String b (String c EmptyString))
      | kept => String a kept
      end
  end.

(** [s.trim()] *)
Definition trim (s : string) : string := trimEnd (trimStart s).

(** [s.includes(c)] for a one-character needle *)
Fixpoint includes (c : ascii) (s : string) : bool :=
  match s with
  | EmptyString => false
  | String c' s' => Ascii.eqb c' c || includes c s'
  end.

Definition is_empty (s : string) : bool :=
  match s with EmptyString => true | _ => false end.

(** [xs.pop()] splits a list into its front and its last element. *)
Fixpoint pop {A} (xs : list A) : list A * option A :=
  match xs with
  | [] => ([], None)
  | [x] => ([], Some x)
  | x :: rest => let '(front, last) := pop rest in (x :: front, last)
  end.

End Js.

(* ===================================================================== *)
(** ** JSON values, as [JSON.parse] returns them *)
(* ===================================================================== *)

(** A number keeps its literal: no claim depends on floating point. An
    object keeps its members in source order; a later duplicate wins. *)
Inductive json : Type :=
  | JNull
  | JBool (b : bool)
  | JNum (literal : string)
  | JStr (s : string)
  | JArr (elements : list json)
  | JObj (members : list (string * json)).

Module Json.

Fixpoint lookup_member (k : string) (members : list (string * json)) : option json :=
  match members with
  | [] => None
  | (k', v) :: rest =>
      match lookup_member k rest with
      | Some v' => Some v'
      | None => if String.eqb k k' then Some v else None
      end
  end.

(** [v[k]]; [None] is [undefined]. *)
Definition get (k : string) (v : json) : option json :=
  match v with
  | JObj members => lookup_member k members
  | _ => None
  end.

(** A number literal denotes zero when its mantissa has no digit 1..9. *)
Fixpoint mantissa_is_zero (s : string) : bool :=
  match s with
  | EmptyString => true
  | String c s' =>
      if Ascii.eqb c "e"%char || Ascii.eqb c "E"%char then true
      else
        let n := nat_of_ascii c in
        if (49 <=? n) && (n <=? 57) then false else mantissa_is_zero s'
  end.

(** JavaScript truthiness of a parsed value. *)
Definition truthy (v : json) : bool :=
  match v with
  | JNull => false
  | JBool b => b
  | JNum literal => negb (mantissa_is_zero literal)
  | JStr s => negb (Js.is_empty s)
  | JArr _ | JObj _ => true
  end.

Definition truthy_opt (v : option json) : bool :=
  match v with Some v => truthy v | None => false end.

(** [typeof v === "object"] *)
Definition typeof_object (v : json) : bool :=
  match v with
  | JNull | JArr _ | JObj _ => true
  | _ => false
  end.

(** [typeof v === "string" ? v : undefined] *)
Definition as_string (v : option json) : option string :=
  match v with Some (JStr s) => Some s | _ => None end.

(** [typeof v === "number" ? v : undefined] *)
Definition as_number (v : option json) : option string :=
  match v with Some (JNum n) => Some n | _ => None end.

(** [Array.isArray(v) ? v : undefined] *)
Definition as_array (v : option json) : option (list json) :=
  match v with Some (JArr elements) => Some elements | _ => None end.

(** [v] when it is truthy *)
Definition as_truthy (v : option json) : option json :=
  match v with Some v => if truthy v then Some v else None | None => None end.

Definition str_field (k : string) (v : json) : option string := as_string (get k v).

(** Optional members of an object literal: [undefined] ones are left out. *)
Definition member (k : string) (v : option json) : list (string * json) :=
  match v with Some v => [(k, v)] | None => [] end.

End Json.

(* ===================================================================== *)
(** ** Computations: state, exceptions, and not returning *)
(* ===================================================================== *)

(** What a [throw] carries: an [Error] object with its message, or any other
    value. *)
Inductive exn : Type :=
  | Error (message : string)
  | Thrown (value : json).

Inductive res (A : Type) : Type :=
  | Ok (a : A)
  | Throw (e : exn)
  | Hang.
Arguments Ok {A} a.
Arguments Throw {A} e.
Arguments Hang {A}.

Definition M (S A : Type) : Type := S -> res A * S.

Definition ret {S A} (a : A) : M S A := fun s => (Ok a, s).

Definition bind {S A B} (m : M S A) (k : A -> M S B) : M S B :=
  fun s =>
    match m s with
    | (Ok a, s') => k a s'
    | (Throw e, s') => (Throw e, s')
    | (Hang, s') => (Hang, s')
    end.

Definition throw {S A} (e : exn) : M S A := fun s => (Throw e, s).

Definition hang {S A} : M S A := fun s => (Hang, s).

(** [try { m } catch (e) { handler e }]: the state changes made before the
    [throw] stay. *)
Definition try_catch {S A} (m : M S A) (handler : exn -> M S A) : M S A :=
  fun s =>
    match m s with
    | (Throw e, s') => handler e s'
    | other => other
    end.

Definition get_state {S} : M S S := fun s => (Ok s, s).
Definition modify {S} (f : S -> S) : M S unit := fun s => (Ok tt, f s).

(** A computation on a component [T] of the state [S]. *)
Definition zoom {S T A} (proj : S -> T) (inj : T -> S -> S) (m : M T A) : M S A :=
  fun s => let '(r, t) := m (proj s) in (r, inj t s).

Notation "'let*' x ':=' m 'in' k" := (bind m (fun x => k))
  (at level 10, x name, m at level 100, k at level 200).
Notation "'let*' ' p ':=' m 'in' k" := (bind m (fun x => match x with p => k end))
  (at level 10, p pattern, m at level 100, k at level 200).
Notation "m1 ';;;' m2" := (bind m1 (fun _ => m2))
  (at level 100, m2 at level 200, right associativity).

(** [cb?.(a)] *)
Definition call1 {S A} (cb : option (A -> M S unit)) (a : A) : M S unit :=
  match cb with Some f => f a | None => ret tt end.

Definition call0 {S} (cb : option (M S unit)) : M S unit :=
  match cb with Some f => f | None => ret tt end.

(** [e instanceof Error ? e.message : fallback] *)
Definition message_or (fallback : string) (e : exn) : string :=
  match e with Error message => message | Thrown _ => fallback end.

(** What the JavaScript runtime supplies: [JSON.parse] (a [SyntaxError] with
    its message on malformed text) and the clock. *)
Class Runtime := {
  JSON_parse : string -> string + json;
  Date_now : string;          (* [Date.now()] in decimal *)
  Date_toISOString : string   (* [new Date().toISOString()] *)
}.

(* ===================================================================== *)
(** ** The frame decoder ([src/stream.ts]) *)
(* ===================================================================== *)

Definition ResponseItem : Type := json.

Record Usage := {
  promptTokens : option string;
  completionTokens : option string;
  totalTokens : option string
}.

(** The caller's callbacks, over the caller's state [S]; [None] is a callback
    left out. *)
Record StreamCallbacks (S : Type) := {
  onTextDelta : option (string -> M S unit);
  onReasoningDelta : option (string -> M S unit);
  onConversationId : option (string -> M S unit);
  onItems : option (list ResponseItem -> M S unit);
  onUsage : option (Usage -> M S unit);
  shouldStop : option (M S bool);
  onStop : option (M S unit)
}.
Arguments onTextDelta {S}.
Arguments onReasoningDelta {S}.
Arguments onConversationId {S}.
Arguments onItems {S}.
Arguments onUsage {S}.
Arguments shouldStop {S}.
Arguments onStop {S}.

(** The body of a streamed response: the chunks [reader.read()] yields in
    order; after them the read reports [done], or rejects with
    [read_failure]. *)
Record Body := {
  chunks : list string;
  read_failure : option exn
}.

Record Response := {
  ok : bool;
  status : nat;
  resp_text : string;     (* what [response.text()] gives for an error reply *)
  body : option Body
}.

(** How [consumeStream] left the reader when it returned: the body read to
    its end, or [reader.cancel()] called with [unread] chunks never read. *)
Inductive ending : Type :=
  | Drained
  | Cancelled (unread : list string).

(** The [for] loop over lines goes on ([Next]) or the function returns. *)
Inductive flow : Type := Next | Return.

Section Decoder.
Context `{Runtime}.

(** [Array.isArray(raw) ? raw : raw && typeof raw === "object" &&
    Array.isArray(raw.data) ? raw.data : [raw]] *)
Definition frames_of (raw : json) : list json :=
  match raw with
  | JArr elements => elements
  | _ =>
      if Json.truthy raw && Json.typeof_object raw then
        match Json.get "data" raw with
        | Some (JArr elements) => elements
        | _ => [raw]
        end
      else [raw]
  end.

(** The item [normalizeDataFrames] builds for an [assistant-message] frame. *)
Definition assistant_message_item (content : string) (frame : json) : ResponseItem :=
  JObj [("type", JStr "message");
        ("role", JStr "assistant");
        ("id", JStr ("assistant-" +:+ Date_now));
        ("content", JArr [JObj [("type", JStr "markdown"); ("text", JStr content)]]);
        ("createdAt",
         JStr (match Json.get "createdAt" frame with
               | Some (JStr createdAt) => createdAt
               | _ => Date_toISOString
               end))].

(** [c ? v : undefined] *)
Definition when {A} (c : bool) (v : option A) : option A := if c then v else None.

(** One turn of the loop of [normalizeDataFrames]. *)
Definition normalize_frame (acc : option string * list ResponseItem) (frame : json)
  : option string * list ResponseItem :=
  let '(conversationId, items) := acc in
  if negb (Json.truthy frame) || negb (Json.typeof_object frame) then acc
  else
    let type := Json.str_field "type" frame in
    if bool_decide (type = Some "conversation-created") then
      match Json.str_field "conversationId" frame with
      | Some cid => (Some cid, items)
      | None => acc
      end
    else
      match when (bool_decide (type = Some "response_items"))
                 (Json.as_array (Json.get "items" frame)) with
      | Some elements => (conversationId, items ++ elements)
      | None =>
          match when (bool_decide (type = Some "response_item"))
                     (Json.as_truthy (Json.get "item" frame)) with
          | Some item => (conversationId, items ++ [item])
          | None =>
              match when (bool_decide (type = Some "assistant-message"))
                         (Json.str_field "content" frame) with
              | Some content =>
                  (conversationId, items ++ [assistant_message_item content frame])
              | None => acc
              end
          end
      end.

Definition normalizeDataFrames (raw : json) : option string * list ResponseItem :=
  fold_left normalize_frame (frames_of raw) (None, []).

(** [typeof usage.camel === "number" ? usage.camel : typeof usage.snake ===
    "number" ? usage.snake : undefined] *)
Definition token_count (camel snake : string) (usage : json) : option string :=
  match Json.as_number (Json.get camel usage) with
  | Some n => Some n
  | None => Json.as_number (Json.get snake usage)
  end.

Fixpoint extractUsage_frames (frames : list json) : option Usage :=
  match frames with
  | [] => None
  | frame :: rest =>
      if negb (Json.truthy frame) || negb (Json.typeof_object frame) then
        extractUsage_frames rest
      else if negb (bool_decide (Json.str_field "type" frame = Some "usage")) then
        extractUsage_frames rest
      else
        match Json.get "usage" frame with
        | Some usage =>
            if Json.truthy usage then
              Some {| promptTokens := token_count "promptTokens" "prompt_tokens" usage;
                      completionTokens :=
                        token_count "completionTokens" "completion_tokens" usage;
                      totalTokens := token_count "totalTokens" "total_tokens" usage |}
            else extractUsage_frames rest
        | None => extractUsage_frames rest
        end
  end.

Definition extractUsage (raw : json) : option Usage :=
  extractUsage_frames (frames_of raw).

Section Consume.
Context {S : Type} (callbacks : StreamCallbacks S).

(** [stopIfNeeded]: on a true poll the reader is cancelled (a rejection of
    [reader.cancel()] is ignored) and [onStop] is called. *)
Definition stopIfNeeded : M S bool :=
  match shouldStop callbacks with
  | None => ret false
  | Some poll =>
      let* stop := poll in
      if negb stop then ret false
      else call0 (onStop callbacks) ;;; ret true
  end.

Definition stop_or_next : M S flow :=
  let* stopped := stopIfNeeded in
  ret (if stopped then Return else Next).

(** [JSON.parse(payload)] *)
Definition parse (payload : string) : M S json :=
  match JSON_parse payload with
  | inl message => throw (Error message)
  | inr value => ret value
  end.

(** A [0:] or [g:] line: the payload is parsed outside any [try]. *)
Definition delta_line (cb : option (string -> M S unit)) (line : string) : M S flow :=
  let payload := Js.trim (Js.slice 2 line) in
  if Js.is_empty payload then ret Next
  else
    let* delta := parse payload in
    match delta with
    | JStr s => call1 cb s ;;; ret Next
    | _ => ret Next
    end.

(** The [try] block of a [3:] line, with its [catch {}]. *)
Definition error_line (line : string) : M S flow :=
  let payload := Js.trim (Js.slice 2 line) in
  if Js.is_empty payload then ret Next
  else
    try_catch
      (let* message := parse payload in
       match message with
       | JStr s => throw (Error s)
       | _ => ret tt
       end)
      (fun _ => ret tt) ;;;
    ret Next.

(** The [try] block of a [2:] line. *)
Definition data_block (payload : string) : M S flow :=
  let* dataItems := parse payload in
  match extractUsage dataItems with
  | Some usage => call1 (onUsage callbacks) usage
  | None => ret tt
  end ;;;
  let '(conversationId, items) := normalizeDataFrames dataItems in
  match conversationId with
  | Some cid => if Js.is_empty cid then ret tt else call1 (onConversationId callbacks) cid
  | None => ret tt
  end ;;;
  (if (0 <? length items)%nat then call1 (onItems callbacks) items else ret tt) ;;;
  stop_or_next.

Definition data_line (line : string) : M S flow :=
  let payload := Js.trim (Js.slice 2 line) in
  if Js.is_empty payload then ret Next
  else
    let* fl := try_catch (data_block payload) (fun _ => ret Next) in
    match fl with
    | Return => ret Return
    | Next => stop_or_next
    end.

(** The body of [for (const line of lines)]. *)
Definition process_line (line : string) : M S flow :=
  if Js.is_empty line then ret Next
  else if Js.startsWith "0:" line then delta_line (onTextDelta callbacks) line
  else if Js.startsWith "g:" line then delta_line (onReasoningDelta callbacks) line
  else if Js.startsWith "d:" line then ret Next
  else if Js.startsWith "3:" line then error_line line
  else if Js.startsWith "2:" line then data_line line
  else stop_or_next.

Fixpoint process_lines (lines : list string) : M S flow :=
  match lines with
  | [] => ret Next
  | line :: rest =>
      let* fl := process_line line in
      match fl with
      | Return => ret Return
      | Next => process_lines rest
      end
  end.

(** The [while (true)] loop: [remainder] is the text after the last line
    feed seen so far. *)
Fixpoint read_loop (pending : list string) (failure : option exn) (remainder : string)
  : M S ending :=
  match pending with
  | [] =>
      match failure with
      | Some e => throw e
      | None => ret Drained
      end
  | chunk :: rest =>
      let textChunk := remainder +:+ chunk in
      let '(lines, last) := Js.pop (Js.split Js.newline textChunk) in
      let remainder' := default EmptyString last in
      let* fl := process_lines lines in
      match fl with
      | Return => ret (Cancelled rest)
      | Next => read_loop rest failure remainder'
      end
  end.

Definition consumeStream (response : Response) : M S ending :=
  match body response with
  | None => throw (Error "Missing response body")
  | Some b => read_loop (chunks b) (read_failure b) EmptyString
  end.

End Consume.
End Decoder.

(* ===================================================================== *)
(** ** [node:path], POSIX flavour *)
(* ===================================================================== *)

(** Paths are resolved with the process working directory at [/]: the
    sandbox root is [process.cwd()], an absolute path. *)
Module Path.

Definition isAbsolute (p : string) : bool := Js.startsWith "/" p.

(** One segment against the directory stack (innermost first): empty and
    [.] segments vanish, [..] leaves the innermost directory and stays at
    the root. *)
Definition normalize_step (stack : list string) (segment : string) : list string :=
  if bool_decide (segment = "") || bool_decide (segment = ".") then stack
  else if bool_decide (segment = "..") then tail stack
  else segment :: stack.

Definition normalize (segments : list string) : list string :=
  rev (fold_left normalize_step segments []).

Definition segments (p : string) : list string := Js.split Js.slash p.

(** The directory names of [path.resolve(from, to)]. *)
Definition resolve_segments (from to : string) : list string :=
  normalize (if isAbsolute to then segments to else segments from ++ segments to).

Definition of_segments (segs : list string) : string := "/" +:+ Js.join "/" segs.

(** [path.resolve(from, to)] *)
Definition resolve (from to : string) : string :=
  of_segments (resolve_segments from to).

Fixpoint strip_common (xs ys : list string) : list string * list string :=
  match xs, ys with
  | x :: xs', y :: ys' =>
      if bool_decide (x = y) then strip_common xs' ys' else (xs, ys)
  | _, _ => (xs, ys)
  end.

(** [path.relative(from, to)]: one [..] for each directory of [from] below
    the common ancestor, then the rest of [to]. *)
Definition relative (from to : string) : string :=
  let '(up, down) := strip_common (normalize (segments from)) (normalize (segments to)) in
  Js.join "/" (replicate (length up) ".." ++ down).

(** [path.join(root, p)] for an absolute [root]: the joined text normalized,
    a trailing separator kept. *)
Definition join (root p : string) : string :=
  let joined := if Js.is_empty p then root else root +:+ "/" +:+ p in
  let body := Js.join "/" (normalize (segments joined)) in
  let trailing := bool_decide (last (segments joined) = Some "") in
  "/" +:+ (if negb (Js.is_empty body) && trailing then body +:+ "/" else body).

End Path.

(* ===================================================================== *)
(** ** The tool sandbox ([src/tools.ts]) *)
(* ===================================================================== *)

(** [String(v)] on a parsed value (a number gives its literal). *)
Fixpoint to_String (v : json) : string :=
  match v with
  | JNull => "null"
  | JBool true => "true"
  | JBool false => "false"
  | JNum literal => literal
  | JStr s => s
  | JArr elements =>
      Js.join ","
        (List.map (fun e => match e with JNull => "" | _ => to_String e end) elements)
  | JObj _ => "[object Object]"
  end.

(** [String(args.key || fallback)] *)
Definition string_arg (key fallback : string) (args : json) : string :=
  match Json.get key args with
  | Some v => if Json.truthy v then to_String v else fallback
  | None => fallback
  end.

Definition ToolManifest : Type := list string.   (* [tool.function.name] of each tool *)

(** What lies outside the worker process: the remote endpoints and the
    programs it starts. A subprocess is a function of its arguments and of
    the files it sees; [git apply] is given the files and the directories
    and returns the ones it leaves. *)
Class Host := {
  fetchToolManifest : string -> string -> exn + ToolManifest;
  git_apply : string -> string -> gmap string string -> gset string ->
              Z * string * gmap string string * gset string;
  diff_u : string -> string -> string -> string;
  os_tmpdir : string;
  rg : string -> string -> string -> gmap string string -> option Z * string * string;
  glob_scan : string -> string -> gmap string string -> exn + list string;
  git_status : string -> gmap string string -> Z * string * string;
  commitFiles : string -> string -> string -> gmap string string -> string -> exn + string;
  deployApp : string -> string -> string -> exn + string;
  process_cwd : string
}.

Record ToolExecutionContext := {
  rootDir : string;
  baseUrl : string;
  token : string;
  appId : string;
  lsp : bool              (* an [LspClient] is attached *)
}.

(** The state a tool call reads and changes. The disk is [fs], which maps
    an absolute path to the content of the file there, and [dirs], the
    absolute paths of the directories ([/] is always one); it has no links
    and no permissions. [readSet] is [ctx.readSet], the one set object the
    worker hands to every call. The two caches are the module-level maps,
    holding settled promises. *)
Record Sandbox := {
  fs : gmap string string;
  dirs : gset string;
  readSet : gset string;
  manifestCache : gmap string (exn + ToolManifest);
  allowedToolsCache : gmap string (exn + list string);
  spawned : list (list string);          (* argv of each subprocess, oldest first *)
  lspSynced : list (string * string)     (* [lsp.syncFile] calls, oldest first *)
}.

Definition set_fs (f : gmap string string) (s : Sandbox) : Sandbox :=
  {| fs := f; dirs := dirs s; readSet := readSet s; manifestCache := manifestCache s;
     allowedToolsCache := allowedToolsCache s; spawned := spawned s;
     lspSynced := lspSynced s |}.

Definition set_disk (f : gmap string string) (d : gset string) (s : Sandbox) : Sandbox :=
  {| fs := f; dirs := d; readSet := readSet s; manifestCache := manifestCache s;
     allowedToolsCache := allowedToolsCache s; spawned := spawned s;
     lspSynced := lspSynced s |}.

Definition set_readSet (r : gset string) (s : Sandbox) : Sandbox :=
  {| fs := fs s; dirs := dirs s; readSet := r; manifestCache := manifestCache s;
     allowedToolsCache := allowedToolsCache s; spawned := spawned s;
     lspSynced := lspSynced s |}.

Definition set_caches (m : gmap string (exn + ToolManifest))
    (a : gmap string (exn + list string)) (s : Sandbox) : Sandbox :=
  {| fs := fs s; dirs := dirs s; readSet := readSet s; manifestCache := m;
     allowedToolsCache := a; spawned := spawned s; lspSynced := lspSynced s |}.

Definition log_spawn (argv : list string) (s : Sandbox) : Sandbox :=
  {| fs := fs s; dirs := dirs s; readSet := readSet s; manifestCache := manifestCache s;
     allowedToolsCache := allowedToolsCache s; spawned := spawned s ++ [argv];
     lspSynced := lspSynced s |}.

Definition log_lsp (path content : string) (s : Sandbox) : Sandbox :=
  {| fs := fs s; dirs := dirs s; readSet := readSet s; manifestCache := manifestCache s;
     allowedToolsCache := allowedToolsCache s; spawned := spawned s;
     lspSynced := lspSynced s ++ [(path, content)] |}.

Record ToolExecutionResult := {
  result_ok : bool;
  output : option json;
  error : option string
}.

Record ToolCall := {
  name : string;
  args : option json
}.

Definition path_violation : exn := Error "Path is outside workspace".
Definition read_before_write : exn := Error "File must be read before write/patch".

Module Tools.
Section WithHost.
Context `{Host}.

Definition of_result {A} (r : exn + A) : M Sandbox A :=
  match r with inl e => throw e | inr a => ret a end.

(** [baseUrl.replace(/\/$/, "")] *)
Fixpoint strip_trailing_slash (s : string) : string :=
  match s with
  | EmptyString => EmptyString
  | String c EmptyString => if Ascii.eqb c Js.slash then EmptyString else s
  | String c s' => String c (strip_trailing_slash s')
  end.

Definition getAllowedTools (baseUrl token : string) : M Sandbox (list string) :=
  let cacheKey := strip_trailing_slash baseUrl in
  let* s := get_state in
  match allowedToolsCache s !! cacheKey with
  | Some settled => of_result settled
  | None =>
      let manifestPromise :=
        match manifestCache s !! cacheKey with
        | Some settled => settled
        | None => fetchToolManifest baseUrl token
        end in
      modify (set_caches (<[cacheKey := manifestPromise]> (manifestCache s))
                         (<[cacheKey := manifestPromise]> (allowedToolsCache s))) ;;;
      of_result manifestPromise
  end.

Definition escapes (rootDir filePath : string) : bool :=
  let relative := Path.relative rootDir (Path.resolve rootDir filePath) in
  Js.startsWith ".." relative || Path.isAbsolute relative.

Definition resolvePath (rootDir filePath : string) : M Sandbox string :=
  let resolved := Path.resolve rootDir filePath in
  let relative := Path.relative rootDir resolved in
  if Js.startsWith ".." relative || Path.isAbsolute relative
  then throw path_violation
  else ret resolved.

Definition ensureReadBeforeWrite (filePath : string) : M Sandbox unit :=
  let* s := get_state in
  if bool_decide (filePath ∈ readSet s) then ret tt else throw read_before_write.

(** The path names a directory of the disk. *)
Definition is_dir (s : Sandbox) (path : string) : bool :=
  bool_decide (path = "/") || bool_decide (path ∈ dirs s).

(** The directories above a path, outermost first, [/] left out; [stack]
    holds the names gone through so far. *)
Fixpoint above (stack segments : list string) : list string :=
  match segments with
  | [] | [_] => []
  | segment :: rest =>
      Path.of_segments (stack ++ [segment]) :: above (stack ++ [segment]) rest
  end.

Definition enoent (path : string) : exn :=
  Error ("ENOENT: no such file or directory, open '" +:+ path +:+ "'").
Definition enotdir (path : string) : exn :=
  Error ("ENOTDIR: not a directory, open '" +:+ path +:+ "'").
Definition eisdir_open (path : string) : exn :=
  Error ("EISDIR: illegal operation on a directory, open '" +:+ path +:+ "'").
Definition eisdir_read : exn := Error "EISDIR: illegal operation on a directory, read".

(** The way down to a path: the first directory above it that is not there
    stops it, with [ENOTDIR] when a file is in its place and with [ENOENT]
    otherwise. *)
Fixpoint way_error (s : Sandbox) (path : string) (ancestors : list string) : option exn :=
  match ancestors with
  | [] => None
  | dir :: rest =>
      if is_dir s dir then way_error s path rest
      else if bool_decide (is_Some (fs s !! dir)) then Some (enotdir path)
      else Some (enoent path)
  end.

Definition ancestors (path : string) : list string :=
  above [] (Path.normalize (Path.segments path)).

(** The error of reading a path at which there is no file. *)
Definition read_error (s : Sandbox) (path : string) : exn :=
  match way_error s path (ancestors path) with
  | Some e => e
  | None => if is_dir s path then eisdir_read else enoent path
  end.

(** The error, if any, of creating a file at a path at which there is
    none. *)
Definition create_error (s : Sandbox) (path : string) : option exn :=
  match way_error s path (ancestors path) with
  | Some e => Some e
  | None => if is_dir s path then Some (eisdir_open path) else None
  end.

(** [fs.readFile(path, "utf-8")] *)
Definition fs_readFile (path : string) : M Sandbox string :=
  let* s := get_state in
  match fs s !! path with
  | Some content => ret content
  | None => throw (read_error s path)
  end.

(** [fs.access(path, F_OK).then(() => true).catch(() => false)]: a file or
    a directory is there. *)
Definition present (s : Sandbox) (path : string) : bool :=
  bool_decide (is_Some (fs s !! path)) || is_dir s path.

Definition fs_exists (path : string) : M Sandbox bool :=
  let* s := get_state in
  ret (present s path).

(** [fs.writeFile(path, content, "utf-8")]: a file that is there is
    overwritten; a new file needs the directories above it, and its path
    must not be that of a directory. A refused write changes nothing. *)
Definition fs_writeFile (path content : string) : M Sandbox unit :=
  let* s := get_state in
  match fs s !! path with
  | Some _ => modify (fun s => set_fs (<[path := content]> (fs s)) s)
  | None =>
      match create_error s path with
      | Some e => throw e
      | None => modify (fun s => set_fs (<[path := content]> (fs s)) s)
      end
  end.

(** [if (ctx.lsp) { try { await ctx.lsp.syncFile(..) } catch {} }] *)
Definition lsp_sync (ctx : ToolExecutionContext) (path content : string) : M Sandbox unit :=
  if lsp ctx then modify (log_lsp path content) else ret tt.

(** The scratch files live in a fresh directory under [os.tmpdir()], removed
    before the function returns. *)
Definition createUnifiedDiff (before after filePath : string) : M Sandbox string :=
  modify (log_spawn ["diff"; "-u"; "--label"; "a/" +:+ filePath;
                     "--label"; "b/" +:+ filePath;
                     os_tmpdir +:+ "/openpond-diff-/before";
                     os_tmpdir +:+ "/openpond-diff-/after"]) ;;;
  ret (Js.trim (diff_u before after filePath)).

Definition readFileTool (ctx : ToolExecutionContext) (args : json) : M Sandbox json :=
  let filePath := string_arg "path" "" args in
  if Js.is_empty filePath then throw (Error "path is required")
  else
    let* resolved := resolvePath (rootDir ctx) filePath in
    let* content := fs_readFile resolved in
    modify (fun s => set_readSet ({[resolved]} ∪ readSet s) s) ;;;
    lsp_sync ctx resolved content ;;;
    ret (JObj [("path", JStr filePath); ("content", JStr content)]).

Definition listFilesTool (ctx : ToolExecutionContext) (args : json) : M Sandbox json :=
  let pattern := string_arg "pattern" "**/*" args in
  let* s := get_state in
  let* matches := of_result (glob_scan pattern (rootDir ctx) (fs s)) in
  ret (JObj [("pattern", JStr pattern); ("matches", JArr (List.map JStr matches))]).

Definition grepTool (ctx : ToolExecutionContext) (args : json) : M Sandbox json :=
  let query := string_arg "query" "" args in
  let pattern := string_arg "pattern" "." args in
  if Js.is_empty query then throw (Error "query is required")
  else
    modify (log_spawn ["rg"; query; pattern]) ;;;
    let* s := get_state in
    let '(exitCode, stdout, stderr) := rg (rootDir ctx) query pattern (fs s) in
    if negb (bool_decide (exitCode = Some 0%Z)) && negb (bool_decide (exitCode = Some 1%Z))
    then throw (Error (if Js.is_empty stderr then "rg failed" else stderr))
    else ret (JObj [("query", JStr query); ("pattern", JStr pattern);
                    ("matches", JStr (Js.trim stdout))]).

Definition patch_path_of_line (line : string) : list string :=
  if Js.startsWith "+++ " line then
    let value := Js.trim (Js.slice 4 line) in
    if Js.startsWith "b/" value then [Js.slice 2 value] else []
  else [].

Definition parsePatchPaths (patchText : string) : list string :=
  concat (List.map patch_path_of_line (Js.split Js.newline patchText)).

(** The first loop of [applyPatchTool]: every touched path is checked and
    its content kept, before anything is changed. *)
Fixpoint capture_before (ctx : ToolExecutionContext) (touched : list string)
    (beforeMap : gmap string string) : M Sandbox (gmap string string) :=
  match touched with
  | [] => ret beforeMap
  | filePath :: rest =>
      let* resolved := resolvePath (rootDir ctx) filePath in
      ensureReadBeforeWrite resolved ;;;
      let* content := fs_readFile resolved in
      capture_before ctx rest (<[filePath := content]> beforeMap)
  end.

Definition patched_file (filePath before after diff : string) : json :=
  JObj [("path", JStr filePath); ("before", JStr before);
        ("after", JStr after); ("diff", JStr diff)].

(** The second loop of [applyPatchTool]. *)
Fixpoint collect_after (ctx : ToolExecutionContext) (touched : list string)
    (beforeMap : gmap string string) : M Sandbox (list json) :=
  match touched with
  | [] => ret []
  | filePath :: rest =>
      let* resolved := resolvePath (rootDir ctx) filePath in
      let* content := fs_readFile resolved in
      let before := default "" (beforeMap !! filePath) in
      let* diff := createUnifiedDiff before content filePath in
      lsp_sync ctx resolved content ;;;
      let* files := collect_after ctx rest beforeMap in
      ret (patched_file filePath before content diff :: files)
  end.

Definition git_apply_argv : list string := ["git"; "apply"; "--whitespace=nowarn"; "-"].

Definition applyPatchTool (ctx : ToolExecutionContext) (args : json) : M Sandbox json :=
  let patchText := string_arg "patch" "" args in
  if Js.is_empty patchText then throw (Error "patch is required")
  else
    let touched := parsePatchPaths patchText in
    let* beforeMap := capture_before ctx touched ∅ in
    modify (log_spawn git_apply_argv) ;;;
    let* s := get_state in
    let '(code, stderr, fs', dirs') :=
      git_apply (rootDir ctx) patchText (fs s) (dirs s) in
    modify (set_disk fs' dirs') ;;;
    if negb (bool_decide (code = 0%Z))
    then throw (Error (if Js.is_empty stderr then "git apply failed" else stderr))
    else
      let* files := collect_after ctx touched beforeMap in
      ret (JObj [("files", JArr files)]).

Definition writeFileTool (ctx : ToolExecutionContext) (args : json) : M Sandbox json :=
  let filePath := string_arg "path" "" args in
  let content := string_arg "content" "" args in
  if Js.is_empty filePath then throw (Error "path is required")
  else
    let* resolved := resolvePath (rootDir ctx) filePath in
    let* exists_ := fs_exists resolved in
    let* previous :=
      (if exists_ then ensureReadBeforeWrite resolved ;;; fs_readFile resolved
       else ret "") in
    fs_writeFile resolved content ;;;
    lsp_sync ctx resolved content ;;;
    let* diff := createUnifiedDiff previous content filePath in
    ret (JObj [("path", JStr filePath); ("created", JBool (negb exists_));
               ("diff", JStr diff); ("before", JStr previous); ("after", JStr content)]).

Definition git_status_argv : list string := ["git"; "status"; "--porcelain"; "-uall"].

(** The loop of [collectChangedFiles] over the lines of [git status]. *)
Fixpoint read_changed (rootDir : string) (lines : list string)
    (files : gmap string string) : M Sandbox (gmap string string) :=
  match lines with
  | [] => ret files
  | line :: rest =>
      if Js.is_empty (Js.trim line) then read_changed rootDir rest files
      else
        let status := Js.take 2 line in
        let filePath := Js.trim (Js.slice 3 line) in
        if Js.includes "D"%char status
        then throw (Error ("Deletion not supported: " +:+ filePath))
        else
          let absolute := Path.join rootDir filePath in
          let* content := fs_readFile absolute in
          read_changed rootDir rest (<[filePath := content]> files)
  end.

Definition collectChangedFiles (rootDir : string) : M Sandbox (gmap string string) :=
  modify (log_spawn git_status_argv) ;;;
  let* s := get_state in
  let '(code, stdout, stderr) := git_status rootDir (fs s) in
  if negb (bool_decide (code = 0%Z))
  then throw (Error (if Js.is_empty stderr then "git status failed" else stderr))
  else
    let* files := read_changed rootDir (Js.split Js.newline stdout) ∅ in
    if bool_decide (files = ∅) then throw (Error "No changes detected")
    else ret files.

Definition deployTool (ctx : ToolExecutionContext) (args : json) : M Sandbox json :=
  let message := string_arg "message" "Deploy from TUI" args in
  let* files := collectChangedFiles (rootDir ctx) in
  let* commitSha := of_result (commitFiles (baseUrl ctx) (token ctx) (appId ctx) files message) in
  let* deploymentId := of_result (deployApp (baseUrl ctx) (token ctx) (appId ctx)) in
  ret (JObj [("commitSha", JStr commitSha); ("deploymentId", JStr deploymentId)]).

Definition succeeded (out : json) : ToolExecutionResult :=
  {| result_ok := true; output := Some out; error := None |}.

Definition failed (message : string) : ToolExecutionResult :=
  {| result_ok := false; output := None; error := Some message |}.

(** The [try] block of [executeLocalTool]. *)
Definition dispatch (call : ToolCall) (ctx : ToolExecutionContext)
  : M Sandbox ToolExecutionResult :=
  let* allowedTools := getAllowedTools (baseUrl ctx) (token ctx) in
  if negb (bool_decide (name call ∈ allowedTools))
  then ret (failed ("Tool not in manifest: " +:+ name call))
  else
    let args := default (JObj []) (args call) in
    let args := if Json.truthy args then args else JObj [] in
    if bool_decide (name call = "read_file") then
      let* out := readFileTool ctx args in ret (succeeded out)
    else if bool_decide (name call = "list_files") then
      let* out := listFilesTool ctx args in ret (succeeded out)
    else if bool_decide (name call = "grep") then
      let* out := grepTool ctx args in ret (succeeded out)
    else if bool_decide (name call = "apply_patch") then
      let* out := applyPatchTool ctx args in ret (succeeded out)
    else if bool_decide (name call = "write_file") then
      let* out := writeFileTool ctx args in ret (succeeded out)
    else if bool_decide (name call = "deploy") then
      let* out := deployTool ctx args in ret (succeeded out)
    else ret (failed ("Unknown tool: " +:+ name call)).

Definition executeLocalTool (call : ToolCall) (ctx : ToolExecutionContext)
  : M Sandbox ToolExecutionResult :=
  try_catch (dispatch call ctx)
            (fun e => ret (failed (message_or "Tool failed" e))).

End WithHost.
End Tools.

(* ===================================================================== *)
(** ** The session driver ([ChatWorker]) *)
(* ===================================================================== *)

Inductive ChatMode : Type := general | builder.
Inductive ExecutionMode : Type := local | hosted.

#[global] Instance ChatMode_eq_dec : EqDecision ChatMode.
Proof. solve_decision. Defined.
#[global] Instance ExecutionMode_eq_dec : EqDecision ExecutionMode.
Proof. solve_decision. Defined.

Inductive LoginState : Type :=
  | login_idle
  | login_ready (token : string)
  | login_pending (userCode verificationUrl deviceCode : string)
  | login_error (message : string).

(** The fields of [LocalConfig] the turn logic reads or writes. *)
Record LocalConfig := {
  cfg_executionMode : option ExecutionMode;
  cfg_conversationId : option string;
  cfg_appId : option string
}.

Record ChatRequestBody := {
  action_tool_result : bool;             (* [action: "tool_result"] is present *)
  input : list ResponseItem;
  mode : ChatMode;
  executionMode : option ExecutionMode;
  req_conversationId : option string;
  req_appId : option string;
  toolResult : option json
}.

(** What the worker reports through [ChatWorkerEvents]. *)
Inductive UiEvent : Type :=
  | Line (text : string)
  | Stream (text : string)
  | State (modeLabel loginStatus lspLabel : string) (conversationId : option string)
          (footerHint : string).

Record HistoryMessage := {
  h_role : string;
  h_type : string;
  h_text : string
}.

(** One worker: the fields of [ChatWorker], what it has reported ([ui]) and
    recorded ([history], taken never to fail), and the endpoint it talks to:
    [remote] are the replies [chatRequest] will get, in order (a rejected
    fetch is [inl]; with no reply left the fetch is rejected), [requests]
    the bodies sent so far. *)
Record Worker := {
  w_baseUrl : string;
  items : list ResponseItem;
  conversationId : option string;
  w_appId : option string;
  chatMode : ChatMode;
  loginState : LoginState;
  streamingText : string;
  config : LocalConfig;
  sandbox : Sandbox;
  ui : list UiEvent;
  history : list HistoryMessage;
  remote : list (exn + Response);
  requests : list ChatRequestBody
}.

(** The rendering helpers of the worker, as functions of the item.
    [render_tool_call] is [formatItem] on a [tool_call] item, which always
    gives a text. [render_item] is [formatItem] on any other item: a text,
    [null], or a [TypeError] (an item without a string [type], a message
    with a [null] block). [message_text] is the text
    [recordHistoryFromItem] takes from a message, or a [TypeError] on a
    [null] block. [formatCompact] has its own [try] and never raises. *)
Class Rendering := {
  render_tool_call : ResponseItem -> string;
  render_item : ResponseItem -> exn + option string;
  formatCompact : option json -> option string;
  message_text : ResponseItem -> exn + string
}.

Module ChatWorker.

Definition set_items (x : list ResponseItem) (w : Worker) : Worker :=
  {| w_baseUrl := w_baseUrl w; items := x; conversationId := conversationId w; w_appId := w_appId w;
     chatMode := chatMode w; loginState := loginState w;
     streamingText := streamingText w; config := config w; sandbox := sandbox w;
     ui := ui w; history := history w; remote := remote w; requests := requests w |}.

Definition set_conversationId (x : option string) (w : Worker) : Worker :=
  {| w_baseUrl := w_baseUrl w; items := items w; conversationId := x; w_appId := w_appId w;
     chatMode := chatMode w; loginState := loginState w;
     streamingText := streamingText w; config := config w; sandbox := sandbox w;
     ui := ui w; history := history w; remote := remote w; requests := requests w |}.

Definition set_appId (x : option string) (w : Worker) : Worker :=
  {| w_baseUrl := w_baseUrl w; items := items w; conversationId := conversationId w; w_appId := x;
     chatMode := chatMode w; loginState := loginState w;
     streamingText := streamingText w; config := config w; sandbox := sandbox w;
     ui := ui w; history := history w; remote := remote w; requests := requests w |}.

Definition set_streamingText (x : string) (w : Worker) : Worker :=
  {| w_baseUrl := w_baseUrl w; items := items w; conversationId := conversationId w; w_appId := w_appId w;
     chatMode := chatMode w; loginState := loginState w;
     streamingText := x; config := config w; sandbox := sandbox w;
     ui := ui w; history := history w; remote := remote w; requests := requests w |}.

Definition set_config (x : LocalConfig) (w : Worker) : Worker :=
  {| w_baseUrl := w_baseUrl w; items := items w; conversationId := conversationId w; w_appId := w_appId w;
     chatMode := chatMode w; loginState := loginState w;
     streamingText := streamingText w; config := x; sandbox := sandbox w;
     ui := ui w; history := history w; remote := remote w; requests := requests w |}.

Definition set_sandbox (x : Sandbox) (w : Worker) : Worker :=
  {| w_baseUrl := w_baseUrl w; items := items w; conversationId := conversationId w; w_appId := w_appId w;
     chatMode := chatMode w; loginState := loginState w;
     streamingText := streamingText w; config := config w; sandbox := x;
     ui := ui w; history := history w; remote := remote w; requests := requests w |}.

Definition set_ui (x : list UiEvent) (w : Worker) : Worker :=
  {| w_baseUrl := w_baseUrl w; items := items w; conversationId := conversationId w; w_appId := w_appId w;
     chatMode := chatMode w; loginState := loginState w;
     streamingText := streamingText w; config := config w; sandbox := sandbox w;
     ui := x; history := history w; remote := remote w; requests := requests w |}.

Definition set_history (x : list HistoryMessage) (w : Worker) : Worker :=
  {| w_baseUrl := w_baseUrl w; items := items w; conversationId := conversationId w; w_appId := w_appId w;
     chatMode := chatMode w; loginState := loginState w;
     streamingText := streamingText w; config := config w; sandbox := sandbox w;
     ui := ui w; history := x; remote := remote w; requests := requests w |}.

Definition set_remote (x : list (exn + Response)) (sent : list ChatRequestBody)
    (w : Worker) : Worker :=
  {| w_baseUrl := w_baseUrl w; items := items w; conversationId := conversationId w; w_appId := w_appId w;
     chatMode := chatMode w; loginState := loginState w;
     streamingText := streamingText w; config := config w; sandbox := sandbox w;
     ui := ui w; history := history w; remote := x; requests := sent |}.

(** A present, non-empty string: what [if (x)] accepts. *)
Definition nonempty (x : option string) : option string :=
  match x with
  | Some s => if Js.is_empty s then None else Some s
  | None => None
  end.

Definition token_of (w : Worker) : option string :=
  match loginState w with
  | login_ready t => nonempty (Some t)
  | _ => None
  end.

Definition modeLabel (w : Worker) : string :=
  match chatMode w with
  | builder =>
      match nonempty (w_appId w) with
      | Some a => "builder:" +:+ a
      | None => "builder"
      end
  | general => "chat"
  end.

Definition loginStatus (w : Worker) : string :=
  match loginState w with
  | login_idle => "idle"
  | login_ready _ => "ready"
  | login_pending _ _ _ => "pending"
  | login_error _ => "error"
  end.

Definition lspLabel : string := "lsp:off".

Definition footerHint (w : Worker) : string :=
  match loginState w with
  | login_pending _ _ _ => "login pending · /login check"
  | _ => "enter send · /help"
  end.

Definition emit (e : UiEvent) : M Worker unit :=
  modify (fun w => set_ui (ui w ++ [e]) w).

Definition emitState : M Worker unit :=
  let* w := get_state in
  emit (State (modeLabel w) (loginStatus w) lspLabel (conversationId w) (footerHint w)).

Definition appendLine (text : string) : M Worker unit := emit (Line text).

Definition updateStreaming (text : string) : M Worker unit :=
  modify (set_streamingText text) ;;; emit (Stream text).

Definition clearStreaming : M Worker unit :=
  modify (set_streamingText "") ;;; emit (Stream "").

Definition recordHistory (role type text : string) : M Worker unit :=
  modify (fun w =>
    set_history (history w ++ [{| h_role := role; h_type := type; h_text := text |}]) w).

(** The part of [persistConfig] that runs before its first [await]. *)
Definition persist_conversationId (id : string) : M Worker unit :=
  modify (fun w =>
    set_config {| cfg_executionMode := cfg_executionMode (config w);
                  cfg_conversationId := Some id;
                  cfg_appId := cfg_appId (config w) |} w).

Definition persist_appId (id : string) : M Worker unit :=
  modify (fun w =>
    set_config {| cfg_executionMode := cfg_executionMode (config w);
                  cfg_conversationId := cfg_conversationId (config w);
                  cfg_appId := Some id |} w).

Definition item_type (item : ResponseItem) : option string := Json.str_field "type" item.

Definition is_type (t : string) (item : ResponseItem) : bool :=
  bool_decide (item_type item = Some t).

(** [chatRequest]: the next reply of the endpoint. *)
Definition chatRequest (body : ChatRequestBody) : M Worker Response :=
  fun w =>
    match remote w with
    | [] => (Throw (Error "fetch failed"), set_remote [] (requests w ++ [body]) w)
    | inl e :: rest => (Throw e, set_remote rest (requests w ++ [body]) w)
    | inr response :: rest => (Ok response, set_remote rest (requests w ++ [body]) w)
    end.

Section Driver.
Context `{Runtime} `{Host} `{Rendering}.

(** [s.replace(pattern, "")] for a literal pattern: its first occurrence is
    removed. *)
Fixpoint remove_first (pattern s : string) : string :=
  if Js.startsWith pattern s then Js.slice (String.length pattern) s
  else match s with
       | EmptyString => EmptyString
       | String c s' => String c (remove_first pattern s')
       end.

(** The app id one item carries: its own [appId], else its [output.appId]. *)
Definition captured_appId (item : ResponseItem) : option string :=
  if negb (Json.truthy item) || negb (Json.typeof_object item) then None
  else
    match nonempty (Json.str_field "appId" item) with
    | Some direct => Some direct
    | None =>
        match Json.get "output" item with
        | Some out =>
            if Json.truthy out && Json.typeof_object out
            then nonempty (Json.str_field "appId" out)
            else None
        | None => None
        end
    end.

Fixpoint first_appId (batch : list ResponseItem) : option string :=
  match batch with
  | [] => None
  | item :: rest =>
      match captured_appId item with
      | Some a => Some a
      | None => first_appId rest
      end
  end.

Definition maybeCaptureAppId (batch : list ResponseItem) : M Worker unit :=
  let* w := get_state in
  match nonempty (w_appId w) with
  | Some _ => ret tt
  | None =>
      match first_appId batch with
      | Some a =>
          modify (set_appId (Some a)) ;;;
          persist_appId a ;;;
          appendLine ("app linked: " +:+ a)
      | None => ret tt
      end
  end.

Definition formatItem (item : ResponseItem) : M Worker (option string) :=
  if is_type "tool_call" item then ret (Some (render_tool_call item))
  else match render_item item with
       | inl e => throw e
       | inr formatted => ret formatted
       end.

(** [const formatted = this.formatItem(item); if (formatted)
    this.appendLine(formatted);] *)
Definition show_item (item : ResponseItem) : M Worker unit :=
  let* formatted := formatItem item in
  match nonempty formatted with
  | Some line => appendLine line
  | None => ret tt
  end.

(** [item.role ?? "assistant"] *)
Definition role_of (item : ResponseItem) : string :=
  match Json.get "role" item with
  | None | Some JNull => "assistant"
  | Some v => to_String v
  end.

Definition recordHistoryFromItem (item : ResponseItem) : M Worker unit :=
  if is_type "message" item then
    match message_text item with
    | inl e => throw e
    | inr text =>
        if Js.is_empty text then ret tt else recordHistory (role_of item) "message" text
    end
  else if is_type "tool_call" item then
    recordHistory "tool" "tool_call" (string_arg "name" "tool" item)
  else if is_type "tool_output" item then
    recordHistory "tool" "tool_output" "ok"
  else ret tt.

(** Reading [item.type] of [null] raises a [TypeError] (the wording is the
    engine's). *)
Definition null_item_error : exn :=
  Error "null is not an object (evaluating 'item.type')".

Definition push_item (item : ResponseItem) : M Worker unit :=
  modify (fun w => set_items (items w ++ [item]) w).

(** [`${v}`] for a member that may be missing *)
Definition template (v : option json) : string :=
  match v with Some v => to_String v | None => "undefined" end.

Definition tool_call_of (toolCall : ResponseItem) : ToolCall :=
  {| name := template (Json.get "name" toolCall);
     args := Some (match Json.get "args" toolCall with
                   | Some a => if Json.truthy a then a else JObj []
                   | None => JObj []
                   end) |}.

Definition tool_output_item (toolCall : ResponseItem) (result : ToolExecutionResult)
  : ResponseItem :=
  JObj ([("type", JStr "tool_output")]
        ++ Json.member "callId" (Json.get "callId" toolCall)
        ++ Json.member "name" (Json.get "name" toolCall)
        ++ [("ok", JBool (result_ok result))]
        ++ Json.member "output" (output result)
        ++ Json.member "error" (JStr <$> error result)
        ++ [("createdAt", JStr Date_toISOString)]).

Definition tool_output_line (toolCall : ResponseItem) (result : ToolExecutionResult)
  : string :=
  let outputText := formatCompact (output result) in
  let errorText := nonempty (formatCompact (JStr <$> error result)) in
  Js.join " "
    (["tool_output: " +:+ template (Json.get "name" toolCall) +:+ " ("
        +:+ (if result_ok result then "ok" else "error") +:+ ")"]
     ++ match errorText with
        | Some e => ["error=" +:+ e]
        | None =>
            match nonempty outputText with
            | Some o => ["output=" +:+ o]
            | None => []
            end
        end).

(** [handleToolCall], with the call of [sendToolResult] that ends it as
    [resubmit]. *)
Definition handleToolCall_with (resubmit : ResponseItem -> M Worker unit)
    (toolCall : ResponseItem) : M Worker unit :=
  let* w := get_state in
  match token_of w with
  | None => ret tt
  | Some tok =>
      if negb (bool_decide (chatMode w = builder)) then ret tt
      else if negb (bool_decide
                      (default local (cfg_executionMode (config w)) = local)) then ret tt
      else
        match nonempty (w_appId w) with
        | None => appendLine "tool_call rejected: missing app id"
        | Some app =>
            let* result :=
              zoom sandbox set_sandbox
                (Tools.executeLocalTool (tool_call_of toolCall)
                   {| rootDir := process_cwd; baseUrl := w_baseUrl w;
                      token := tok; appId := app; lsp := false |}) in
            appendLine (tool_output_line toolCall result) ;;;
            recordHistory "tool" "tool_output"
              (match output result with Some o => to_String o | None => "" end) ;;;
            resubmit (tool_output_item toolCall result)
        end
  end.

(** The [onTextDelta] callback of both streams. *)
Definition on_text_delta (delta : string) : M Worker unit :=
  let* w := get_state in
  updateStreaming (streamingText w +:+ delta).

(** After the stream: the text still in the live buffer becomes one
    [assistant:] line, and the buffer is cleared. *)
Definition flush_streaming : M Worker unit :=
  let* w := get_state in
  (if (0 <? String.length (Js.trim (streamingText w)))%nat then
     appendLine ("assistant: " +:+ streamingText w) ;;;
     recordHistory "assistant" "message" (streamingText w)
   else ret tt) ;;;
  clearStreaming.

Definition on_stream_error (e : exn) : M Worker unit :=
  appendLine ("stream error: " +:+ message_or "stream failed" e) ;;;
  clearStreaming.

(** The body of the [onItems] loop of [sendToolResult]. *)
Definition tool_result_item (handle : ResponseItem -> M Worker unit)
    (item : ResponseItem) : M Worker unit :=
  push_item item ;;;
  match item with
  | JNull => throw null_item_error
  | _ =>
      show_item item ;;;
      (if is_type "tool_call" item then handle item else ret tt) ;;;
      recordHistoryFromItem item
  end.

(** The body of the [onItems] loop of [sendMessage]: an assistant message
    that formats to a text replaces the live buffer, and nothing else is
    done with it. *)
Definition message_item (handle : ResponseItem -> M Worker unit)
    (item : ResponseItem) : M Worker unit :=
  push_item item ;;;
  match item with
  | JNull => throw null_item_error
  | _ =>
      let* formatted :=
        (if is_type "message" item &&
            bool_decide (Json.str_field "role" item = Some "assistant")
         then formatItem item else ret None) in
      match nonempty formatted with
      | Some line => updateStreaming (remove_first "assistant: " line)
      | None =>
          show_item item ;;;
          (if is_type "tool_call" item then handle item else ret tt) ;;;
          recordHistoryFromItem item
      end
  end.

Fixpoint for_each {A} (f : A -> M Worker unit) (xs : list A) : M Worker unit :=
  match xs with
  | [] => ret tt
  | x :: rest => f x ;;; for_each f rest
  end.

Definition tool_result_body (w : Worker) (cid : string) (nextItems : list ResponseItem)
    (toolOutput : ResponseItem) : ChatRequestBody :=
  {| action_tool_result := true;
     input := nextItems;
     mode := chatMode w;
     executionMode := Some local;
     req_conversationId := Some cid;
     req_appId := w_appId w;
     toolResult :=
       Some (JObj ([("toolName", JStr (string_arg "name" "tool" toolOutput))]
                   ++ Json.member "callId" (Json.get "callId" toolOutput)
                   ++ Json.member "output" (Json.get "output" toolOutput)
                   ++ Json.member "ok" (Json.get "ok" toolOutput)
                   ++ Json.member "error" (Json.get "error" toolOutput))) |}.

(** [sendToolResult]. It calls itself through [handleToolCall] for as long
    as the endpoint answers with tool calls; [depth] bounds the nesting, and
    the call does not return ([hang]) when the bound is exhausted. *)
Fixpoint sendToolResult (depth : nat) (toolOutput : ResponseItem) : M Worker unit :=
  match depth with
  | O => hang
  | S depth' =>
      let* w := get_state in
      match token_of w with
      | None => ret tt
      | Some tok =>
          if negb (bool_decide (chatMode w = builder)) then ret tt
          else
            match nonempty (conversationId w) with
            | None => appendLine "tool_result error: missing conversation id"
            | Some cid =>
                let nextItems := items w ++ [toolOutput] in
                modify (set_items nextItems) ;;;
                if negb (bool_decide
                           (default local (cfg_executionMode (config w)) = local))
                then ret tt
                else
                  let* response :=
                    chatRequest (tool_result_body w cid nextItems toolOutput) in
                  if negb (ok response)
                  then appendLine ("request error: " +:+ pretty (status response)
                                   +:+ " " +:+ resp_text response)
                  else
                    try_catch
                      (consumeStream
                         {| onTextDelta := Some on_text_delta;
                            onReasoningDelta := None;
                            onConversationId := None;
                            onItems := Some (fun batch =>
                              maybeCaptureAppId batch ;;;
                              for_each
                                (tool_result_item
                                   (handleToolCall_with (sendToolResult depth')))
                                batch);
                            onUsage := None;
                            shouldStop := None;
                            onStop := None |}
                         response ;;;
                       flush_streaming)
                      on_stream_error
            end
      end
  end.

Definition handleToolCall (depth : nat) : ResponseItem -> M Worker unit :=
  handleToolCall_with (sendToolResult depth).

Definition user_item (text : string) : ResponseItem :=
  JObj [("type", JStr "message");
        ("role", JStr "user");
        ("content", JArr [JObj [("type", JStr "markdown"); ("text", JStr text)]]);
        ("createdAt", JStr Date_toISOString)].

Definition on_conversation_id (id : string) : M Worker unit :=
  let* w := get_state in
  match nonempty (conversationId w) with
  | Some _ => ret tt
  | None =>
      modify (set_conversationId (Some id)) ;;;
      persist_conversationId id ;;;
      emitState
  end.

Definition message_callbacks (depth : nat) : StreamCallbacks Worker :=
  {| onTextDelta := Some on_text_delta;
     onReasoningDelta := None;
     onConversationId := Some on_conversation_id;
     onItems := Some (fun batch =>
       maybeCaptureAppId batch ;;;
       for_each (message_item (handleToolCall depth)) batch);
     onUsage := None;
     shouldStop := None;
     onStop := None |}.

Definition message_body (w : Worker) : ChatRequestBody :=
  let isBuilder := bool_decide (chatMode w = builder) in
  {| action_tool_result := false;
     input := items w;
     mode := chatMode w;
     executionMode :=
       if isBuilder then Some (default local (cfg_executionMode (config w))) else None;
     req_conversationId := conversationId w;
     req_appId := if isBuilder then w_appId w else None;
     toolResult := None |}.

(** [sendMessage]: one conversational turn. *)
Definition sendMessage (depth : nat) (text : string) : M Worker unit :=
  let* w := get_state in
  match token_of w with
  | None => appendLine "login required"
  | Some tok =>
      push_item (user_item text) ;;;
      appendLine ("user: " +:+ text) ;;;
      recordHistory "user" "message" text ;;;
      let* w := get_state in
      let* response := chatRequest (message_body w) in
      if negb (ok response)
      then appendLine ("request error: " +:+ pretty (status response)
                       +:+ " " +:+ resp_text response)
      else
        clearStreaming ;;;
        try_catch
          (consumeStream (message_callbacks depth) response ;;; flush_streaming)
          on_stream_error
  end.

End Driver.
End ChatWorker.

(* ===================================================================== *)
(** ** A reference runtime, host and rendering, to run the model *)
(* ===================================================================== *)

(** A JSON reader for the examples: the JSON grammar, with numbers kept as
    their literal and [\u] escapes written out as UTF-8. *)
Module JsonText.

Definition is_ws (c : ascii) : bool :=
  let n := nat_of_ascii c in
  (n =? 32) || (n =? 9) || (n =? 10) || (n =? 13).

Fixpoint skip_ws (s : string) : string :=
  match s with
  | String c s' => if is_ws c then skip_ws s' else s
  | EmptyString => EmptyString
  end.

Definition quote : ascii := "034"%char.
Definition backslash : ascii := "092"%char.

Definition is_digit (c : ascii) : bool :=
  let n := nat_of_ascii c in (48 <=? n) && (n <=? 57).

Definition hex_value (c : ascii) : option nat :=
  let n := nat_of_ascii c in
  if (48 <=? n) && (n <=? 57) then Some (n - 48)
  else if (97 <=? n) && (n <=? 102) then Some (n - 87)
  else if (65 <=? n) && (n <=? 70) then Some (n - 55)
  else None.

Definition utf8 (code : nat) : string :=
  if code <? 128 then String (ascii_of_nat code) EmptyString
  else if code <? 2048 then
    String (ascii_of_nat (192 + code / 64))
      (String (ascii_of_nat (128 + code mod 64)) EmptyString)
  else
    String (ascii_of_nat (224 + code / 4096))
      (String (ascii_of_nat (128 + (code / 64) mod 64))
         (String (ascii_of_nat (128 + code mod 64)) EmptyString)).

(** The characters of a string literal after its opening quote. *)
Fixpoint string_body (s : string) : option (string * string) :=
  match s with
  | EmptyString => None
  | String c s' =>
      if Ascii.eqb c quote then Some (EmptyString, s')
      else if Ascii.eqb c backslash then
        match s' with
        | String e s'' =>
            let simple (r : ascii) :=
              match string_body s'' with
              | Some (body, rest) => Some (String r body, rest)
              | None => None
              end in
            if Ascii.eqb e "u"%char then
              match s'' with
              | String h1 (String h2 (String h3 (String h4 s4))) =>
                  match hex_value h1, hex_value h2, hex_value h3, hex_value h4,
                        string_body s4 with
                  | Some a, Some b, Some c', Some d, Some (body, rest) =>
                      Some (utf8 (((a * 16 + b) * 16 + c') * 16 + d) +:+ body, rest)
                  | _, _, _, _, _ => None
                  end
              | _ => None
              end
            else if Ascii.eqb e quote then simple quote
            else if Ascii.eqb e backslash then simple backslash
            else if Ascii.eqb e "/"%char then simple "/"%char
            else if Ascii.eqb e "b"%char then simple "008"%char
            else if Ascii.eqb e "f"%char then simple "012"%char
            else if Ascii.eqb e "n"%char then simple "010"%char
            else if Ascii.eqb e "r"%char then simple "013"%char
            else if Ascii.eqb e "t"%char then simple "009"%char
            else None
        | EmptyString => None
        end
      else if (nat_of_ascii c <? 32)%nat then None
      else
        match string_body s' with
        | Some (body, rest) => Some (String c body, rest)
        | None => None
        end
  end.

Fixpoint digits (s : string) : string * string :=
  match s with
  | String c s' =>
      if is_digit c then let '(d, rest) := digits s' in (String c d, rest)
      else (EmptyString, s)
  | EmptyString => (EmptyString, EmptyString)
  end.

(** A number literal: an optional sign, an integer part without a leading
    zero, an optional fraction, an optional exponent. *)
Definition number (s : string) : option (string * string) :=
  let '(sign, s1) :=
    match s with
    | String c s' => if Ascii.eqb c "-"%char then ("-", s') else ("", s)
    | _ => ("", s)
    end in
  let '(int, s2) := digits s1 in
  if Js.is_empty int || (Js.startsWith "0" int && (1 <? String.length int)%nat) then None
  else
    let frac :=
      match s2 with
      | String c s' =>
          if Ascii.eqb c "."%char then
            let '(d, rest) := digits s' in
            if Js.is_empty d then None else Some ("." +:+ d, rest)
          else Some ("", s2)
      | _ => Some ("", s2)
      end in
    match frac with
    | None => None
    | Some (f, s3) =>
        match s3 with
        | String c s' =>
            if Ascii.eqb c "e"%char || Ascii.eqb c "E"%char then
              let '(esign, s4) :=
                match s' with
                | String g s'' =>
                    if Ascii.eqb g "+"%char || Ascii.eqb g "-"%char
                    then (String g EmptyString, s'') else ("", s')
                | _ => ("", s')
                end in
              let '(d, rest) := digits s4 in
              if Js.is_empty d then None
              else Some (sign +:+ int +:+ f +:+ String c EmptyString +:+ esign +:+ d, rest)
            else Some (sign +:+ int +:+ f, s3)
        | _ => Some (sign +:+ int +:+ f, s3)
        end
    end.

Fixpoint value (fuel : nat) (s : string) : option (json * string) :=
  match fuel with
  | O => None
  | S fuel' =>
      let elements :=
        fix elements (n : nat) (s : string) : option (list json * string) :=
          match n with
          | O => None
          | S n' =>
              match value fuel' (skip_ws s) with
              | Some (v, rest) =>
                  match skip_ws rest with
                  | String c rest' =>
                      if Ascii.eqb c ","%char then
                        match elements n' rest' with
                        | Some (vs, rest'') => Some (v :: vs, rest'')
                        | None => None
                        end
                      else if Ascii.eqb c "]"%char then Some ([v], rest')
                      else None
                  | EmptyString => None
                  end
              | None => None
              end
          end in
      let members :=
        fix members (n : nat) (s : string) : option (list (string * json) * string) :=
          match n with
          | O => None
          | S n' =>
              match skip_ws s with
              | String q s1 =>
                  if Ascii.eqb q quote then
                    match string_body s1 with
                    | Some (key, s2) =>
                        match skip_ws s2 with
                        | String colon s3 =>
                            if Ascii.eqb colon ":"%char then
                              match value fuel' (skip_ws s3) with
                              | Some (v, rest) =>
                                  match skip_ws rest with
                                  | String c rest' =>
                                      if Ascii.eqb c ","%char then
                                        match members n' rest' with
                                        | Some (ms, rest'') => Some ((key, v) :: ms, rest'')
                                        | None => None
                                        end
                                      else if Ascii.eqb c "}"%char
                                      then Some ([(key, v)], rest')
                                      else None
                                  | EmptyString => None
                                  end
                              | None => None
                              end
                            else None
                        | EmptyString => None
                        end
                    | None => None
                    end
                  else None
              | EmptyString => None
              end
          end in
      match s with
      | EmptyString => None
      | String c s' =>
          if Ascii.eqb c quote then
            match string_body s' with
            | Some (body, rest) => Some (JStr body, rest)
            | None => None
            end
          else if Ascii.eqb c "["%char then
            match skip_ws s' with
            | String c' rest =>
                if Ascii.eqb c' "]"%char then Some (JArr [], rest)
                else match elements fuel' s' with
                     | Some (vs, rest') => Some (JArr vs, rest')
                     | None => None
                     end
            | EmptyString => None
            end
          else if Ascii.eqb c "{"%char then
            match skip_ws s' with
            | String c' rest =>
                if Ascii.eqb c' "}"%char then Some (JObj [], rest)
                else match members fuel' s' with
                     | Some (ms, rest') => Some (JObj ms, rest')
                     | None => None
                     end
            | EmptyString => None
            end
          else if Js.startsWith "true" s then Some (JBool true, Js.slice 4 s)
          else if Js.startsWith "false" s then Some (JBool false, Js.slice 5 s)
          else if Js.startsWith "null" s then Some (JNull, Js.slice 4 s)
          else
            match number s with
            | Some (literal, rest) => Some (JNum literal, rest)
            | None => None
            end
      end
  end.

Definition parse (s : string) : string + json :=
  match value (S (String.length s)) (skip_ws s) with
  | Some (v, rest) =>
      if Js.is_empty (skip_ws rest) then inr v
      else inl "JSON Parse error: Unable to parse JSON string"
  | None => inl "JSON Parse error: Unable to parse JSON string"
  end.

End JsonText.

Module Reference.

#[export] Instance runtime : Runtime :=
  {| JSON_parse := JsonText.parse;
     Date_now := "0";
     Date_toISOString := "1970-01-01T00:00:00.000Z" |}.

(** Wire text for the examples: an apostrophe stands for a double quote and
    a dollar sign for a line feed. *)
Fixpoint wire (s : string) : string :=
  match s with
  | EmptyString => EmptyString
  | String c s' =>
      String (if Ascii.eqb c "'"%char then JsonText.quote
              else if Ascii.eqb c "$"%char then Js.newline
              else c)
             (wire s')
  end.

Definition tool_names : list string :=
  ["read_file"; "list_files"; "grep"; "apply_patch"; "write_file"; "deploy"].

(** A host whose manifest lists the six tools and whose programs end with
    exit code 0 and no output; [git apply] leaves the disk as it is. *)
#[export] Instance host : Host :=
  {| fetchToolManifest := fun _ _ => inr tool_names;
     git_apply := fun _ _ files directories => (0%Z, "", files, directories);
     diff_u := fun _ _ _ => "";
     os_tmpdir := "/tmp";
     rg := fun _ _ _ _ => (Some 0%Z, "", "");
     glob_scan := fun _ _ _ => inr [];
     git_status := fun _ _ => (0%Z, "", "");
     commitFiles := fun _ _ _ _ _ => inr "commit";
     deployApp := fun _ _ _ => inr "deployment";
     process_cwd := "/home/user/project" |}.

(** The text of the first block of a message. *)
Definition first_text (item : ResponseItem) : string :=
  match Json.get "content" item with
  | Some (JStr s) => s
  | Some (JArr (block :: _)) => default "" (Json.str_field "text" block)
  | _ => ""
  end.

(** A rendering without markdown clean-up, for items with a string
    [type]. *)
#[export] Instance rendering : Rendering :=
  {| render_tool_call := fun item => "tool_call: " +:+ string_arg "name" "tool" item;
     render_item := fun item =>
       match ChatWorker.item_type item with
       | None => inl (Error "undefined is not an object (evaluating 'item.type.startsWith')")
       | Some _ =>
           if ChatWorker.is_type "message" item then
             inr (Some (ChatWorker.role_of item +:+ ": " +:+ first_text item))
           else inr None
       end;
     formatCompact := fun v =>
       match v with
       | Some (JStr s) => ChatWorker.nonempty (Some (Js.trim s))
       | Some JNull | None => None
       | Some _ => Some "{..}"
       end;
     message_text := fun item => inr (first_text item) |}.

(** The directories of a disk that holds the project directory and nothing
    below it. *)
Definition project_dirs : gset string :=
  {["/home"; "/home/user"; "/home/user/project"]}.

Definition empty_sandbox : Sandbox :=
  {| fs := ∅; dirs := project_dirs; readSet := ∅; manifestCache := ∅;
     allowedToolsCache := ∅; spawned := []; lspSynced := [] |}.

Definition sandbox_of (files : gmap string string) (reads : gset string) : Sandbox :=
  {| fs := files; dirs := project_dirs; readSet := reads; manifestCache := ∅;
     allowedToolsCache := ∅; spawned := []; lspSynced := [] |}.

Definition write_args (filePath content : string) : json :=
  JObj [("path", JStr filePath); ("content", JStr content)].

Definition patch_args (patchText : string) : json :=
  JObj [("patch", JStr patchText)].

(** A one-file patch, in wire text. *)
Definition patch_of_a : string :=
  wire "--- a/a.txt$+++ b/a.txt$@@ -1 +1 @@$-old$+new$".

Definition ctx : ToolExecutionContext :=
  {| rootDir := "/home/user/project"; baseUrl := "https://api.example";
     token := "t"; appId := "app"; lsp := false |}.

Definition streamed (parts : list string) : Response :=
  {| ok := true; status := 200; resp_text := "";
     body := Some {| chunks := parts; read_failure := None |} |}.

(** A logged-in worker in builder mode, local execution. *)
Definition worker (app conversation : option string) (replies : list (exn + Response))
  : Worker :=
  {| w_baseUrl := "https://api.example"; items := []; conversationId := conversation;
     w_appId := app; chatMode := builder; loginState := login_ready "t";
     streamingText := "";
     config := {| cfg_executionMode := Some local; cfg_conversationId := conversation;
                  cfg_appId := app |};
     sandbox := empty_sandbox; ui := []; history := [];
     remote := replies; requests := [] |}.

(** What a caller that only listens sees of a stream. *)
Inductive Event : Type :=
  | TextDelta (delta : string)
  | ReasoningDelta (delta : string)
  | ConversationId (id : string)
  | Items (batch : list ResponseItem)
  | UsageReport (usage : Usage)
  | Polled (answer : bool)
  | Stopped.

Definition record (e : Event) : M (list Event) unit := modify (fun log => log ++ [e]).

(** Callbacks that log every call; the poll answers [stop]. *)
Definition listener (stop : bool) : StreamCallbacks (list Event) :=
  {| onTextDelta := Some (fun d => record (TextDelta d));
     onReasoningDelta := Some (fun d => record (ReasoningDelta d));
     onConversationId := Some (fun id => record (ConversationId id));
     onItems := Some (fun batch => record (Items batch));
     onUsage := Some (fun u => record (UsageReport u));
     shouldStop := Some (record (Polled stop) ;;; ret stop);
     onStop := Some (record Stopped) |}.

End Reference.


(* ===================================================================== *)
(** ** The vocabulary of the properties *)
(* ===================================================================== *)

(** The complete lines of a text, and what follows its last line feed. *)
Definition lines_of (s : string) : list string := (Js.pop (Js.split Js.newline s)).1.
Definition rest_of (s : string) : string :=
  default EmptyString (Js.pop (Js.split Js.newline s)).2.

(** The text of a body: its chunks, one after the other. *)
Definition text_of (parts : list string) : string :=
  fold_right String.append EmptyString parts.

(** Whether [consumeStream] returned because the caller asked to stop. *)
Definition cancelled (e : ending) : bool :=
  match e with Cancelled _ => true | Drained => false end.

(** What a caller sees of a run of [consumeStream]: how it ended, and the
    state its callbacks leave. *)
Definition observe {S} (out : res ending * S) : res bool * S :=
  (match out.1 with
   | Ok e => Ok (cancelled e)
   | Throw e => Throw e
   | Hang => Hang
   end, out.2).

(** The decoder run on a whole text: its complete lines in order, then the
    end of the body. *)
Definition decode_text `{Runtime} {S : Type} (callbacks : StreamCallbacks S)
    (whole : string) (failure : option exn) : M S bool :=
  let* fl := process_lines callbacks (lines_of whole) in
  match fl with
  | Return => ret true
  | Next =>
      match failure with
      | Some e => throw e
      | None => ret false
      end
  end.

(** Dropping the poll and the stop hook from the callbacks. *)
Definition without_stop {S : Type} (callbacks : StreamCallbacks S) : StreamCallbacks S :=
  {| onTextDelta := onTextDelta callbacks;
     onReasoningDelta := onReasoningDelta callbacks;
     onConversationId := onConversationId callbacks;
     onItems := onItems callbacks;
     onUsage := onUsage callbacks;
     shouldStop := None;
     onStop := None |}.

(** [steady P R m]: from a state where [P] holds, [m] comes back (it returns
    or raises), [P] still holds and the state has moved along [R]. *)
Definition steady {S A : Type} (P : S -> Prop) (R : S -> S -> Prop) (m : M S A) : Prop :=
  forall s, P s -> (m s).1 <> Hang /\ P (m s).2 /\ R s (m s).2.

(** A directory name as [normalize] keeps them. *)
Definition clean (segment : string) : Prop :=
  Js.includes Js.slash segment = false /\
  segment <> "" /\ segment <> "." /\ segment <> "..".


(** The state after [writeFileTool] has written [content] at [resolved]. *)
Definition written `{Host} (ctx : ToolExecutionContext)
    (filePath resolved content : string) (s : Sandbox) : Sandbox :=
  log_spawn ["diff"; "-u"; "--label"; "a/" +:+ filePath; "--label"; "b/" +:+ filePath;
             os_tmpdir +:+ "/openpond-diff-/before";
             os_tmpdir +:+ "/openpond-diff-/after"]
    ((if lsp ctx then log_lsp resolved content else id)
       (set_fs (<[resolved := content]> (fs s)) s)).





(** How a step may move the transcript: not at all; by one item; by
    delivered items with their answers; by a given output item and then
    such items; by the output made for a given call and then such items. *)
Definition same_items (w w' : Worker) : Prop := items w' = items w.





(** The callbacks of [sendToolResult], with the handler of tool calls left
    open. *)
Definition tool_result_callbacks `{Runtime} `{Host} `{Rendering}
    (handle : ResponseItem -> M Worker unit)
  : StreamCallbacks Worker :=
  {| onTextDelta := Some ChatWorker.on_text_delta;
     onReasoningDelta := None;
     onConversationId := None;
     onItems := Some (fun batch =>
       ChatWorker.maybeCaptureAppId batch ;;;
       ChatWorker.for_each (ChatWorker.tool_result_item handle) batch);
     onUsage := None;
     shouldStop := None;
     onStop := None |}.

(** The worker once the user's message is in the transcript, shown and
    recorded. *)
Definition user_turn `{Runtime} (text : string) (w : Worker) : Worker :=
  ChatWorker.set_history
    (history w ++ [{| h_role := "user"; h_type := "message"; h_text := text |}])
    (ChatWorker.set_ui (ui w ++ [Line ("user: " +:+ text)])
       (ChatWorker.set_items (items w ++ [ChatWorker.user_item text]) w)).

(** The worker when the reply to that message starts to be consumed: the
    request is out, [rest] are the replies left, the live buffer is clear. *)
Definition stream_opened `{Runtime} (text : string) (w : Worker)
    (rest : list (exn + Response)) : Worker :=
  let wu := user_turn text w in
  let w0 := ChatWorker.set_remote rest (requests w ++ [ChatWorker.message_body wu]) wu in
  ChatWorker.set_ui (ui w0 ++ [Stream ""]) (ChatWorker.set_streamingText "" w0).

(** A reply whose body breaks off after two text lines and half a third. *)
Definition broken_reply : Response :=
  {| ok := true; status := 200; resp_text := "";
     body := Some {| chunks := [Reference.wire "0:'Hi'$0:' the";
                                Reference.wire "re'$0:' fri"];
                     read_failure := Some (Error "terminated") |} |}.

(** A data line that delivers one tool call, and the item it carries. *)
Definition tool_call_frame : string :=
  Reference.wire
    "2:[{'type':'response_item','item':{'type':'tool_call','callId':'c1','name':'list_files'}}]$".

Definition the_tool_call : ResponseItem :=
  JObj [("type", JStr "tool_call"); ("callId", JStr "c1"); ("name", JStr "list_files")].

(** A data line that delivers two tool calls in one frame. *)
Definition two_tool_calls_frame : string :=
  Reference.wire
    ("2:[{'type':'response_item','item':{'type':'tool_call','callId':'c1','name':'list_files'}},"
     +:+ "{'type':'response_item','item':{'type':'tool_call','callId':'c2','name':'list_files'}}]$").

(* ===================================================================== *)
(** ** More of the code: the item formatter and the run comparison *)
(* ===================================================================== *)

(** [a || b || ... || fallback]: the first truthy candidate. *)
Fixpoint or_else (candidates : list (option json)) (fallback : json) : json :=
  match candidates with
  | [] => fallback
  | Some v :: rest => if Json.truthy v then v else or_else rest fallback
  | None :: rest => or_else rest fallback
  end.

(** [formatStreamItem] of [src/stream.ts]: the line a client prints for an
    item, [None] for [null]. *)
Definition formatStreamItem (item : ResponseItem) : option string :=
  if negb (Json.truthy item) || negb (Json.typeof_object item) then None
  else
    match Json.str_field "type" item with
    | None => None
    | Some type =>
        if bool_decide (type = "app_creation_started") then
          let name :=
            or_else [Json.get "appName" item; Json.get "name" item; Json.get "appId" item]
                    (JStr "app") in
          let suffix :=
            match ChatWorker.nonempty (Json.str_field "templateId" item) with
            | Some templateId => " template=" +:+ templateId
            | None => ""
            end in
          Some ("app_creation_started: " +:+ to_String name +:+ suffix)
        else if bool_decide (type = "app_created") then
          let appId := default "unknown" (Json.str_field "appId" item) in
          match ChatWorker.nonempty (Json.str_field "appName" item) with
          | Some name => Some ("app_created: " +:+ name +:+ " (" +:+ appId +:+ ")")
          | None => Some ("app_created: " +:+ appId)
          end
        else if Js.startsWith "tool_creation_" type then
          let message := or_else [Json.get "message" item; Json.get "content" item] (JStr "") in
          if Json.truthy message then Some (type +:+ ": " +:+ to_String message)
          else Some type
        else None
    end.

(** The run comparison that follows the sandbox in [src/tools.ts]. Of a
    [RunSummary] it reads the results, and of a result its tool calls, by
    name. *)
Module Compare.

Record RunResult := {
  toolCalls : option (list string)     (* [call.name] of each call; [None] when left out *)
}.

Record RunSummary := {
  results : list RunResult
}.

Record CompareResult := {
  cmp_ok : bool;
  differences : list string
}.

Definition summarizeCalls (run : RunSummary) (index : nat) : list string :=
  match results run !! index with
  | None => []
  | Some result => default [] (toolCalls result)
  end.

(** [calls.join("|") || "<none>"] *)
Definition shown_calls (calls : list string) : string :=
  let joined := Js.join "|" calls in
  if Js.is_empty joined then "<none>" else joined.

(** One turn of the loop of [compareRuns], at index [i]. *)
Definition difference_at (a b : RunSummary) (i : nat) : list string :=
  let callsA := summarizeCalls a i in
  let callsB := summarizeCalls b i in
  if bool_decide (Js.join "," callsA = Js.join "," callsB) then []
  else ["prompt " +:+ pretty (i + 1) +:+ ": " +:+ shown_calls callsA
          +:+ " vs " +:+ shown_calls callsB].

Definition compareRuns (a b : RunSummary) : CompareResult :=
  let max := Nat.max (length (results a)) (length (results b)) in
  let differences := concat (List.map (difference_at a b) (seq 0 max)) in
  {| cmp_ok := bool_decide (length differences = 0); differences := differences |}.

End Compare.

(* ===================================================================== *)
(** ** More vocabulary: what a computation never undoes *)
(* ===================================================================== *)

(** [keeps R m]: whatever [m] does (return, raise, or not return), the state
    it leaves is related by [R] to the state it started from. *)
Definition keeps {S A : Type} (R : S -> S -> Prop) (m : M S A) : Prop :=
  forall s, R s (m s).2.

(** Two states of the sandbox that differ in the two caches at most. *)
Definition same_but_caches (s s' : Sandbox) : Prop :=
  fs s' = fs s /\ dirs s' = dirs s /\ readSet s' = readSet s /\
  spawned s' = spawned s /\ lspSynced s' = lspSynced s.

(** The worker's logs only grow: the transcript, what was reported, what was
    recorded, and the requests sent. *)
Definition extends (w w' : Worker) : Prop :=
  items w `prefix_of` items w' /\
  ui w `prefix_of` ui w' /\
  history w `prefix_of` history w' /\
  requests w `prefix_of` requests w'.

(** What a turn leaves alone: the endpoint address, the mode, the login, the
    execution mode, and an app id or a conversation id once it is known. *)
Definition settled (w w' : Worker) : Prop :=
  w_baseUrl w' = w_baseUrl w /\
  chatMode w' = chatMode w /\
  loginState w' = loginState w /\
  cfg_executionMode (config w') = cfg_executionMode (config w) /\
  (forall app, ChatWorker.nonempty (w_appId w) = Some app -> w_appId w' = w_appId w) /\
  (forall cid, ChatWorker.nonempty (conversationId w) = Some cid ->
     conversationId w' = conversationId w).

(** What has been read stays read. *)
Definition remembers (w w' : Worker) : Prop :=
  readSet (sandbox w) ⊆ readSet (sandbox w').

(** All three at once. *)
Definition carried_on (w w' : Worker) : Prop :=
  extends w w' /\ settled w w' /\ remembers w w'.

(** A byte that starts no white-space character. *)
Definition starts_no_white (a : ascii) : Prop :=
  Js.white1 a = false /\ (forall b, Js.white2 a b = false) /\
  (forall b c, Js.white3 a b c = false).

(** The live text after each delta: every delta added to what came before. *)
Fixpoint running (sofar : string) (deltas : list string) : list string :=
  match deltas with
  | [] => []
  | delta :: rest => (sofar +:+ delta) :: running (sofar +:+ delta) rest
  end.

(** A reply whose lines are text lines: [deltas] are the strings they
    carry. *)
Definition text_lines `{Runtime} (lines deltas : list string) : Prop :=
  Forall2 (fun line delta =>
             Js.startsWith "0:" line = true /\
             Js.is_empty (Js.trim (Js.slice 2 line)) = false /\
             JSON_parse (Js.trim (Js.slice 2 line)) = inr (JStr delta))
          lines deltas.

(* ===================================================================== *)
(** ** More hosts and replies, to run the model *)
(* ===================================================================== *)

Module Scenario.

(** A host like the reference one, whose manifest lists [read_file] only. *)
Definition reading_host : Host :=
  {| fetchToolManifest := fun _ _ => inr ["read_file"];
     git_apply := fun _ _ files directories => (0%Z, "", files, directories);
     diff_u := fun _ _ _ => "";
     os_tmpdir := "/tmp";
     rg := fun _ _ _ _ => (Some 0%Z, "", "");
     glob_scan := fun _ _ _ => inr [];
     git_status := fun _ _ => (0%Z, "", "");
     commitFiles := fun _ _ _ _ _ => inr "commit";
     deployApp := fun _ _ _ => inr "deployment";
     process_cwd := "/home/user/project" |}.

(** A host like the reference one, whose [git status] follows the file
    [a.txt] of the root: modified while it is there, deleted when it is
    not. *)
Definition tracking_host : Host :=
  {| fetchToolManifest := fun _ _ => inr Reference.tool_names;
     git_apply := fun _ _ files directories => (0%Z, "", files, directories);
     diff_u := fun _ _ _ => "";
     os_tmpdir := "/tmp";
     rg := fun _ _ _ _ => (Some 0%Z, "", "");
     glob_scan := fun _ _ _ => inr [];
     git_status := fun root files =>
       match files !! (root +:+ "/a.txt") with
       | Some _ => (0%Z, Reference.wire " M a.txt$", "")
       | None => (0%Z, Reference.wire " D a.txt$", "")
       end;
     commitFiles := fun _ _ _ _ _ => inr "commit";
     deployApp := fun _ _ _ => inr "deployment";
     process_cwd := "/home/user/project" |}.

(** A patch that deletes [a.txt]: its new-file line names no [b/] path. *)
Definition patch_deleting_a : string :=
  Reference.wire "--- a/a.txt$+++ /dev/null$@@ -1 +0,0 @@$-old$".

(** A host like the reference one, whose [git apply] carries that patch
    out: the file [a.txt] of the root is gone afterwards. *)
Definition deleting_host : Host :=
  {| fetchToolManifest := fun _ _ => inr Reference.tool_names;
     git_apply := fun root patchText files directories =>
       if bool_decide (patchText = patch_deleting_a)
       then (0%Z, "", delete (root +:+ "/a.txt") files, directories)
       else (0%Z, "", files, directories);
     diff_u := fun _ _ _ => "";
     os_tmpdir := "/tmp";
     rg := fun _ _ _ _ => (Some 0%Z, "", "");
     glob_scan := fun _ _ _ => inr [];
     git_status := fun _ _ => (0%Z, "", "");
     commitFiles := fun _ _ _ _ _ => inr "commit";
     deployApp := fun _ _ _ => inr "deployment";
     process_cwd := "/home/user/project" |}.



(** A reply of two text lines. *)
Definition greeting : Response :=
  Reference.streamed [Reference.wire "0:'Hi'$0:' th"; Reference.wire "ere'$"].

End Scenario.

(* ===================================================================== *)
(** ** The commands of the session driver ([ChatWorker.handleInput]) *)
(* ===================================================================== *)

Module JsMore.

(** A gap opens: the piece before ends, unless a gap is open already. *)
Definition gap (in_gap : bool) (pieces : list string) : list string :=
  if in_gap then pieces else EmptyString :: pieces.

(** One more byte at the front of the first piece. *)
Definition front (a : ascii) (pieces : list string) : list string :=
  match pieces with
  | [] => [String a EmptyString]
  | piece :: rest => String a piece :: rest
  end.

(** [s.split(/\s+/)]: the pieces between runs of white space; [in_gap] says
    that the character before was white space. *)
Fixpoint split_spaces (in_gap : bool) (s : string) : list string :=
  match s with
  | EmptyString => [EmptyString]
  | String a s1 =>
      if Js.white1 a then gap in_gap (split_spaces true s1)
      else
        match s1 with
        | EmptyString => front a (split_spaces false s1)
        | String b s2 =>
            if Js.white2 a b then gap in_gap (split_spaces true s2)
            else
              match s2 with
              | EmptyString => front a (split_spaces false s1)
              | String c s3 =>
                  if Js.white3 a b c then gap in_gap (split_spaces true s3)
                  else front a (split_spaces false s1)
              end
        end
  end.

End JsMore.

Record DeviceStartResponse := {
  ds_deviceCode : string;
  ds_userCode : string;
  ds_verificationUrl : string
}.

(** What the commands reach outside the worker: the login endpoints (the
    poll gives the access token once the login is approved), the project
    endpoint (it gives the new app id), and [opentool init]. [opentool_cli]
    is the script [path.join(OPENTOOL_PATH, "dist", "cli", "index.js")] when
    the environment sets [OPENTOOL_PATH]. The process is given its
    arguments, its working directory and the disk; it leaves a disk and an
    exit status ([None] when it has none). *)
Class Services := {
  startDeviceLogin : string -> exn + DeviceStartResponse;
  pollDeviceLogin : string -> string -> exn + option string;
  createLocalProject : string -> string -> string -> exn + string;
  opentool_cli : option string;
  opentool_init : list string -> string -> gmap string string -> gset string ->
                  option Z * gmap string string * gset string
}.

(** A member of the [overrides] of [persistConfig]: left out, or given with
    a value ([None] for [null] and [undefined]). *)
Inductive member (A : Type) : Type :=
  | left_out
  | given (value : option A).
Arguments left_out {A}.
Arguments given {A} value.

Record Overrides := {
  o_appId : member string;
  o_conversationId : member string;
  o_mode : member ChatMode;
  o_token : member string;
  o_deviceCode : member string
}.

Definition no_overrides : Overrides :=
  {| o_appId := left_out; o_conversationId := left_out; o_mode := left_out;
     o_token := left_out; o_deviceCode := left_out |}.

(** The members of [this.config] that only the commands write. *)
Record ConfigRest := {
  cfg_mode : option ChatMode;
  cfg_token : option string;
  cfg_deviceCode : option string
}.

(** A worker with what the commands add to its state: the members of the
    configuration the turn logic does not read, whether a login poll has
    been scheduled, and the configuration file as the commands use it:
    [saves] are the outcomes of the writes they will wait for (a failed
    write is [Some]; a write succeeds when none is listed), [saved] the
    configurations they have written so far, each with [true] when
    [saveGlobalConfig] wrote it. The file lies under the home directory; it
    is kept apart from the disk of the sandbox. *)
Record Session := {
  worker : Worker;
  config_rest : ConfigRest;
  pollingTimer : bool;
  saves : list (option exn);
  saved : list (bool * LocalConfig * ConfigRest)
}.

Module Commands.

Definition set_worker (w : Worker) (s : Session) : Session :=
  {| worker := w; config_rest := config_rest s; pollingTimer := pollingTimer s;
     saves := saves s; saved := saved s |}.

Definition set_config_rest (c : ConfigRest) (s : Session) : Session :=
  {| worker := worker s; config_rest := c; pollingTimer := pollingTimer s;
     saves := saves s; saved := saved s |}.

Definition set_pollingTimer (t : bool) (s : Session) : Session :=
  {| worker := worker s; config_rest := config_rest s; pollingTimer := t;
     saves := saves s; saved := saved s |}.

Definition set_saves (pending : list (option exn))
    (done : list (bool * LocalConfig * ConfigRest)) (s : Session) : Session :=
  {| worker := worker s; config_rest := config_rest s; pollingTimer := pollingTimer s;
     saves := pending; saved := done |}.

Definition set_chatMode (x : ChatMode) (w : Worker) : Worker :=
  {| w_baseUrl := w_baseUrl w; items := items w; conversationId := conversationId w;
     w_appId := w_appId w; chatMode := x; loginState := loginState w;
     streamingText := streamingText w; config := config w; sandbox := sandbox w;
     ui := ui w; history := history w; remote := remote w; requests := requests w |}.

Definition set_loginState (x : LoginState) (w : Worker) : Worker :=
  {| w_baseUrl := w_baseUrl w; items := items w; conversationId := conversationId w;
     w_appId := w_appId w; chatMode := chatMode w; loginState := x;
     streamingText := streamingText w; config := config w; sandbox := sandbox w;
     ui := ui w; history := history w; remote := remote w; requests := requests w |}.

(** A method of the worker, run in the session. *)
Definition on_worker {A} (m : M Worker A) : M Session A := zoom worker set_worker m.

Definition appendLine (text : string) : M Session unit :=
  on_worker (ChatWorker.appendLine text).

Definition emitState : M Session unit := on_worker ChatWorker.emitState.

(** [{ ...value, ...overrides }], member by member. *)
Definition merged {A} (old : option A) (new : member A) : option A :=
  match new with left_out => old | given value => value end.

(** [overrides.member] is truthy *)
Definition truthy_member (m : member string) : bool :=
  match m with
  | given (Some s) => negb (Js.is_empty s)
  | _ => false
  end.

(** One write of the configuration file. *)
Definition write_config (global : bool) : M Session unit :=
  fun s =>
    let entry := (global, config (worker s), config_rest s) in
    match saves s with
    | [] => (Ok tt, set_saves [] (saved s ++ [entry]) s)
    | None :: pending => (Ok tt, set_saves pending (saved s ++ [entry]) s)
    | Some e :: pending => (Throw e, set_saves pending (saved s) s)
    end.

Definition persistConfig (overrides : Overrides) : M Session unit :=
  modify (fun s =>
    let w := worker s in
    set_config_rest
      {| cfg_mode := merged (cfg_mode (config_rest s)) (o_mode overrides);
         cfg_token := merged (cfg_token (config_rest s)) (o_token overrides);
         cfg_deviceCode := merged (cfg_deviceCode (config_rest s)) (o_deviceCode overrides) |}
      (set_worker
         (ChatWorker.set_config
            {| cfg_executionMode := cfg_executionMode (config w);
               cfg_conversationId :=
                 merged (cfg_conversationId (config w)) (o_conversationId overrides);
               cfg_appId := merged (cfg_appId (config w)) (o_appId overrides) |} w) s)) ;;;
  write_config false ;;;
  if truthy_member (o_token overrides) || truthy_member (o_deviceCode overrides)
  then write_config true
  else ret tt.

(** [this.appId = app; this.conversationId = null; this.items = [];] *)
Definition start_over (app : option string) : M Session unit :=
  on_worker (modify (fun w =>
    ChatWorker.set_items [] (ChatWorker.set_conversationId None (ChatWorker.set_appId app w)))).

Definition scheduleLoginPoll : M Session unit := modify (set_pollingTimer true).

Section WithServices.
Context `{Runtime} `{Host} `{Rendering} `{Services}.

Definition set_login (x : LoginState) : M Session unit :=
  on_worker (modify (set_loginState x)).

Definition startLogin : M Session unit :=
  set_login (login_pending "" "" "") ;;;
  emitState ;;;
  persistConfig {| o_appId := left_out; o_conversationId := left_out; o_mode := left_out;
                   o_token := given None; o_deviceCode := given None |} ;;;
  let* s := get_state in
  try_catch
    (let* response := (match startDeviceLogin (w_baseUrl (worker s)) with
                       | inl e => throw e
                       | inr response => ret response
                       end) in
     set_login (login_pending (ds_userCode response) (ds_verificationUrl response)
                              (ds_deviceCode response)) ;;;
     persistConfig {| o_appId := left_out; o_conversationId := left_out; o_mode := left_out;
                      o_token := left_out;
                      o_deviceCode := given (Some (ds_deviceCode response)) |} ;;;
     appendLine ("login: code " +:+ ds_userCode response) ;;;
     appendLine ("login: url " +:+ ds_verificationUrl response) ;;;
     emitState ;;;
     scheduleLoginPoll)
    (fun e =>
       let message := message_or "Login failed" e in
       set_login (login_error message) ;;;
       appendLine ("login error: " +:+ message) ;;;
       emitState).

Definition pollLogin (manual : bool) : M Session unit :=
  let* s := get_state in
  match loginState (worker s) with
  | login_pending _ _ deviceCode =>
      if Js.is_empty deviceCode then ret tt
      else
        try_catch
          (let* result := (match pollDeviceLogin (w_baseUrl (worker s)) deviceCode with
                           | inl e => throw e
                           | inr result => ret result
                           end) in
           match ChatWorker.nonempty result with
           | Some accessToken =>
               set_login (login_ready accessToken) ;;;
               persistConfig {| o_appId := left_out; o_conversationId := left_out;
                                o_mode := left_out;
                                o_token := given (Some accessToken);
                                o_deviceCode := given None |} ;;;
               appendLine "login: approved" ;;;
               emitState
           | None =>
               (if manual then appendLine "login: still pending" else ret tt) ;;;
               emitState ;;;
               scheduleLoginPoll
           end)
          (fun e =>
             if manual
             then appendLine ("login error: " +:+ message_or "Login check failed" e)
             else ret tt)
  | _ => ret tt
  end.

(** The command line of [runOpentoolInit]. *)
Definition opentool_argv (name : option string) : list string :=
  match opentool_cli with
  | Some script => ["node"; script]
  | None => ["npx"; "opentool"]
  end ++ ["init"] ++
  match name with
  | Some projectName => ["--name"; projectName]
  | None => []
  end.

(** [spawnSync] of [opentool init] in [process.cwd()], the directory the
    tools take as their root: the process runs on the disk of the
    sandbox. *)
Definition runOpentoolInit (name : option string) : M Session unit :=
  on_worker (zoom sandbox ChatWorker.set_sandbox
    (modify (log_spawn (opentool_argv name)) ;;;
     let* s := get_state in
     let '(status, fs', dirs') :=
       opentool_init (opentool_argv name) process_cwd (fs s) (dirs s) in
     modify (set_disk fs' dirs') ;;;
     if bool_decide (status = Some 0%Z) then ret tt
     else throw (Error "opentool init failed"))).

(** [rest.slice(n).join(" ").trim()] *)
Definition joined_from (n : nat) (rest : list string) : string :=
  Js.trim (Js.join " " (drop n rest)).

(** The branch of [handleCommand] that [/app create] and [/link create]
    share, up to the word it reports. *)
Definition create_project (token name done : string) : M Session unit :=
  let* s := get_state in
  let* appId := (match createLocalProject (w_baseUrl (worker s)) token name with
                 | inl e => throw e
                 | inr appId => ret appId
                 end) in
  start_over (Some appId) ;;;
  appendLine (done +:+ appId) ;;;
  persistConfig {| o_appId := given (Some appId); o_conversationId := given None;
                   o_mode := left_out; o_token := left_out; o_deviceCode := left_out |} ;;;
  emitState.

(** The branch that [/app set] and [/link <appId>] share. *)
Definition use_app (nextId done : string) : M Session unit :=
  start_over (Some nextId) ;;;
  appendLine (done +:+ nextId) ;;;
  persistConfig {| o_appId := given (Some nextId); o_conversationId := given None;
                   o_mode := left_out; o_token := left_out; o_deviceCode := left_out |} ;;;
  emitState.

Definition help_lines : list string :=
  ["Commands:"; "/app set <appId>"; "/app clear"; "/app create <name>";
   "/update <appId> <request>"; "/mode builder | /mode chat"; "/init [name]";
   "/link <appId>"; "/link create <name>"; "/login"; "/login check"; "/help"].

Fixpoint appendLines (lines : list string) : M Session unit :=
  match lines with
  | [] => ret tt
  | line :: rest => appendLine line ;;; appendLines rest
  end.

(** The [if (command === "app")] block: [None] when none of its branches is
    taken and the function goes on to the next block. *)
Definition app_command (rest : list string) : option (M Session unit) :=
  let sub := rest !! 0 in
  if bool_decide (sub = Some "clear") then
    Some (start_over None ;;;
          appendLine "app cleared" ;;;
          persistConfig {| o_appId := given None; o_conversationId := given None;
                           o_mode := left_out; o_token := left_out;
                           o_deviceCode := left_out |} ;;;
          emitState)
  else if bool_decide (sub = Some "set") then
    Some (match ChatWorker.nonempty (rest !! 1) with
          | None => appendLine "usage: /app set <appId>"
          | Some nextId => use_app nextId "app set: "
          end)
  else if bool_decide (sub = Some "create") then
    Some (let name := joined_from 1 rest in
          if Js.is_empty name then appendLine "usage: /app create <name>"
          else
            let* s := get_state in
            match ChatWorker.token_of (worker s) with
            | None => appendLine "login required to create app"
            | Some token => create_project token name "app created: "
            end)
  else None.

Definition mode_command (rest : list string) : M Session unit :=
  let next := rest !! 0 in
  if negb (bool_decide (next = Some "builder")) && negb (bool_decide (next = Some "chat"))
  then appendLine "usage: /mode builder | /mode chat"
  else
    let nextMode := if bool_decide (next = Some "chat") then general else builder in
    let* s := get_state in
    if bool_decide (chatMode (worker s) = nextMode)
    then appendLine ("mode already " +:+ default "" next)
    else
      on_worker (modify (fun w =>
        ChatWorker.set_items []
          (ChatWorker.set_conversationId None (set_chatMode nextMode w)))) ;;;
      persistConfig {| o_appId := left_out; o_conversationId := given None;
                       o_mode := given (Some nextMode); o_token := left_out;
                       o_deviceCode := left_out |} ;;;
      appendLine ("mode set: " +:+ default "" next) ;;;
      emitState.

Definition login_command (rest : list string) : M Session unit :=
  if bool_decide (rest !! 0 = Some "check") then pollLogin true else startLogin.

Definition init_command (rest : list string) : M Session unit :=
  let name := joined_from 0 rest in
  try_catch
    (runOpentoolInit (if Js.is_empty name then None else Some name) ;;;
     appendLine "init complete")
    (fun e => appendLine ("init error: " +:+ message_or "init failed" e)).

Definition update_command (depth : nat) (rest : list string) : M Session unit :=
  let* s := get_state in
  if negb (bool_decide (chatMode (worker s) = general))
  then appendLine "update is only available in chat mode. Use /mode chat."
  else
    match ChatWorker.nonempty (rest !! 0) with
    | None => appendLine "usage: /update <appId> <request>"
    | Some appId =>
        let request := joined_from 1 rest in
        let outbound :=
          if Js.is_empty request then "/update " +:+ appId
          else "/update " +:+ appId +:+ " " +:+ request in
        on_worker (ChatWorker.sendMessage depth outbound)
    end.

Definition link_command (rest : list string) : M Session unit :=
  let* s := get_state in
  match ChatWorker.token_of (worker s) with
  | None => appendLine "login required to link app"
  | Some token =>
      if bool_decide (rest !! 0 = Some "create") then
        let name := joined_from 1 rest in
        if Js.is_empty name then appendLine "usage: /link create <name>"
        else create_project token name "app linked: "
      else
        match ChatWorker.nonempty (rest !! 0) with
        | None => appendLine "usage: /link <appId> or /link create <name>"
        | Some nextId => use_app nextId "app linked: "
        end
  end.

(** [text.slice(1).trim().split(/\s+/)] *)
Definition command_words (text : string) : list string :=
  JsMore.split_spaces false (Js.trim (Js.slice 1 text)).

Definition handleCommand (depth : nat) (text : string) : M Session unit :=
  match command_words text with
  | [] => ret tt
  | command :: rest =>
      if Js.is_empty command then ret tt
      else
        match (if bool_decide (command = "app") then app_command rest else None) with
        | Some run => run
        | None =>
            if bool_decide (command = "mode") then mode_command rest
            else if bool_decide (command = "login") then login_command rest
            else if bool_decide (command = "init") then init_command rest
            else if bool_decide (command = "update") then update_command depth rest
            else if bool_decide (command = "link") then link_command rest
            else if bool_decide (command = "help") then appendLines help_lines
            else appendLine ("Unknown command: " +:+ command)
        end
  end.

Definition handleInput (depth : nat) (text : string) : M Session unit :=
  let trimmed := Js.trim text in
  if Js.is_empty trimmed then ret tt
  else if Js.startsWith "/" trimmed then handleCommand depth trimmed
  else on_worker (ChatWorker.sendMessage depth trimmed).

End WithServices.
End Commands.

(** The first word of a command line. *)
Definition command_of (text : string) : string :=
  hd "" (Commands.command_words (Js.trim text)).

(** The app, the mode, the conversation id and the transcript are as they
    were. *)
Definition same_conversation (s s' : Session) : Prop :=
  w_appId (worker s') = w_appId (worker s) /\
  chatMode (worker s') = chatMode (worker s) /\
  conversationId (worker s') = conversationId (worker s) /\
  items (worker s') = items (worker s).

(** Either the app, the mode, the conversation id and the transcript are
    all as they were, or there is no conversation id and the transcript is
    empty. *)
Definition same_or_fresh (s s' : Session) : Prop :=
  same_conversation s s' \/
  (conversationId (worker s') = None /\ items (worker s') = []).

(** Nothing was sent, recorded or run by a tool: the requests, the replies
    still to come, the history, the read set, the manifest caches, the
    language-server log, the live text and the endpoint address are as they
    were, and what was reported is still there. *)
Definition off_line (s s' : Session) : Prop :=
  requests (worker s') = requests (worker s) /\
  remote (worker s') = remote (worker s) /\
  history (worker s') = history (worker s) /\
  readSet (sandbox (worker s')) = readSet (sandbox (worker s)) /\
  manifestCache (sandbox (worker s')) = manifestCache (sandbox (worker s)) /\
  allowedToolsCache (sandbox (worker s')) = allowedToolsCache (sandbox (worker s)) /\
  lspSynced (sandbox (worker s')) = lspSynced (sandbox (worker s)) /\
  streamingText (worker s') = streamingText (worker s) /\
  w_baseUrl (worker s') = w_baseUrl (worker s) /\
  ui (worker s) `prefix_of` ui (worker s').

(** No process has been started: the subprocess log is as it was. *)
Definition no_process (s s' : Session) : Prop :=
  spawned (sandbox (worker s')) = spawned (sandbox (worker s)).

(** The login is as it was: its state, the poll timer, and the token and
    device code of the configuration. *)
Definition same_login (s s' : Session) : Prop :=
  loginState (worker s') = loginState (worker s) /\
  pollingTimer s' = pollingTimer s /\
  cfg_token (config_rest s') = cfg_token (config_rest s) /\
  cfg_deviceCode (config_rest s') = cfg_deviceCode (config_rest s).

(** No token: neither the worker nor the configuration in memory holds
    one. *)
Definition logged_out (s : Session) : Prop :=
  ChatWorker.token_of (worker s) = None /\ cfg_token (config_rest s) = None.

(** Services and a session to run the commands: the login endpoints answer,
    the login is not approved yet, a project gets the id [app-<name>], and
    [opentool init] ends well. *)
Module Console.

Definition services : Services :=
  {| startDeviceLogin := fun _ =>
       inr {| ds_deviceCode := "device"; ds_userCode := "ABCD";
              ds_verificationUrl := "https://api.example/verify" |};
     pollDeviceLogin := fun _ _ => inr None;
     createLocalProject := fun _ _ name => inr ("app-" +:+ name);
     opentool_cli := None;
     opentool_init := fun _ _ files directories => (Some 0%Z, files, directories) |}.

(** A session around a worker that was started with the token [t]. *)
Definition session (w : Worker) : Session :=
  {| worker := w;
     config_rest := {| cfg_mode := Some builder; cfg_token := Some "t";
                       cfg_deviceCode := None |};
     pollingTimer := false;
     saves := [];
     saved := [] |}.

(** The same services with an [opentool init] that writes the file
    [opentool.json] in its working directory. *)
Definition scaffolding : Services :=
  {| startDeviceLogin := startDeviceLogin (Services := services);
     pollDeviceLogin := pollDeviceLogin (Services := services);
     createLocalProject := createLocalProject (Services := services);
     opentool_cli := None;
     opentool_init := fun _ cwd files directories =>
       (Some 0%Z, <[cwd +:+ "/opentool.json" := "{}"]> files, directories) |}.

(** The no-break space U+00A0, in UTF-8. *)
Definition nbsp : string := String "194" (String "160" EmptyString).

(** The same services once the login has been approved: the endpoint gives
    the token [fresh] for the device code [device]. *)
Definition approving : Services :=
  {| startDeviceLogin := startDeviceLogin (Services := services);
     pollDeviceLogin := fun _ deviceCode =>
       inr (if bool_decide (deviceCode = "device") then Some "fresh" else None);
     createLocalProject := createLocalProject (Services := services);
     opentool_cli := None;
     opentool_init := opentool_init (Services := services) |}.

(** A session whose login is pending, with the device code [device]. *)
Definition waiting (w : Worker) : Session :=
  {| worker := Commands.set_loginState
                 (login_pending "ABCD" "https://api.example/verify" "device") w;
     config_rest := {| cfg_mode := Some builder; cfg_token := None;
                       cfg_deviceCode := Some "device" |};
     pollingTimer := true;
     saves := [];
     saved := [] |}.

End Console.

(* ===================================================================== *)
(** * Properties *)
(* ===================================================================== *)

(** ** Lines and chunks *)

Section Lines.

Lemma split_nonempty sep s : Js.split sep s <> [].
Proof.
  destruct s as [|c s]; simpl; [discriminate|].
  destruct (Ascii.eqb c sep); [discriminate|].
  destruct (Js.split sep s); discriminate.
Qed.

Lemma pop_cons {A} (x : A) (xs : list A) :
  xs <> [] -> Js.pop (x :: xs) = (x :: (Js.pop xs).1, (Js.pop xs).2).
Proof.
  destruct xs as [|y ys]; [congruence|]. intros _.
  change (Js.pop (x :: y :: ys)) with
    (let '(front, last) := Js.pop (y :: ys) in (x :: front, last)).
  destruct (Js.pop (y :: ys)); reflexivity.
Qed.

Lemma pop_app {A} (xs ys : list A) :
  ys <> [] -> Js.pop (xs ++ ys) = (xs ++ (Js.pop ys).1, (Js.pop ys).2).
Proof.
  intros Hys. induction xs as [|x xs IH].
  - simpl. destruct (Js.pop ys); reflexivity.
  - rewrite <- !app_comm_cons. rewrite pop_cons, IH; [reflexivity|].
    destruct xs; simpl; [assumption | discriminate].
Qed.

Lemma split_head_cons c s :
  Ascii.eqb c Js.newline = false ->
  Js.split Js.newline (String c s) =
  match Js.split Js.newline s with
  | [] => [String c EmptyString]
  | piece :: pieces => String c piece :: pieces
  end.
Proof. intros Hc. simpl. rewrite Hc. reflexivity. Qed.

(** Splitting a concatenation: the complete lines of the first text, then
    the pieces of its unfinished line followed by the second text. *)
Lemma split_append s t :
  Js.split Js.newline (s +:+ t) = lines_of s ++ Js.split Js.newline (rest_of s +:+ t).
Proof.
  unfold lines_of, rest_of. induction s as [|c s IH].
  - reflexivity.
  - change (String c s +:+ t) with (String c (s +:+ t)).
    destruct (Ascii.eqb c Js.newline) eqn:Hc.
    + simpl. rewrite Hc.
      change (Js.pop (EmptyString :: Js.split Js.newline s)) with
        (Js.pop ([EmptyString] ++ Js.split Js.newline s)).
      rewrite pop_app by apply split_nonempty. simpl. rewrite IH. reflexivity.
    + rewrite !split_head_cons by assumption. rewrite IH.
      pose proof (split_nonempty Js.newline s) as Hne.
      destruct (Js.split Js.newline s) as [|p ps] eqn:Hs; [congruence|].
      destruct ps as [|p' ps'].
      * cbn [Js.pop fst snd default from_option id app].
        change (String c p +:+ t) with (String c (p +:+ t)).
        rewrite split_head_cons by assumption. reflexivity.
      * rewrite (pop_cons p) by discriminate.
        rewrite (pop_cons (String c p)) by discriminate. reflexivity.
Qed.

Lemma lines_of_append s t : lines_of (s +:+ t) = lines_of s ++ lines_of (rest_of s +:+ t).
Proof.
  unfold lines_of at 1. rewrite split_append, pop_app by apply split_nonempty.
  reflexivity.
Qed.

Lemma rest_of_append s t : rest_of (s +:+ t) = rest_of (rest_of s +:+ t).
Proof.
  unfold rest_of at 1. rewrite split_append, pop_app by apply split_nonempty.
  reflexivity.
Qed.

Lemma string_app_cons c (s t : string) : String c s +:+ t = String c (s +:+ t).
Proof. reflexivity. Qed.

Lemma string_app_nil_r (s : string) : s +:+ EmptyString = s.
Proof.
  induction s as [|c s IH]; [reflexivity|].
  rewrite string_app_cons, IH. reflexivity.
Qed.

Lemma string_app_assoc (a b c : string) : (a +:+ b) +:+ c = a +:+ (b +:+ c).
Proof.
  induction a as [|x a IH]; [reflexivity|].
  rewrite !string_app_cons, IH. reflexivity.
Qed.

(** What is kept back never holds a complete line. *)
Lemma lines_of_rest s : lines_of (rest_of s) = [].
Proof.
  pose proof (lines_of_append s EmptyString) as H.
  rewrite !string_app_nil_r in H.
  destruct (lines_of (rest_of s)); [reflexivity|].
  apply (f_equal (@length string)) in H. rewrite length_app in H. simpl in H. lia.
Qed.

End Lines.

(** ** The decoder in terms of the whole text *)

Section DecoderFacts.
Context `{Runtime} {S : Type} (callbacks : StreamCallbacks S).

Lemma process_lines_app l1 l2 s :
  process_lines callbacks (l1 ++ l2) s =
  match process_lines callbacks l1 s with
  | (Ok Next, s') => process_lines callbacks l2 s'
  | other => other
  end.
Proof.
  revert s. induction l1 as [|l l1 IH]; intros s; [reflexivity|].
  simpl. unfold bind.
  destruct (process_line callbacks l s) as [[[]| |] s']; try reflexivity.
  apply IH.
Qed.

Lemma read_loop_decode pending failure remainder s :
  lines_of remainder = [] ->
  observe (read_loop callbacks pending failure remainder s) =
  decode_text callbacks (remainder +:+ text_of pending) failure s.
Proof.
  revert remainder s. induction pending as [|chunk rest IH]; intros remainder s Hrem.
  - simpl. rewrite string_app_nil_r. unfold decode_text. rewrite Hrem. simpl.
    unfold bind, ret. simpl. destruct failure; reflexivity.
  - simpl text_of. rewrite <- string_app_assoc.
    unfold decode_text. rewrite lines_of_append.
    unfold bind at 1. rewrite process_lines_app.
    simpl read_loop.
    change (Js.pop (Js.split Js.newline (remainder +:+ chunk))) with
      (Js.pop (Js.split Js.newline (remainder +:+ chunk))).
    pose proof (eq_refl (Js.pop (Js.split Js.newline (remainder +:+ chunk)))) as Hp.
    unfold lines_of at 1.
    destruct (Js.pop (Js.split Js.newline (remainder +:+ chunk))) as [lines last] eqn:Hpop.
    simpl fst. unfold bind at 1.
    destruct (process_lines callbacks lines s) as [[[]| |] s'] eqn:Hrun; try reflexivity.
    rewrite IH.
    + unfold decode_text, bind. unfold rest_of. rewrite Hpop. reflexivity.
    + replace (default EmptyString last) with (rest_of (remainder +:+ chunk))
        by (unfold rest_of; rewrite Hpop; reflexivity).
      apply lines_of_rest.
Qed.

Lemma consumeStream_decode parts failure response s :
  body response = Some {| chunks := parts; read_failure := failure |} ->
  observe (consumeStream callbacks response s) = decode_text callbacks (text_of parts) failure s.
Proof.
  intros Hb. unfold consumeStream. rewrite Hb. simpl.
  apply (read_loop_decode parts failure EmptyString s). reflexivity.
Qed.

End DecoderFacts.

(** ** Claims about the frame decoder *)

(** C4. Chunking invariance: two bodies with the same text (and the same
    end) drive any callbacks through the same calls, to the same state and
    the same outcome, however the text is cut into chunks; and that run is
    the one over the complete lines of the whole text, so that what follows
    the last line feed is held back and a line is handled exactly when its
    line feed has arrived. *)
Theorem chunking_invariance `{Runtime} {S : Type} (callbacks : StreamCallbacks S)
    (r1 r2 : Response) (parts1 parts2 : list string) (failure : option exn) (s : S) :
  body r1 = Some {| chunks := parts1; read_failure := failure |} ->
  body r2 = Some {| chunks := parts2; read_failure := failure |} ->
  text_of parts1 = text_of parts2 ->
  observe (consumeStream callbacks r1 s) = observe (consumeStream callbacks r2 s) /\
  observe (consumeStream callbacks r1 s) =
    decode_text callbacks (text_of parts1) failure s.
Proof.
  intros H1 H2 Htext.
  rewrite (consumeStream_decode callbacks parts1 failure r1 s H1).
  rewrite (consumeStream_decode callbacks parts2 failure r2 s H2).
  rewrite Htext. split; reflexivity.
Qed.

(** The same, for the listener that logs every call: one chunk or many, the
    logged events are the same. *)
Corollary events_of_one_chunk `{Runtime} (stop : bool) (parts : list string) :
  (consumeStream (Reference.listener stop) (Reference.streamed parts) []).2 =
  (consumeStream (Reference.listener stop) (Reference.streamed [text_of parts]) []).2.
Proof.
  pose proof (consumeStream_decode (Reference.listener stop) parts None
                (Reference.streamed parts) [] eq_refl) as Hmany.
  pose proof (consumeStream_decode (Reference.listener stop) [text_of parts] None
                (Reference.streamed [text_of parts]) [] eq_refl) as Hone.
  simpl text_of in Hone. rewrite string_app_nil_r in Hone.
  apply (f_equal snd) in Hmany, Hone. simpl in Hmany, Hone. congruence.
Qed.

Section ErrorFrames.
Context `{Runtime} {S : Type} (callbacks : StreamCallbacks S).

(** A [3:] line changes nothing and raises nothing, whatever its payload:
    the [throw] for a string payload is inside the [try] whose [catch]
    swallows. *)
Lemma error_line_silent line (s : S) : error_line line s = (Ok Next, s).
Proof.
  unfold error_line. destruct (Js.is_empty _); [reflexivity|].
  unfold bind, try_catch, parse.
  destruct (JSON_parse _) as [msg|[]]; reflexivity.
Qed.

(** A [0:] or [g:] line with a payload [JSON.parse] rejects raises. *)
Lemma delta_line_raises cb line message (s : S) :
  Js.is_empty (Js.trim (Js.slice 2 line)) = false ->
  JSON_parse (Js.trim (Js.slice 2 line)) = inl message ->
  delta_line cb line s = (Throw (Error message), s).
Proof.
  intros Hne Hparse. unfold delta_line. rewrite Hne.
  unfold bind, parse. rewrite Hparse. reflexivity.
Qed.

(** On a line tagged [0:], [g:], [d:] or [3:] (and on an empty line) the
    poll is not consulted: the line is handled as if there were none. *)
Lemma tagged_line_skips_poll line :
  Js.is_empty line || Js.startsWith "0:" line || Js.startsWith "g:" line ||
  Js.startsWith "d:" line || Js.startsWith "3:" line = true ->
  process_line callbacks line = process_line (without_stop callbacks) line.
Proof.
  intros Htag. unfold process_line.
  destruct (Js.is_empty line); [reflexivity|].
  destruct (Js.startsWith "0:" line); [reflexivity|].
  destruct (Js.startsWith "g:" line); [reflexivity|].
  destruct (Js.startsWith "d:" line); [reflexivity|].
  destruct (Js.startsWith "3:" line); [reflexivity|].
  discriminate.
Qed.

End ErrorFrames.

(** *** Runs of the decoder *)

Section DecoderRuns.
#[local] Existing Instance Reference.runtime.

Lemma chunking_invariance_witness :
  observe (consumeStream (Reference.listener false)
             (Reference.streamed [Reference.wire "0:'Hi'$0:' th"; Reference.wire "ere'$g:'hm"])
             []) =
  observe (consumeStream (Reference.listener false)
             (Reference.streamed [Reference.wire "0:'Hi'$0:' there'$g:'hm"]) []).
Proof.
  apply (chunking_invariance (Reference.listener false)
           (Reference.streamed [Reference.wire "0:'Hi'$0:' th"; Reference.wire "ere'$g:'hm"])
           (Reference.streamed [Reference.wire "0:'Hi'$0:' there'$g:'hm"])
           [Reference.wire "0:'Hi'$0:' th"; Reference.wire "ere'$g:'hm"]
           [Reference.wire "0:'Hi'$0:' there'$g:'hm"] None []);
    reflexivity.
Defined.

Example partial_line_held_back :
  consumeStream (Reference.listener false)
    (Reference.streamed [Reference.wire "0:'Hi'$0:' th"]) [] =
  (Ok Drained, [Reference.TextDelta "Hi"]).
Proof. reflexivity. Qed.

(** C3, at the failing inputs. A body whose only line is the error frame
    [3:"boom"] is consumed to its end without raising (the claim: the
    stream is aborted with the message [boom]); and a body with a malformed
    [0:] payload raises (the claim: no malformed payload does). *)
Theorem error_frame_does_not_raise :
  consumeStream (Reference.listener false)
    (Reference.streamed [Reference.wire "0:'a'$3:'boom'$0:'b'$"]) [] =
  (Ok Drained, [Reference.TextDelta "a"; Reference.TextDelta "b"]) /\
  consumeStream (Reference.listener false)
    (Reference.streamed [Reference.wire "0:'a'$0:{bad$0:'b'$"]) [] =
  (Throw (Error "JSON Parse error: Unable to parse JSON string"),
   [Reference.TextDelta "a"]).
Proof. split; reflexivity. Qed.

(** C8, at the failing input. With a poll that answers [true] from the
    start, a body of two [0:] lines is consumed to its end: both text deltas
    are delivered, the poll is never consulted, the reader is not cancelled
    and the stop hook is not called. *)
Theorem text_lines_ignore_cancellation :
  consumeStream (Reference.listener true)
    (Reference.streamed [Reference.wire "0:'a'$0:'b'$"]) [] =
  (Ok Drained, [Reference.TextDelta "a"; Reference.TextDelta "b"]).
Proof. reflexivity. Qed.

(** Where the poll is consulted (after a [2:] line, or a line with no known
    tag), a true answer cancels the reader and calls the stop hook, and
    nothing after it is delivered. *)
Example cancellation_at_data_line :
  consumeStream (Reference.listener true)
    (Reference.streamed
       [Reference.wire "0:'a'$2:[{'type':'conversation-created','conversationId':'abc'}]$0:'b'$";
        Reference.wire "0:'c'$"]) [] =
  (Ok (Cancelled [Reference.wire "0:'c'$"]),
   [Reference.TextDelta "a"; Reference.ConversationId "abc";
    Reference.Polled true; Reference.Stopped]).
Proof. reflexivity. Qed.

End DecoderRuns.

(** ** Reasoning about computations *)

Section Steps.
Context {S A : Type}.

Lemma bind_ok {B} (m : M S A) (k : A -> M S B) s a s' :
  m s = (Ok a, s') -> bind m k s = k a s'.
Proof. unfold bind. intros ->. reflexivity. Qed.

Lemma bind_throw {B} (m : M S A) (k : A -> M S B) s e s' :
  m s = (Throw e, s') -> bind m k s = (Throw e, s').
Proof. unfold bind. intros ->. reflexivity. Qed.

Lemma bind_hang {B} (m : M S A) (k : A -> M S B) s s' :
  m s = (Hang, s') -> bind m k s = (Hang, s').
Proof. unfold bind. intros ->. reflexivity. Qed.

(** A [bind] that returns went through a first part that returned. *)
Lemma bind_ok_inv {B} (m : M S A) (k : A -> M S B) s b s' :
  bind m k s = (Ok b, s') -> exists a s1, m s = (Ok a, s1) /\ k a s1 = (Ok b, s').
Proof.
  unfold bind. destruct (m s) as [[a| |] s1]; intros Hk; try discriminate.
  exists a, s1. split; [reflexivity | exact Hk].
Qed.

End Steps.

Section Steady.
Context {S : Type} (P : S -> Prop) (R : S -> S -> Prop).
Context (R_refl : forall s, R s s) (R_trans : forall a b c, R a b -> R b c -> R a c).

Lemma steady_ret {A} (a : A) : steady P R (ret a).
Proof using R_refl. intros s HP. simpl. auto. Qed.

Lemma steady_throw {A} (e : exn) : steady P R (@throw S A e).
Proof using R_refl. intros s HP. simpl. auto. Qed.

Lemma steady_get_state : steady P R get_state.
Proof using R_refl. intros s HP. simpl. auto. Qed.

Lemma steady_modify (f : S -> S) :
  (forall s, P s -> P (f s) /\ R s (f s)) -> steady P R (modify f).
Proof. intros Hf s HP. simpl. destruct (Hf s HP). auto. Qed.

Lemma steady_bind {A B} (m : M S A) (k : A -> M S B) :
  steady P R m -> (forall a, steady P R (k a)) -> steady P R (bind m k).
Proof using R_trans.
  intros Hm Hk s HP. unfold bind.
  destruct (Hm s HP) as (Hn & HP' & HR).
  destruct (m s) as [[a| |] s1]; simpl in *; try (split; [discriminate | auto]).
  - destruct (Hk a s1 HP') as (Hn' & HP'' & HR'). split; [assumption|]. split; eauto.
  - congruence.
Qed.

Lemma steady_try_catch {A} (m : M S A) (handler : exn -> M S A) :
  steady P R m -> (forall e, steady P R (handler e)) -> steady P R (try_catch m handler).
Proof using R_trans.
  intros Hm Hh s HP. unfold try_catch.
  destruct (Hm s HP) as (Hn & HP' & HR).
  destruct (m s) as [[a| |] s1]; simpl in *; try (split; [discriminate | auto]).
  - destruct (Hh e s1 HP') as (Hn' & HP'' & HR'). split; [assumption|]. split; eauto.
  - congruence.
Qed.



End Steady.

(** One step of a [steady] proof, by the shape of the computation. *)
Ltac steady_step :=
  cbv zeta;
  lazymatch goal with
  | |- steady _ _ (bind _ _) => apply steady_bind; [assumption | | intros ?]
  | |- steady _ _ (try_catch _ _) =>
      apply steady_try_catch; [assumption | | intros ?]
  | |- steady _ _ (ret _) => apply steady_ret; assumption
  | |- steady _ _ (throw _) => apply steady_throw; assumption
  | |- steady _ _ get_state => apply steady_get_state; assumption
  | |- steady _ _ (if ?b then _ else _) => destruct b
  | |- steady _ _ (match ?x with _ => _ end) => destruct x
  end.

(** ** The decoder keeps what its callbacks keep *)

Section DecoderSteady.
Context `{Runtime} {S : Type} (P : S -> Prop) (R : S -> S -> Prop).
Context (R_refl : forall s, R s s) (R_trans : forall a b c, R a b -> R b c -> R a c).
Context (callbacks : StreamCallbacks S).
Context (H_text : forall f d, onTextDelta callbacks = Some f -> steady P R (f d)).
Context (H_reasoning : forall f d, onReasoningDelta callbacks = Some f -> steady P R (f d)).
Context (H_conversation : forall f d, onConversationId callbacks = Some f -> steady P R (f d)).
Context (H_items : forall f d, onItems callbacks = Some f -> steady P R (f d)).
Context (H_usage : forall f d, onUsage callbacks = Some f -> steady P R (f d)).
Context (H_poll : forall f, shouldStop callbacks = Some f -> steady P R f).
Context (H_stop : forall f, onStop callbacks = Some f -> steady P R f).








End DecoderSteady.

(** ** Paths *)

Section Paths.

Lemma split_no_sep sep x t :
  Js.includes sep x = false ->
  Js.split sep (x +:+ String sep t) = x :: Js.split sep t.
Proof.
  induction x as [|c x IH]; intros Hx.
  - simpl. rewrite Ascii.eqb_refl. reflexivity.
  - simpl in Hx. apply orb_false_elim in Hx as [Hc Hx].
    rewrite string_app_cons. simpl. rewrite Hc, (IH Hx). reflexivity.
Qed.

Lemma split_no_sep_end sep x :
  Js.includes sep x = false -> Js.split sep x = [x].
Proof.
  induction x as [|c x IH]; intros Hx; [reflexivity|].
  simpl in Hx. apply orb_false_elim in Hx as [Hc Hx].
  simpl. rewrite Hc, (IH Hx). reflexivity.
Qed.

Lemma split_pieces_no_sep sep s : Forall (fun x => Js.includes sep x = false) (Js.split sep s).
Proof.
  induction s as [|c s IH]; simpl.
  - repeat constructor.
  - destruct (Ascii.eqb c sep) eqn:Hc.
    + constructor; [reflexivity | exact IH].
    + destruct (Js.split sep s) as [|p ps]; [repeat constructor; simpl; rewrite Hc; reflexivity|].
      inversion IH; subst. constructor; [|assumption].
      simpl. rewrite Hc. assumption.
Qed.

Lemma split_join xs :
  xs <> [] -> Forall (fun x => Js.includes Js.slash x = false) xs ->
  Js.split Js.slash (Js.join "/" xs) = xs.
Proof.
  induction xs as [|x xs IH]; [congruence|]. intros _ Hall.
  inversion Hall as [|? ? Hx Hxs]; subst.
  destruct xs as [|y ys].
  - simpl. apply split_no_sep_end. assumption.
  - change (Js.join "/" (x :: y :: ys)) with (x +:+ "/" +:+ Js.join "/" (y :: ys)).
    change ("/" +:+ Js.join "/" (y :: ys)) with (String Js.slash (Js.join "/" (y :: ys))).
    rewrite split_no_sep by assumption.
    rewrite IH; [reflexivity | discriminate | assumption].
Qed.

Lemma normalize_step_clean stack segment :
  Js.includes Js.slash segment = false ->
  Forall clean stack -> Forall clean (Path.normalize_step stack segment).
Proof.
  intros Hseg Hstack. unfold Path.normalize_step.
  repeat case_bool_decide; simpl; try assumption.
  - destruct stack; simpl; [constructor | inversion Hstack; assumption].
  - constructor; [|assumption]. repeat split; assumption.
Qed.

Lemma fold_normalize_clean segments stack :
  Forall (fun x => Js.includes Js.slash x = false) segments ->
  Forall clean stack ->
  Forall clean (fold_left Path.normalize_step segments stack).
Proof.
  revert stack. induction segments as [|x xs IH]; intros stack Hxs Hstack; simpl.
  - assumption.
  - inversion Hxs; subst. apply IH; [assumption|].
    apply normalize_step_clean; assumption.
Qed.

Lemma normalize_clean segments :
  Forall (fun x => Js.includes Js.slash x = false) segments ->
  Forall clean (Path.normalize segments).
Proof.
  intros Hs. unfold Path.normalize. apply Forall_rev.
  apply fold_normalize_clean; [assumption | constructor].
Qed.

Lemma fold_normalize_push segments stack :
  Forall clean segments ->
  fold_left Path.normalize_step segments stack = rev segments ++ stack.
Proof.
  revert stack. induction segments as [|x xs IH]; intros stack Hxs; simpl; [reflexivity|].
  inversion Hxs as [|? ? (Hslash & H1 & H2 & H3) Hrest]; subst.
  rewrite IH by assumption. unfold Path.normalize_step.
  rewrite !bool_decide_eq_false_2 by assumption. simpl.
  rewrite <- app_assoc. reflexivity.
Qed.

Lemma normalize_of_clean segments : Forall clean segments -> Path.normalize segments = segments.
Proof.
  intros Hs. unfold Path.normalize. rewrite fold_normalize_push by assumption.
  rewrite app_nil_r. apply rev_involutive.
Qed.

Lemma normalize_skip_empty segments : Path.normalize (EmptyString :: segments) = Path.normalize segments.
Proof. reflexivity. Qed.

Lemma normalize_snoc_empty segments :
  Path.normalize (segments ++ [EmptyString]) = Path.normalize segments.
Proof. unfold Path.normalize. rewrite fold_left_app. reflexivity. Qed.

(** Reading back the text of a normalized path gives its directory names. *)
Lemma segments_of_segments xs :
  Forall clean xs -> Path.normalize (Path.segments (Path.of_segments xs)) = xs.
Proof.
  intros Hxs. unfold Path.segments, Path.of_segments.
  change ("/" +:+ Js.join "/" xs) with (String Js.slash (Js.join "/" xs)).
  destruct xs as [|x xs'] eqn:Exs; [reflexivity|].
  rewrite <- Exs in *.
  change (Js.split Js.slash (String Js.slash (Js.join "/" xs)))
    with (EmptyString :: Js.split Js.slash (Js.join "/" xs)).
  rewrite normalize_skip_empty, split_join.
  - apply normalize_of_clean. assumption.
  - subst; discriminate.
  - eapply Forall_impl; [exact Hxs|]. intros ? (Hs & _). exact Hs.
Qed.

Lemma resolve_segments_clean from to : Forall clean (Path.resolve_segments from to).
Proof.
  unfold Path.resolve_segments. apply normalize_clean.
  destruct (Path.isAbsolute to).
  - apply split_pieces_no_sep.
  - apply Forall_app. split; apply split_pieces_no_sep.
Qed.

Lemma strip_common_spec xs ys :
  exists common,
    xs = common ++ (Path.strip_common xs ys).1 /\
    ys = common ++ (Path.strip_common xs ys).2.
Proof.
  revert ys. induction xs as [|x xs IH]; intros ys.
  - exists []. split; reflexivity.
  - destruct ys as [|y ys]; [exists []; split; reflexivity|].
    simpl. case_bool_decide as Hxy.
    + subst y. destruct (IH ys) as (common & H1 & H2).
      exists (x :: common). simpl. split; congruence.
    + exists []. split; reflexivity.
Qed.

Lemma strip_common_same xs : Path.strip_common xs xs = ([], []).
Proof.
  induction xs as [|x xs IH]; [reflexivity|].
  simpl. rewrite bool_decide_eq_true_2 by reflexivity. exact IH.
Qed.

Lemma relative_up_starts_dotdot (up down : list string) :
  up <> [] -> Js.startsWith ".." (Js.join "/" (replicate (length up) ".." ++ down)) = true.
Proof.
  destruct up as [|u up']; [congruence|]. intros _. simpl length. simpl replicate.
  destruct (replicate (length up') ".." ++ down) as [|y ys] eqn:E.
  - rewrite <- app_comm_cons, E. reflexivity.
  - rewrite <- app_comm_cons, E. reflexivity.
Qed.

(** The empty path names the root itself. *)
Lemma escapes_empty root : Tools.escapes root "" = false.
Proof.
  unfold Tools.escapes, Path.relative, Path.resolve.
  rewrite segments_of_segments by apply resolve_segments_clean.
  unfold Path.resolve_segments.
  change (Path.isAbsolute "") with false. cbv iota.
  change (Path.segments "") with [EmptyString].
  rewrite normalize_snoc_empty, strip_common_same. reflexivity.
Qed.

(** Path confinement, in terms of directories: a path the check lets through
    resolves to the root or below it. *)
Lemma not_escaping_is_inside root filePath :
  Tools.escapes root filePath = false ->
  exists below,
    Path.resolve_segments root filePath = Path.normalize (Path.segments root) ++ below.
Proof.
  unfold Tools.escapes, Path.relative, Path.resolve.
  rewrite segments_of_segments by apply resolve_segments_clean.
  intros Hesc. apply orb_false_elim in Hesc as [Hdots _].
  destruct (strip_common_spec (Path.normalize (Path.segments root))
              (Path.resolve_segments root filePath)) as (common & Hroot & Hres).
  destruct (Path.strip_common _ _) as [up down]. simpl in *.
  destruct up as [|u up'].
  - exists down. rewrite app_nil_r in Hroot. congruence.
  - rewrite relative_up_starts_dotdot in Hdots by discriminate. discriminate.
Qed.

End Paths.

(** ** The tool sandbox *)

Section SandboxFacts.
Context `{Host} (ctx : ToolExecutionContext).

Lemma is_empty_true s : Js.is_empty s = true -> s = "".
Proof. destruct s; [reflexivity | discriminate]. Qed.

Lemma resolvePath_escape filePath s :
  Tools.escapes (rootDir ctx) filePath = true ->
  Tools.resolvePath (rootDir ctx) filePath s = (Throw path_violation, s).
Proof.
  unfold Tools.escapes, Tools.resolvePath. intros ->. reflexivity.
Qed.

Lemma resolvePath_inside filePath s :
  Tools.escapes (rootDir ctx) filePath = false ->
  Tools.resolvePath (rootDir ctx) filePath s =
  (Ok (Path.resolve (rootDir ctx) filePath), s).
Proof.
  unfold Tools.escapes, Tools.resolvePath. intros ->. reflexivity.
Qed.






Lemma parsePatchPaths_empty : Tools.parsePatchPaths "" = [].
Proof. reflexivity. Qed.





Lemma writeFile_escape args s :
  Tools.escapes (rootDir ctx) (string_arg "path" "" args) = true ->
  Tools.writeFileTool ctx args s = (Throw path_violation, s).
Proof.
  intros Hesc. unfold Tools.writeFileTool.
  destruct (Js.is_empty _) eqn:He.
  - apply is_empty_true in He. rewrite He, escapes_empty in Hesc. discriminate.
  - apply bind_throw. apply resolvePath_escape. exact Hesc.
Qed.


Lemma present_file s path : is_Some (fs s !! path) -> Tools.present s path = true.
Proof. intros Hfile. unfold Tools.present. rewrite bool_decide_eq_true_2 by assumption. reflexivity. Qed.

Lemma absent_no_file s path : Tools.present s path = false -> fs s !! path = None.
Proof.
  unfold Tools.present. intros Habsent. apply orb_false_iff in Habsent as [Hfile _].
  apply bool_decide_eq_false_1 in Hfile. destruct (fs s !! path); [|reflexivity].
  exfalso. apply Hfile. eexists. reflexivity.
Qed.

Lemma writeFile_unread args s :
  Js.is_empty (string_arg "path" "" args) = false ->
  Tools.escapes (rootDir ctx) (string_arg "path" "" args) = false ->
  Tools.present s (Path.resolve (rootDir ctx) (string_arg "path" "" args)) = true ->
  Path.resolve (rootDir ctx) (string_arg "path" "" args) ∉ readSet s ->
  Tools.writeFileTool ctx args s = (Throw read_before_write, s).
Proof.
  intros Hne Hesc Hex Hunread. unfold Tools.writeFileTool. rewrite Hne.
  rewrite (bind_ok _ _ _ _ _ (resolvePath_inside _ s Hesc)).
  unfold Tools.fs_exists, Tools.ensureReadBeforeWrite, bind, get_state, ret, throw.
  rewrite Hex.
  rewrite bool_decide_eq_false_2 by assumption. reflexivity.
Qed.

(** A write at a free path: the read set is not looked at; the disk decides. *)
Lemma writeFile_new args s :
  Js.is_empty (string_arg "path" "" args) = false ->
  Tools.escapes (rootDir ctx) (string_arg "path" "" args) = false ->
  Tools.present s (Path.resolve (rootDir ctx) (string_arg "path" "" args)) = false ->
  Tools.writeFileTool ctx args s =
  match Tools.create_error s (Path.resolve (rootDir ctx) (string_arg "path" "" args)) with
  | Some e => (Throw e, s)
  | None =>
      (Ok (JObj [("path", JStr (string_arg "path" "" args));
                 ("created", JBool true);
                 ("diff", JStr (Js.trim (diff_u "" (string_arg "content" "" args)
                                            (string_arg "path" "" args))));
                 ("before", JStr "");
                 ("after", JStr (string_arg "content" "" args))]),
       written ctx (string_arg "path" "" args)
         (Path.resolve (rootDir ctx) (string_arg "path" "" args))
         (string_arg "content" "" args) s)
  end.
Proof.
  intros Hne Hesc Hnew. unfold Tools.writeFileTool. rewrite Hne.
  rewrite (bind_ok _ _ _ _ _ (resolvePath_inside _ s Hesc)).
  unfold Tools.fs_exists, Tools.fs_writeFile, Tools.lsp_sync, Tools.createUnifiedDiff,
    bind, get_state, modify, ret, throw, written.
  rewrite Hnew. simpl. rewrite (absent_no_file _ _ Hnew).
  destruct (Tools.create_error s _); [reflexivity|].
  simpl. destruct (lsp ctx); reflexivity.
Qed.



End SandboxFacts.

(** ** What the tools keep *)

Section ToolsSteady.
Context `{Host} (R : Sandbox -> Sandbox -> Prop).
Context (R_refl : forall s, R s s) (R_trans : forall a b c, R a b -> R b c -> R a c).
Context (R_fs : forall f s, R s (set_fs f s)).
Context (R_disk : forall f d s, R s (set_disk f d s)).
Context (R_caches : forall m a s, R s (set_caches m a s)).
Context (R_spawn : forall argv s, R s (log_spawn argv s)).
Context (R_lsp : forall p c s, R s (log_lsp p c s)).

Abbreviation kept := (steady (fun _ : Sandbox => True) R).

Ltac kept_modify := apply steady_modify; intros ? _; split; [exact I | auto].

Lemma of_result_kept {A} (r : exn + A) : kept (Tools.of_result r).
Proof using R_refl. destruct r; simpl; steady_step. Qed.

Lemma getAllowedTools_kept baseUrl token : kept (Tools.getAllowedTools baseUrl token).
Proof using R_refl R_trans R_caches.
  unfold Tools.getAllowedTools. steady_step; [steady_step|].
  steady_step; [apply of_result_kept|].
  steady_step; [kept_modify | apply of_result_kept].
Qed.

Lemma resolvePath_kept root filePath : kept (Tools.resolvePath root filePath).
Proof using R_refl. unfold Tools.resolvePath. steady_step; steady_step. Qed.

Lemma ensureReadBeforeWrite_kept filePath : kept (Tools.ensureReadBeforeWrite filePath).
Proof using R_refl R_trans.
  unfold Tools.ensureReadBeforeWrite. steady_step; [steady_step|].
  steady_step; steady_step.
Qed.

Lemma fs_readFile_kept path : kept (Tools.fs_readFile path).
Proof using R_refl R_trans.
  unfold Tools.fs_readFile. steady_step; [steady_step|]. steady_step; steady_step.
Qed.

Lemma fs_exists_kept path : kept (Tools.fs_exists path).
Proof using R_refl R_trans.
  unfold Tools.fs_exists. steady_step; steady_step.
Qed.

Lemma fs_writeFile_kept path content : kept (Tools.fs_writeFile path content).
Proof using R_refl R_trans R_fs.
  unfold Tools.fs_writeFile. steady_step; [steady_step|].
  steady_step; [kept_modify|]. steady_step; [steady_step | kept_modify].
Qed.

Lemma lsp_sync_kept ctx path content : kept (Tools.lsp_sync ctx path content).
Proof using R_refl R_lsp. unfold Tools.lsp_sync. steady_step; [kept_modify | steady_step]. Qed.

Lemma createUnifiedDiff_kept before after filePath :
  kept (Tools.createUnifiedDiff before after filePath).
Proof using R_refl R_trans R_spawn.
  unfold Tools.createUnifiedDiff. steady_step; [kept_modify | steady_step].
Qed.

Lemma listFilesTool_kept ctx args : kept (Tools.listFilesTool ctx args).
Proof using R_refl R_trans.
  unfold Tools.listFilesTool. steady_step; [steady_step|].
  steady_step; [apply of_result_kept | steady_step].
Qed.

Lemma grepTool_kept ctx args : kept (Tools.grepTool ctx args).
Proof using R_refl R_trans R_spawn.
  unfold Tools.grepTool. steady_step; [steady_step|].
  steady_step; [kept_modify|]. steady_step; [steady_step|].
  destruct (rg _ _ _ _) as [[exitCode stdout] stderr].
  steady_step; steady_step.
Qed.

Lemma capture_before_kept ctx touched beforeMap :
  kept (Tools.capture_before ctx touched beforeMap).
Proof using R_refl R_trans.
  revert beforeMap. induction touched as [|p rest IH]; intros beforeMap; simpl.
  - steady_step.
  - steady_step; [apply resolvePath_kept|].
    steady_step; [apply ensureReadBeforeWrite_kept|].
    steady_step; [apply fs_readFile_kept | apply IH].
Qed.

Lemma collect_after_kept ctx touched beforeMap :
  kept (Tools.collect_after ctx touched beforeMap).
Proof using R_refl R_trans R_spawn R_lsp.
  induction touched as [|p rest IH]; simpl.
  - steady_step.
  - steady_step; [apply resolvePath_kept|].
    steady_step; [apply fs_readFile_kept|].
    steady_step; [apply createUnifiedDiff_kept|].
    steady_step; [apply lsp_sync_kept|].
    steady_step; [exact IH | steady_step].
Qed.

Lemma applyPatchTool_kept ctx args : kept (Tools.applyPatchTool ctx args).
Proof using All.
  unfold Tools.applyPatchTool. steady_step; [steady_step|].
  steady_step; [apply capture_before_kept|].
  steady_step; [kept_modify|].
  steady_step; [steady_step|].
  destruct (git_apply _ _ _ _) as [[[code stderr] fs'] dirs'].
  steady_step; [kept_modify|].
  steady_step; [steady_step|].
  steady_step; [apply collect_after_kept | steady_step].
Qed.

Lemma writeFileTool_kept ctx args : kept (Tools.writeFileTool ctx args).
Proof using All.
  unfold Tools.writeFileTool. steady_step; [steady_step|].
  steady_step; [apply resolvePath_kept|].
  steady_step; [apply fs_exists_kept|].
  steady_step.
  { steady_step; [|steady_step].
    steady_step; [apply ensureReadBeforeWrite_kept | apply fs_readFile_kept]. }
  steady_step; [apply fs_writeFile_kept|].
  steady_step; [apply lsp_sync_kept|].
  steady_step; [apply createUnifiedDiff_kept | steady_step].
Qed.

Lemma read_changed_kept root lines files : kept (Tools.read_changed root lines files).
Proof using R_refl R_trans.
  revert files. induction lines as [|line rest IH]; intros files; simpl.
  - steady_step.
  - steady_step; [apply IH|].
    steady_step; [steady_step|].
    steady_step; [apply fs_readFile_kept | apply IH].
Qed.

Lemma deployTool_kept ctx args : kept (Tools.deployTool ctx args).
Proof using R_refl R_trans R_spawn.
  unfold Tools.deployTool, Tools.collectChangedFiles.
  steady_step.
  { steady_step; [kept_modify|]. steady_step; [steady_step|].
    destruct (git_status _ _) as [[code stdout] stderr].
    steady_step; [steady_step|].
    steady_step; [apply read_changed_kept|]. steady_step; steady_step. }
  steady_step; [apply of_result_kept|].
  steady_step; [apply of_result_kept | steady_step].
Qed.

(** Every tool but [read_file]. *)
Lemma dispatch_kept_but_read call ctx :
  name call <> "read_file" -> kept (Tools.dispatch call ctx).
Proof using All.
  intros Hname. unfold Tools.dispatch.
  steady_step; [apply getAllowedTools_kept|].
  steady_step; [steady_step|].
  rewrite bool_decide_eq_false_2 by assumption.
  steady_step; [steady_step; [apply listFilesTool_kept | steady_step]|].
  steady_step; [steady_step; [apply grepTool_kept | steady_step]|].
  steady_step; [steady_step; [apply applyPatchTool_kept | steady_step]|].
  steady_step; [steady_step; [apply writeFileTool_kept | steady_step]|].
  steady_step; [steady_step; [apply deployTool_kept | steady_step]|].
  steady_step.
Qed.

Context (R_read : forall resolved s, R s (set_readSet ({[resolved]} ∪ readSet s) s)).

Lemma readFileTool_kept ctx args : kept (Tools.readFileTool ctx args).
Proof using All.
  unfold Tools.readFileTool. steady_step; [steady_step|].
  steady_step; [apply resolvePath_kept|].
  steady_step; [apply fs_readFile_kept|].
  steady_step; [kept_modify|].
  steady_step; [apply lsp_sync_kept | steady_step].
Qed.

Lemma dispatch_kept call ctx : kept (Tools.dispatch call ctx).
Proof using All.
  destruct (decide (name call = "read_file")) as [Hname|Hname];
    [|apply dispatch_kept_but_read; assumption].
  unfold Tools.dispatch.
  steady_step; [apply getAllowedTools_kept|].
  steady_step; [steady_step|].
  rewrite bool_decide_eq_true_2 by assumption.
  steady_step; [apply readFileTool_kept | steady_step].
Qed.

Lemma executeLocalTool_kept call ctx : kept (Tools.executeLocalTool call ctx).
Proof using All.
  unfold Tools.executeLocalTool. steady_step; [apply dispatch_kept | steady_step].
Qed.

End ToolsSteady.

(** ** Claims about the tool sandbox *)


Section PatchResults.
Context `{Host} (ctx : ToolExecutionContext).



End PatchResults.

Section SandboxClaims.
Context `{Host}.



(** A [try] whose handler returns: the whole returns whenever the block comes
    back, whatever the block raises. *)
Lemma try_catch_returns {S A} (m : M S A) (recover : exn -> A) (s : S) :
  (m s).1 <> Hang ->
  exists a s', try_catch m (fun e => ret (recover e)) s = (Ok a, s').
Proof.
  unfold try_catch. destruct (m s) as [[a|e|] s1]; simpl; intros Hback; eauto.
  congruence.
Qed.

(** C5. [executeLocalTool] never raises and always comes back with a
    result: what its [try] block returns, or [{ok: false, error}] with the
    message of what the block raised. *)
Theorem executeLocalTool_never_raises (call : ToolCall) (ctx : ToolExecutionContext)
    (s : Sandbox) :
  exists result s',
    Tools.executeLocalTool call ctx s = (Ok result, s') /\
    (forall e s1, Tools.dispatch call ctx s = (Throw e, s1) ->
       result = Tools.failed (message_or "Tool failed" e) /\ s' = s1) /\
    (forall r s1, Tools.dispatch call ctx s = (Ok r, s1) -> result = r /\ s' = s1).
Proof.
  destruct (dispatch_kept (fun _ _ => True) (fun _ => I) (fun _ _ _ _ _ => I)
              (fun _ _ => I) (fun _ _ _ => I) (fun _ _ _ => I) (fun _ _ => I)
              (fun _ _ _ => I) (fun _ _ => I) call ctx s I) as (Hback & _).
  unfold Tools.executeLocalTool, try_catch.
  destruct (Tools.dispatch call ctx s) as [[r|e|] s1]; simpl in Hback.
  - exists r, s1. split; [reflexivity|]. split; intros ? ? Heq; inversion Heq; auto.
  - exists (Tools.failed (message_or "Tool failed" e)), s1.
    split; [reflexivity|]. split; intros ? ? Heq; inversion Heq; auto.
  - congruence.
Qed.


(** [read_file] when it returns: the resolved path has joined the read
    set. *)
Lemma readFile_returns ctx args s out s' :
  Tools.readFileTool ctx args s = (Ok out, s') ->
  readSet s' = {[Path.resolve (rootDir ctx) (string_arg "path" "" args)]} ∪ readSet s.
Proof.
  unfold Tools.readFileTool. destruct (Js.is_empty _); [discriminate|]. intros Hrun.
  apply bind_ok_inv in Hrun as (resolved & s1 & Hres & Hrun).
  unfold Tools.resolvePath in Hres.
  destruct (_ || _); [discriminate|]. inversion Hres; subst resolved s1; clear Hres.
  apply bind_ok_inv in Hrun as (content & s1 & Hread & Hrun).
  unfold Tools.fs_readFile, bind, get_state in Hread.
  destruct (fs s !! _); [|discriminate]. inversion Hread; subst content s1; clear Hread.
  unfold bind, modify, Tools.lsp_sync, ret in Hrun.
  destruct (lsp ctx); inversion Hrun; reflexivity.
Qed.

(** C10. The read set grows only through [read_file]: a call of any other
    tool leaves it as it was, and a [read_file] that succeeds adds the
    resolved path. So a file that [write_file] has just created, at a path
    not in the read set, is refused a second [write_file] with the
    read-before-write error. *)
Theorem read_set_grows_only_by_reading (ctx : ToolExecutionContext) (s : Sandbox) :
  (forall call, name call <> "read_file" ->
     readSet (Tools.executeLocalTool call ctx s).2 = readSet s) /\
  (forall args out s', Tools.readFileTool ctx args s = (Ok out, s') ->
     readSet s' = {[Path.resolve (rootDir ctx) (string_arg "path" "" args)]} ∪ readSet s) /\
  (forall args out s1,
     let resolved := Path.resolve (rootDir ctx) (string_arg "path" "" args) in
     resolved ∉ readSet s ->
     fs s !! resolved = None ->
     Tools.writeFileTool ctx args s = (Ok out, s1) ->
     forall args', string_arg "path" "" args' = string_arg "path" "" args ->
       Tools.writeFileTool ctx args' s1 = (Throw read_before_write, s1)).
Proof.
  split; [|split].
  - intros call Hname.
    assert (Hkept : steady (fun _ : Sandbox => True)
                      (fun a b => readSet b = readSet a) (Tools.executeLocalTool call ctx)).
    { unfold Tools.executeLocalTool.
      apply steady_try_catch; [intros; congruence | | intros e; apply steady_ret; reflexivity].
      apply dispatch_kept_but_read; try (intros; reflexivity); [|assumption].
      intros; congruence. }
    apply (Hkept s I).
  - intros args out s'. apply readFile_returns.
  - intros args out s1 resolved Hunread Hnew Hrun args' Hsame.
    assert (Hne : Js.is_empty (string_arg "path" "" args) = false).
    { unfold Tools.writeFileTool in Hrun. destruct (Js.is_empty _); [discriminate|reflexivity]. }
    assert (Hesc : Tools.escapes (rootDir ctx) (string_arg "path" "" args) = false).
    { destruct (Tools.escapes _ _) eqn:E; [|reflexivity].
      rewrite (writeFile_escape ctx args s E) in Hrun. discriminate. }
    destruct (Tools.present s resolved) eqn:Hthere.
    { rewrite (writeFile_unread ctx args s Hne Hesc Hthere Hunread) in Hrun. discriminate. }
    rewrite (writeFile_new ctx args s Hne Hesc Hthere) in Hrun.
    destruct (Tools.create_error s _); [discriminate|].
    inversion Hrun; subst out s1; clear Hrun.
    apply writeFile_unread; rewrite ?Hsame; try assumption.
    + apply present_file.
      unfold written. destruct (lsp ctx); simpl; rewrite lookup_insert_eq; eauto.
    + unfold written. destruct (lsp ctx); simpl; assumption.
Qed.

End SandboxClaims.

Section SandboxRuns.
#[local] Existing Instance Reference.host.


(** Through the dispatcher: the call comes back as a structured failure, no
    file is written and no program is started. *)
Example write_outside_is_reported :
  let out := Tools.executeLocalTool
               {| name := "write_file";
                  args := Some (Reference.write_args "../../etc/passwd" "x") |}
               Reference.ctx Reference.empty_sandbox in
  out.1 = Ok (Tools.failed "Path is outside workspace") /\
  fs out.2 = ∅ /\ spawned out.2 = [].
Proof. vm_compute. repeat split. Qed.





Example patch_of_unread_file :
  Tools.applyPatchTool Reference.ctx (Reference.patch_args Reference.patch_of_a)
    (Reference.sandbox_of {["/home/user/project/a.txt" := "old"]} ∅) =
  (Throw read_before_write,
   Reference.sandbox_of {["/home/user/project/a.txt" := "old"]} ∅).
Proof. reflexivity. Qed.

(** A patch that creates a file is refused as well: the check of the first
    loop does not ask whether the file exists. *)
Example patch_of_new_file :
  Tools.applyPatchTool Reference.ctx (Reference.patch_args Reference.patch_of_a)
    Reference.empty_sandbox =
  (Throw read_before_write, Reference.empty_sandbox).
Proof. reflexivity. Qed.

Lemma read_set_grows_only_by_reading_witness :
  Tools.writeFileTool Reference.ctx (Reference.write_args "a.txt" "again")
    (written Reference.ctx "a.txt" "/home/user/project/a.txt" "new" Reference.empty_sandbox) =
  (Throw read_before_write,
   written Reference.ctx "a.txt" "/home/user/project/a.txt" "new" Reference.empty_sandbox).
Proof.
  apply (proj2 (proj2 (read_set_grows_only_by_reading Reference.ctx Reference.empty_sandbox))
           (Reference.write_args "a.txt" "new")
           (JObj [("path", JStr "a.txt"); ("created", JBool true); ("diff", JStr "");
                  ("before", JStr ""); ("after", JStr "new")])).
  - apply not_elem_of_empty.
  - reflexivity.
  - reflexivity.
  - reflexivity.
Defined.

(** Written, read, and then written again. *)
Example write_read_write :
  let write1 := {| name := "write_file"; args := Some (Reference.write_args "a.txt" "C") |} in
  let read := {| name := "read_file"; args := Some (JObj [("path", JStr "a.txt")]) |} in
  let write2 := {| name := "write_file"; args := Some (Reference.write_args "a.txt" "D") |} in
  let s1 := (Tools.executeLocalTool write1 Reference.ctx Reference.empty_sandbox).2 in
  let r2 := Tools.executeLocalTool read Reference.ctx s1 in
  let r3 := Tools.executeLocalTool write2 Reference.ctx r2.2 in
  (Tools.executeLocalTool write2 Reference.ctx s1).1 =
    Ok (Tools.failed "File must be read before write/patch") /\
  r2.1 = Ok (Tools.succeeded (JObj [("path", JStr "a.txt"); ("content", JStr "C")])) /\
  result_ok <$> (match r3.1 with Ok r => Some r | _ => None end) = Some true /\
  fs r3.2 !! "/home/user/project/a.txt" = Some "D".
Proof. vm_compute. repeat split. Qed.

End SandboxRuns.

Section DeletionRuns.
#[local] Existing Instance Scenario.deleting_host.


End DeletionRuns.

(** ** The session driver *)




Section DriverFacts.
Context `{Runtime} `{Host} `{Rendering}.





Lemma same_items_trans a b c : same_items a b -> same_items b c -> same_items a c.
Proof. unfold same_items. congruence. Qed.



Ltac same_step :=
  first [ steady_step
        | apply (steady_bind _ _ same_items_trans); [ | intros ?] ].


















End DriverFacts.

Section TurnFacts.
Context `{Runtime} `{Host} `{Rendering}.













End TurnFacts.

Section Resubmission.
Context `{Runtime} `{Host} `{Rendering}.






End Resubmission.

(** ** Claims about the session driver *)

Section TurnClaims.
Context `{Runtime} `{Host} `{Rendering}.

Lemma sendMessage_runs depth text w tok :
  ChatWorker.token_of w = Some tok ->
  let wu := user_turn text w in
  let sent := requests w ++ [ChatWorker.message_body wu] in
  ChatWorker.sendMessage depth text w =
  match remote w with
  | [] => (Throw (Error "fetch failed"), ChatWorker.set_remote [] sent wu)
  | inl e :: rest => (Throw e, ChatWorker.set_remote rest sent wu)
  | inr response :: rest =>
      if negb (ok response)
      then ChatWorker.appendLine ("request error: " +:+ pretty (status response)
                                  +:+ " " +:+ resp_text response)
             (ChatWorker.set_remote rest sent wu)
      else try_catch
             (consumeStream (ChatWorker.message_callbacks depth) response ;;;
              ChatWorker.flush_streaming)
             ChatWorker.on_stream_error
             (stream_opened text w rest)
  end.
Proof.
  intros Htok wu sent.
  unfold ChatWorker.sendMessage. unfold bind at 1, get_state at 1. rewrite Htok.
  unfold bind at 1, ChatWorker.push_item at 1, modify at 1.
  unfold bind at 1, ChatWorker.appendLine at 1, ChatWorker.emit at 1, modify at 1.
  unfold bind at 1, ChatWorker.recordHistory at 1, modify at 1.
  unfold bind at 1, get_state at 1.
  unfold bind at 1, ChatWorker.chatRequest at 1.
  change (remote (ChatWorker.set_history _ _)) with (remote w).
  destruct (remote w) as [|[e|response] rest]; try reflexivity.
  destruct (negb (ok response)); reflexivity.
Qed.

(** The request of a turn carries the whole transcript, the new message
    last. *)
Lemma turn_sends_transcript text w :
  input (ChatWorker.message_body (user_turn text w)) =
  items w ++ [ChatWorker.user_item text].
Proof. reflexivity. Qed.

(** C6, as the code has it. When the stream of a turn fails, [sendMessage]
    itself returns; it adds exactly one line, the error line, and clears the
    live buffer; the transcript and the recorded history stay as they were
    when the stream failed. The partial text is dropped: no [assistant:]
    line is added for it and no assistant message is recorded. *)
Theorem failed_stream_is_reported depth text w tok response rest e w1 :
  ChatWorker.token_of w = Some tok ->
  remote w = inr response :: rest ->
  ok response = true ->
  consumeStream (ChatWorker.message_callbacks depth) response (stream_opened text w rest)
    = (Throw e, w1) ->
  exists w2,
    ChatWorker.sendMessage depth text w = (Ok tt, w2) /\
    ui w2 = ui w1 ++ [Line ("stream error: " +:+ message_or "stream failed" e); Stream ""] /\
    items w2 = items w1 /\
    history w2 = history w1 /\
    streamingText w2 = "".
Proof.
  intros Htok Hremote Hok Hfail.
  rewrite (sendMessage_runs depth text w tok Htok). cbv zeta.
  rewrite Hremote, Hok. simpl negb. cbv iota.
  unfold try_catch, bind at 1. rewrite Hfail.
  unfold ChatWorker.on_stream_error, ChatWorker.appendLine, ChatWorker.clearStreaming,
    ChatWorker.emit, bind, modify.
  eexists. split; [reflexivity|]. simpl.
  rewrite <- app_assoc. repeat split; reflexivity.
Qed.

(** The flush belongs to the stream that ends: the text in the live buffer
    becomes one [assistant:] line and one recorded message. *)
Lemma ended_stream_is_flushed depth text w tok response rest e w1 :
  ChatWorker.token_of w = Some tok ->
  remote w = inr response :: rest ->
  ok response = true ->
  consumeStream (ChatWorker.message_callbacks depth) response (stream_opened text w rest)
    = (Ok e, w1) ->
  (0 < String.length (Js.trim (streamingText w1)))%nat ->
  exists w2,
    ChatWorker.sendMessage depth text w = (Ok tt, w2) /\
    ui w2 = ui w1 ++ [Line ("assistant: " +:+ streamingText w1); Stream ""] /\
    history w2 = history w1 ++
      [{| h_role := "assistant"; h_type := "message"; h_text := streamingText w1 |}].
Proof.
  intros Htok Hremote Hok Hend Htext.
  rewrite (sendMessage_runs depth text w tok Htok). cbv zeta.
  rewrite Hremote, Hok. simpl negb. cbv iota.
  unfold try_catch, bind at 1. rewrite Hend.
  unfold ChatWorker.flush_streaming, bind, get_state.
  apply Nat.ltb_lt in Htext. rewrite Htext.
  unfold ChatWorker.appendLine, ChatWorker.recordHistory, ChatWorker.clearStreaming,
    ChatWorker.emit, bind, modify.
  eexists. split; [reflexivity|]. simpl.
  rewrite <- app_assoc. split; reflexivity.
Qed.




End TurnClaims.

Section DriverRuns.
#[local] Existing Instance Reference.runtime.
#[local] Existing Instance Reference.host.
#[local] Existing Instance Reference.rendering.

(** C6, refuted as stated: the stream fails after the text [Hi there] has
    accumulated in the live buffer; the worker shows the error line and
    clears the buffer, and the text is in no [assistant:] line and in no
    recorded message. *)
Lemma partial_text_is_dropped :
  let out := ChatWorker.sendMessage 1 "hello"
               (Reference.worker (Some "app") (Some "c") [inr broken_reply]) in
  out.1 = Ok tt /\
  ui out.2 = [Line "user: hello"; Stream ""; Stream "Hi"; Stream "Hi there";
              Line "stream error: terminated"; Stream ""] /\
  history out.2 = [{| h_role := "user"; h_type := "message"; h_text := "hello" |}] /\
  items out.2 = [ChatWorker.user_item "hello"] /\
  Line "assistant: Hi there" ∉ ui out.2.
Proof.
  vm_compute. repeat split.
  intros Hin. repeat (apply elem_of_cons in Hin as [Hin|Hin]; [discriminate|]).
  inversion Hin.
Qed.

Lemma failed_stream_is_reported_witness :
  let w := Reference.worker (Some "app") (Some "c") [inr broken_reply] in
  let w1 := (consumeStream (ChatWorker.message_callbacks 1) broken_reply
               (stream_opened "hello" w [])).2 in
  exists w2,
    ChatWorker.sendMessage 1 "hello" w = (Ok tt, w2) /\
    ui w2 = ui w1 ++
            [Line ("stream error: " +:+ message_or "stream failed" (Error "terminated"));
             Stream ""] /\
    items w2 = items w1 /\
    history w2 = history w1 /\
    streamingText w2 = "".
Proof.
  apply (failed_stream_is_reported 1 "hello"
           (Reference.worker (Some "app") (Some "c") [inr broken_reply])
           "t" broken_reply [] (Error "terminated")
           (consumeStream (ChatWorker.message_callbacks 1) broken_reply
              (stream_opened "hello"
                 (Reference.worker (Some "app") (Some "c") [inr broken_reply]) [])).2);
    reflexivity.
Defined.



Example answered_transcript :
  items (ChatWorker.sendMessage 3 "hello"
           (Reference.worker (Some "app") (Some "c")
              [inr (Reference.streamed [tool_call_frame]);
               inr (Reference.streamed [Reference.wire "0:'ok'$"])])).2 =
  [ChatWorker.user_item "hello"; the_tool_call;
   JObj [("type", JStr "tool_output"); ("callId", JStr "c1"); ("name", JStr "list_files");
         ("ok", JBool true);
         ("output", JObj [("pattern", JStr "**/*"); ("matches", JArr [])]);
         ("createdAt", JStr "1970-01-01T00:00:00.000Z")]].
Proof. vm_compute. reflexivity. Qed.

(** Two tool calls come in one data frame, and the request that resubmits
    the result of the first fails: the error leaves the handling of the
    frame, the second call is never appended, and the turn ends with the
    first call answered. *)
Example call_after_failed_resubmission :
  let out := ChatWorker.sendMessage 3 "hello"
               (Reference.worker (Some "app") (Some "c")
                  [inr (Reference.streamed [two_tool_calls_frame]);
                   inl (Error "fetch failed")]) in
  out.1 = Ok tt /\
  length (items out.2) = 3 /\
  (Json.get "callId" <$> items out.2) = [None; Some (JStr "c1"); Some (JStr "c1")] /\
  (ChatWorker.item_type <$> items out.2) =
    [Some "message"; Some "tool_call"; Some "tool_output"].
Proof. vm_compute. repeat split. Qed.

End DriverRuns.

(* ===================================================================== *)
(** ** More about the frame decoder *)
(* ===================================================================== *)

Section MoreLines.

Lemma includes_app c (s t : string) :
  Js.includes c (s +:+ t) = Js.includes c s || Js.includes c t.
Proof.
  induction s as [|c' s IH]; [reflexivity|].
  rewrite string_app_cons. simpl. rewrite IH. apply orb_assoc.
Qed.

Lemma rest_of_no_newline s : Js.includes Js.newline (rest_of s) = false.
Proof.
  unfold rest_of.
  pose proof (split_pieces_no_sep Js.newline s) as Hall.
  pose proof (split_nonempty Js.newline s) as Hne.
  induction (Js.split Js.newline s) as [|x xs IH]; [congruence|].
  destruct xs as [|y ys].
  - simpl. inversion Hall; assumption.
  - rewrite pop_cons by discriminate. simpl.
    apply IH; [inversion Hall; assumption | discriminate].
Qed.

Lemma lines_of_no_newline s : Js.includes Js.newline s = false -> lines_of s = [].
Proof.
  intros Hs. unfold lines_of. rewrite (split_no_sep_end _ _ Hs). reflexivity.
Qed.

(** Text without a line feed after a text: the complete lines stay. *)
Lemma lines_of_tail s tail :
  Js.includes Js.newline tail = false -> lines_of (s +:+ tail) = lines_of s.
Proof.
  intros Htail. rewrite lines_of_append.
  rewrite (lines_of_no_newline (rest_of s +:+ tail)); [apply app_nil_r|].
  rewrite includes_app, rest_of_no_newline, Htail. reflexivity.
Qed.

Lemma text_of_app parts1 parts2 : text_of (parts1 ++ parts2) = text_of parts1 +:+ text_of parts2.
Proof.
  induction parts1 as [|p parts1 IH]; [reflexivity|].
  simpl. rewrite IH. symmetry. apply string_app_assoc.
Qed.

(** A line without a line feed, then a line feed, then a text. *)
Lemma lines_of_line line text :
  Js.includes Js.newline line = false ->
  lines_of (line +:+ String Js.newline text) = line :: lines_of text /\
  rest_of (line +:+ String Js.newline text) = rest_of text.
Proof.
  intros Hline. unfold lines_of, rest_of.
  rewrite (split_no_sep _ _ _ Hline).
  rewrite pop_cons by apply split_nonempty. split; reflexivity.
Qed.

End MoreLines.

Section MoreDecoder.
Context `{Runtime} {S : Type} (callbacks : StreamCallbacks S).

Lemma starts_with_cons (a b : ascii) (line : string) :
  Js.startsWith (String a (String b EmptyString)) line = true ->
  exists rest, line = String a (String b rest).
Proof.
  unfold Js.startsWith. destruct line as [|x [|y rest]]; simpl; try discriminate.
  - destruct (Ascii.ascii_dec a x); discriminate.
  - destruct (Ascii.ascii_dec a x) as [->|]; [|discriminate].
    destruct (Ascii.ascii_dec b y) as [->|]; [|discriminate].
    intros _. exists rest. reflexivity.
Qed.

(** A line the loop passes over: an empty line, a [d:] line, a [3:] line. *)
Lemma passed_over line (s : S) :
  Js.is_empty line || Js.startsWith "d:" line || Js.startsWith "3:" line = true ->
  process_line callbacks line s = (Ok Next, s).
Proof.
  intros Hline. apply orb_true_iff in Hline as [Hline|H3].
  - apply orb_true_iff in Hline as [Hempty|Hd].
    + destruct line; [reflexivity | discriminate].
    + apply starts_with_cons in Hd as [rest ->]. destruct rest; reflexivity.
  - apply starts_with_cons in H3 as [rest ->].
    rewrite <- (error_line_silent (String "3" (String ":" rest)) s).
    destruct rest; reflexivity.
Qed.

Lemma process_lines_passed_over before line after (s : S) :
  Js.is_empty line || Js.startsWith "d:" line || Js.startsWith "3:" line = true ->
  process_lines callbacks (before ++ line :: after) s =
  process_lines callbacks (before ++ after) s.
Proof.
  intros Hline. rewrite !process_lines_app.
  destruct (process_lines callbacks before s) as [[[|]| |] s1]; try reflexivity.
  simpl. unfold bind at 1. rewrite (passed_over _ _ Hline). reflexivity.
Qed.

End MoreDecoder.

(** X1. Text after the last line feed of a body is never decoded. When the
    body ends, or the read fails, while an unterminated line is pending,
    that line is dropped, whatever it holds: the caller sees what it would
    see had the body ended at its last line feed. *)
Theorem unterminated_tail_is_dropped `{Runtime} {S : Type} (callbacks : StreamCallbacks S)
    (r1 r2 : Response) (parts : list string) (tail : string) (failure : option exn) (s : S) :
  Js.includes Js.newline tail = false ->
  body r1 = Some {| chunks := parts ++ [tail]; read_failure := failure |} ->
  body r2 = Some {| chunks := parts; read_failure := failure |} ->
  observe (consumeStream callbacks r1 s) = observe (consumeStream callbacks r2 s).
Proof.
  intros Htail E1 E2.
  rewrite (consumeStream_decode callbacks _ _ _ s E1).
  rewrite (consumeStream_decode callbacks _ _ _ s E2).
  unfold decode_text. rewrite text_of_app. simpl text_of at 2.
  rewrite string_app_nil_r, (lines_of_tail _ _ Htail). reflexivity.
Qed.

(** X2. Empty lines, [d:] lines and [3:] lines carry nothing: taking such a
    line (with its line feed) out of the body, at a line boundary, changes
    neither the callbacks called nor how the call ends. *)
Theorem passed_over_lines_carry_nothing `{Runtime} {S : Type}
    (callbacks : StreamCallbacks S) (r1 r2 : Response) (parts1 parts2 : list string)
    (failure : option exn) (before line after : string) (s : S) :
  Js.is_empty line || Js.startsWith "d:" line || Js.startsWith "3:" line = true ->
  Js.includes Js.newline line = false ->
  rest_of before = "" ->
  body r1 = Some {| chunks := parts1; read_failure := failure |} ->
  text_of parts1 = before +:+ line +:+ String Js.newline after ->
  body r2 = Some {| chunks := parts2; read_failure := failure |} ->
  text_of parts2 = before +:+ after ->
  observe (consumeStream callbacks r1 s) = observe (consumeStream callbacks r2 s).
Proof.
  intros Hline Hnl Hbefore E1 T1 E2 T2.
  rewrite (consumeStream_decode callbacks _ _ _ s E1).
  rewrite (consumeStream_decode callbacks _ _ _ s E2).
  unfold decode_text. rewrite T1, T2.
  rewrite (lines_of_append before (line +:+ String Js.newline after)).
  rewrite (lines_of_append before after), Hbefore.
  change (lines_of ("" +:+ after)) with (lines_of after).
  change (lines_of ("" +:+ (line +:+ String Js.newline after)))
    with (lines_of (line +:+ String Js.newline after)).
  destruct (lines_of_line line after Hnl) as [-> _].
  unfold bind. rewrite (process_lines_passed_over callbacks _ _ _ s Hline).
  reflexivity.
Qed.

Lemma bind_ends {S A B} (Q : res B -> Prop) (m : M S A) (k : A -> M S B) (s : S) :
  Q Hang -> (forall e, Q (Throw e)) -> (forall a s1, Q (k a s1).1) -> Q (bind m k s).1.
Proof.
  intros Hhang Hthrow Hk. unfold bind. destruct (m s) as [[a|e|] s1]; simpl; auto.
Qed.

(** With no stop poll, the [try] block of a [2:] line never asks to
    return. *)
Lemma data_block_goes_on `{Runtime} {S : Type} (callbacks : StreamCallbacks S) :
  shouldStop callbacks = None ->
  forall payload s, (data_block callbacks payload s).1 <> Ok Return.
Proof.
  intros Hpoll payload s. unfold data_block.
  apply bind_ends; [discriminate..|]. intros dataItems s1.
  apply bind_ends; [discriminate..|]. intros _ s2.
  destruct (normalizeDataFrames dataItems) as [conversationId items].
  apply bind_ends; [discriminate..|]. intros _ s3.
  apply bind_ends; [discriminate..|]. intros _ s4.
  unfold stop_or_next, stopIfNeeded. rewrite Hpoll. discriminate.
Qed.

(** X3. A [2:] line never makes the decoder raise by itself. A payload that
    does not parse is skipped: the line only polls for a stop, as a line
    with an unknown tag does. And with no stop poll installed, whatever the
    callbacks of the frame raise is swallowed. *)
Theorem data_frame_failures_are_swallowed `{Runtime} {S : Type}
    (callbacks : StreamCallbacks S) (line : string) (s : S) :
  Js.startsWith "2:" line = true ->
  (forall message,
     Js.is_empty (Js.trim (Js.slice 2 line)) = false ->
     JSON_parse (Js.trim (Js.slice 2 line)) = inl message ->
     process_line callbacks line s = stop_or_next callbacks s) /\
  (shouldStop callbacks = None ->
     forall e, (process_line callbacks line s).1 <> Throw e).
Proof.
  intros H2. apply starts_with_cons in H2 as [rest ->].
  assert (process_line callbacks (String "2" (String ":" rest)) =
          data_line callbacks (String "2" (String ":" rest))) as ->
    by (destruct rest; reflexivity).
  unfold data_line. split.
  - intros message Hne Hbad. rewrite Hne.
    unfold bind, try_catch, data_block, bind, parse. rewrite Hbad. reflexivity.
  - intros Hpoll e.
    assert (forall s1, stop_or_next callbacks s1 = (Ok Next, s1)) as Hnext.
    { intros s1. unfold stop_or_next, stopIfNeeded. rewrite Hpoll. reflexivity. }
    destruct (Js.is_empty _); [discriminate|].
    unfold bind at 1, try_catch.
    pose proof (data_block_goes_on callbacks Hpoll (Js.trim (Js.slice 2 (String "2" (String ":" rest)))) s)
      as Hblock.
    destruct (data_block callbacks _ s) as [[[|]| |] s1]; simpl in *;
      try rewrite Hnext; simpl; congruence.
Qed.

Section MoreFrames.
Context `{Runtime}.

Lemma normalize_frames_from frames conversationId items :
  fold_left normalize_frame frames (conversationId, items) =
  (match (fold_left normalize_frame frames (None, [])).1 with
   | Some cid => Some cid
   | None => conversationId
   end,
   items ++ (fold_left normalize_frame frames (None, [])).2).
Proof.
  revert conversationId items.
  induction frames as [|frame frames IH]; intros conversationId items.
  - simpl. rewrite app_nil_r. reflexivity.
  - cbn [fold_left].
    destruct (normalize_frame (conversationId, items) frame) as [c1 i1] eqn:E1.
    destruct (normalize_frame (None, []) frame) as [c0 i0] eqn:E0.
    rewrite (IH c1 i1), (IH c0 i0).
    assert (c1 = match c0 with Some cid => Some cid | None => conversationId end /\
            i1 = items ++ i0) as [-> ->].
    { revert E1 E0. unfold normalize_frame.
      destruct (negb (Json.truthy frame) || negb (Json.typeof_object frame)).
      { intros. simplify_eq. rewrite app_nil_r. auto. }
      destruct (bool_decide _).
      { destruct (Json.str_field "conversationId" frame);
          intros; simplify_eq; rewrite app_nil_r; auto. }
      repeat match goal with
             | |- context [match ?x with Some _ => _ | None => _ end] => destruct x
             end;
        intros; simplify_eq; rewrite ?app_nil_r; auto. }
    destruct (fold_left normalize_frame frames (None, [])) as [c2 i2]. simpl.
    rewrite app_assoc. destruct c2, c0; reflexivity.
Qed.

(** X4. [normalizeDataFrames] reads the frames of an array in order and one
    by one: for two arrays laid end to end, the items are those of the first
    followed by those of the second, and the conversation id is the one of
    the second when it announces one, else the one of the first. *)
Theorem normalizeDataFrames_app (frames1 frames2 : list json) :
  normalizeDataFrames (JArr (frames1 ++ frames2)) =
  (match (normalizeDataFrames (JArr frames2)).1 with
   | Some cid => Some cid
   | None => (normalizeDataFrames (JArr frames1)).1
   end,
   (normalizeDataFrames (JArr frames1)).2 ++ (normalizeDataFrames (JArr frames2)).2).
Proof.
  unfold normalizeDataFrames. simpl frames_of. rewrite fold_left_app.
  destruct (fold_left normalize_frame frames1 (None, [])) as [c1 i1].
  apply normalize_frames_from.
Qed.

End MoreFrames.

Lemma starts_with_app (p t : string) : Js.startsWith p (p +:+ t) = true.
Proof.
  unfold Js.startsWith. induction p as [|c p IH]; [destruct t; reflexivity|].
  rewrite string_app_cons. simpl. destruct (Ascii.ascii_dec c c); [exact IH | congruence].
Qed.

Lemma starts_with_self (p : string) : Js.startsWith p p = true.
Proof. rewrite <- (string_app_nil_r p) at 2. apply starts_with_app. Qed.

(** X5. [formatStreamItem] gives a line for three kinds of item only: an
    item whose [type] is the string [app_creation_started] or [app_created],
    or a string that starts with [tool_creation_]. For anything else (no
    object, no string [type], another type) it gives [null]. A line it gives
    begins with the item's type. *)
Theorem formatStreamItem_lines (item : ResponseItem) :
  (is_Some (formatStreamItem item) <->
   exists type,
     Json.str_field "type" item = Some type /\
     (type = "app_creation_started" \/ type = "app_created" \/
      Js.startsWith "tool_creation_" type = true)) /\
  (forall line,
     formatStreamItem item = Some line ->
     exists type, Json.str_field "type" item = Some type /\ Js.startsWith type line = true).
Proof.
  unfold formatStreamItem.
  destruct (Json.str_field "type" item) as [type|] eqn:Htype.
  2: { split.
       - split; [|intros (type & [=] & _)].
         destruct (_ || _); intros [? [=]].
       - intros line. destruct (_ || _); discriminate. }
  assert (negb (Json.truthy item) || negb (Json.typeof_object item) = false) as ->.
  { destruct item; try discriminate. reflexivity. }
  case_bool_decide as Hstarted.
  { subst type. split.
    - split; [intros _; eexists; split; [reflexivity | auto] | intros _; eexists; reflexivity].
    - intros line [= <-]. eexists. split; [reflexivity|].
      apply (starts_with_app "app_creation_started" (": " +:+ _)). }
  case_bool_decide as Hcreated.
  { subst type. split.
    - split; [intros _; eexists; split; [reflexivity | auto]|].
      intros _. destruct (ChatWorker.nonempty _); eexists; reflexivity.
    - intros line Hline. eexists. split; [reflexivity|].
      destruct (ChatWorker.nonempty _); injection Hline as <-;
        apply (starts_with_app "app_created" (": " +:+ _)). }
  destruct (Js.startsWith "tool_creation_" type) eqn:Htool.
  - split.
    + split; [intros _; eexists; split; [reflexivity | auto]|].
      intros _. destruct (Json.truthy _); eexists; reflexivity.
    + intros line Hline. exists type. split; [reflexivity|].
      destruct (Json.truthy _); injection Hline as <-;
        [apply starts_with_app | apply starts_with_self].
  - split.
    + split; [intros [? [=]]|].
      intros (type' & [= <-] & [?|[?|?]]); congruence.
    + discriminate.
Qed.

Lemma token_count_spec camel snake counts n :
  token_count camel snake counts = Some n <->
  Json.as_number (Json.get camel counts) = Some n \/
  (Json.as_number (Json.get camel counts) = None /\
   Json.as_number (Json.get snake counts) = Some n).
Proof.
  unfold token_count. destruct (Json.as_number (Json.get camel counts)) as [m|].
  - split; [auto | intros [?|[? _]]; [assumption | discriminate]].
  - split; [auto | intros [?|[_ ?]]; [discriminate | assumption]].
Qed.

Lemma extractUsage_frames_found frames usage :
  extractUsage_frames frames = Some usage ->
  exists frame counts,
    frame ∈ frames /\
    Json.str_field "type" frame = Some "usage" /\
    Json.get "usage" frame = Some counts /\
    usage = {| promptTokens := token_count "promptTokens" "prompt_tokens" counts;
               completionTokens :=
                 token_count "completionTokens" "completion_tokens" counts;
               totalTokens := token_count "totalTokens" "total_tokens" counts |}.
Proof.
  induction frames as [|frame frames IH]; [discriminate|].
  cbn [extractUsage_frames].
  assert (extractUsage_frames frames = Some usage ->
          exists frame0 counts,
            frame0 ∈ frame :: frames /\
            Json.str_field "type" frame0 = Some "usage" /\
            Json.get "usage" frame0 = Some counts /\
            usage = {| promptTokens := token_count "promptTokens" "prompt_tokens" counts;
                       completionTokens :=
                         token_count "completionTokens" "completion_tokens" counts;
                       totalTokens := token_count "totalTokens" "total_tokens" counts |})
    as Hlater.
  { intros Hrest. destruct (IH Hrest) as (frame0 & counts & Hin & Hfound).
    exists frame0, counts. split; [apply list_elem_of_further, Hin | exact Hfound]. }
  destruct (negb (Json.truthy frame) || negb (Json.typeof_object frame)); [exact Hlater|].
  case_bool_decide as Htype; [|exact Hlater]. simpl negb. cbv iota.
  destruct (Json.get "usage" frame) as [counts|] eqn:Hcounts; [|exact Hlater].
  destruct (Json.truthy counts); [|exact Hlater].
  intros [= <-]. exists frame, counts.
  split; [apply list_elem_of_here|]. split; [exact Htype|]. split; [exact Hcounts | reflexivity].
Qed.

(** X29. The usage [consumeStream] reports is read off the stream. When
    [extractUsage] gives a usage, the data has a frame of type [usage] with
    a [usage] object, and each count reported is the number that object
    holds under the camel-case name, or, when it holds no number there,
    under the snake-case name; a count with a number under neither name is
    left out. Without a frame of type [usage] there is no usage. *)
Theorem usage_is_read_off_the_stream (raw : json) (usage : Usage) :
  extractUsage raw = Some usage ->
  exists frame counts,
    frame ∈ frames_of raw /\
    Json.str_field "type" frame = Some "usage" /\
    Json.get "usage" frame = Some counts /\
    (forall n, promptTokens usage = Some n <->
       Json.as_number (Json.get "promptTokens" counts) = Some n \/
       (Json.as_number (Json.get "promptTokens" counts) = None /\
        Json.as_number (Json.get "prompt_tokens" counts) = Some n)) /\
    (forall n, completionTokens usage = Some n <->
       Json.as_number (Json.get "completionTokens" counts) = Some n \/
       (Json.as_number (Json.get "completionTokens" counts) = None /\
        Json.as_number (Json.get "completion_tokens" counts) = Some n)) /\
    (forall n, totalTokens usage = Some n <->
       Json.as_number (Json.get "totalTokens" counts) = Some n \/
       (Json.as_number (Json.get "totalTokens" counts) = None /\
        Json.as_number (Json.get "total_tokens" counts) = Some n)).
Proof.
  intros Hsome. destruct (extractUsage_frames_found _ _ Hsome)
    as (frame & counts & Hin & Htype & Hcounts & ->).
  exists frame, counts. repeat split; try assumption; apply token_count_spec.
Qed.

(* ===================================================================== *)
(** ** More about the tool sandbox *)
(* ===================================================================== *)

Lemma modify_runs {S} (f : S -> S) (s : S) : modify f s = (Ok tt, f s).
Proof. reflexivity. Qed.

Lemma ret_runs {S A} (a : A) (s : S) : ret a s = (Ok a, s).
Proof. reflexivity. Qed.

Lemma get_state_runs {S} (s : S) : get_state s = (Ok s, s).
Proof. reflexivity. Qed.

Section MoreSandbox.
Context `{Host}.

Lemma getAllowedTools_caches_only baseUrl token s :
  same_but_caches s (Tools.getAllowedTools baseUrl token s).2.
Proof.
  apply (getAllowedTools_kept same_but_caches); [| |done..].
  - intros s0. repeat split.
  - intros a b c (? & ? & ? & ? & ?) (? & ? & ? & ? & ?). repeat split; congruence.
Qed.

(** X6. The manifest gate. A call whose name the manifest does not list is
    answered with [Tool not in manifest: <name>], also when it names one of
    the six tools: no tool runs, and files, read set and subprocess log are
    as before. *)
Theorem tool_outside_manifest_is_refused (call : ToolCall) (ctx : ToolExecutionContext)
    (s s1 : Sandbox) (allowed : list string) :
  Tools.getAllowedTools (baseUrl ctx) (token ctx) s = (Ok allowed, s1) ->
  name call ∉ allowed ->
  Tools.executeLocalTool call ctx s =
    (Ok (Tools.failed ("Tool not in manifest: " +:+ name call)), s1) /\
  fs s1 = fs s /\ readSet s1 = readSet s /\ spawned s1 = spawned s.
Proof.
  intros Hallowed Hout.
  pose proof (getAllowedTools_caches_only (baseUrl ctx) (token ctx) s) as Hsame.
  rewrite Hallowed in Hsame. destruct Hsame as (? & _ & ? & ? & _). split; [|auto].
  unfold Tools.executeLocalTool, try_catch, Tools.dispatch.
  rewrite (bind_ok _ _ _ _ _ Hallowed).
  rewrite bool_decide_eq_false_2 by assumption. reflexivity.
Qed.

Lemma getAllowedTools_runs baseUrl token s :
  Tools.getAllowedTools baseUrl token s =
  let cacheKey := Tools.strip_trailing_slash baseUrl in
  match allowedToolsCache s !! cacheKey with
  | Some settled => Tools.of_result settled s
  | None =>
      let promise := default (fetchToolManifest baseUrl token) (manifestCache s !! cacheKey) in
      Tools.of_result promise
        (set_caches (<[cacheKey := promise]> (manifestCache s))
                    (<[cacheKey := promise]> (allowedToolsCache s)) s)
  end.
Proof.
  unfold Tools.getAllowedTools, bind, get_state. cbv zeta.
  destruct (allowedToolsCache s !! _); [reflexivity|].
  destruct (manifestCache s !! _); reflexivity.
Qed.

(** X7. The manifest is asked for once for each endpoint. After a first call
    of [getAllowedTools], a second one for the same base URL (a trailing
    slash apart) gives the same answer, a failure included, and leaves the
    state as it is, whatever token it is given. *)
Theorem manifest_is_fetched_once (baseUrl baseUrl' token token' : string) (s : Sandbox) :
  Tools.strip_trailing_slash baseUrl' = Tools.strip_trailing_slash baseUrl ->
  Tools.getAllowedTools baseUrl' token' (Tools.getAllowedTools baseUrl token s).2 =
  Tools.getAllowedTools baseUrl token s.
Proof.
  intros Hkey.
  assert (forall A (r : exn + A) (s0 : Sandbox), (Tools.of_result r s0).2 = s0) as Hstate
    by (intros A [e|a] s0; reflexivity).
  rewrite (getAllowedTools_runs baseUrl token s). cbv zeta.
  destruct (allowedToolsCache s !! Tools.strip_trailing_slash baseUrl)
    as [settled|] eqn:Hcache.
  - rewrite Hstate, getAllowedTools_runs. cbv zeta. rewrite Hkey, Hcache. reflexivity.
  - rewrite Hstate, getAllowedTools_runs. cbv zeta. rewrite Hkey.
    simpl allowedToolsCache. rewrite lookup_insert_eq. reflexivity.
Qed.



(** X9. The checks of [apply_patch] cover the paths it finds on [+++ b/]
    lines and nothing else. When a patch has no such line (its new-file
    lines are written without the [b/] prefix, or name [/dev/null] because
    the patch only deletes files), no path is resolved and no read is asked
    for: [git apply] is run on the patch, its files are what it leaves, and
    the call reports an empty file list, or git's error output. *)
Theorem patch_without_paths_is_unchecked (ctx : ToolExecutionContext) (args : json)
    (s : Sandbox) :
  Js.is_empty (string_arg "patch" "" args) = false ->
  Tools.parsePatchPaths (string_arg "patch" "" args) = [] ->
  let applied := git_apply (rootDir ctx) (string_arg "patch" "" args) (fs s) (dirs s) in
  let code := applied.1.1.1 in
  let stderr := applied.1.1.2 in
  Tools.applyPatchTool ctx args s =
  (if bool_decide (code = 0%Z) then Ok (JObj [("files", JArr [])])
   else Throw (Error (if Js.is_empty stderr then "git apply failed" else stderr)),
   set_disk applied.1.2 applied.2 (log_spawn Tools.git_apply_argv s)).
Proof.
  intros Hpatch Hnone applied code stderr. subst code stderr. unfold Tools.applyPatchTool.
  rewrite Hpatch, Hnone. simpl Tools.capture_before.
  rewrite (bind_ok _ _ _ _ _ (ret_runs _ _)).
  rewrite (bind_ok _ _ _ _ _ (modify_runs _ _)).
  rewrite (bind_ok _ _ _ _ _ (get_state_runs _)).
  change (fs (log_spawn Tools.git_apply_argv s)) with (fs s).
  change (dirs (log_spawn Tools.git_apply_argv s)) with (dirs s).
  fold applied. destruct applied as [[[code stderr] fs'] dirs'].
  rewrite (bind_ok _ _ _ _ _ (modify_runs _ _)). simpl.
  destruct (bool_decide (code = 0%Z)); reflexivity.
Qed.

Lemma split_line_feed (a b : string) :
  Js.split Js.newline (a +:+ String Js.newline b) =
  Js.split Js.newline a ++ Js.split Js.newline b.
Proof.
  induction a as [|c a IH].
  - reflexivity.
  - rewrite string_app_cons. simpl. rewrite IH.
    destruct (Ascii.eqb c Js.newline); [reflexivity|].
    pose proof (split_nonempty Js.newline a).
    destruct (Js.split Js.newline a); [congruence | reflexivity].
Qed.

Lemma trimEnd_cons a s :
  starts_no_white a -> Js.trimEnd (String a s) = String a (Js.trimEnd s).
Proof.
  intros (H1 & H2 & H3). cbn [Js.trimEnd].
  destruct (Js.trimEnd s) as [|b [|c [|d t]]]; rewrite ?H1, ?H2, ?H3; reflexivity.
Qed.

Lemma trimStart_cons a s :
  starts_no_white a -> Js.trimStart (String a s) = String a s.
Proof.
  intros (H1 & H2 & H3). cbn [Js.trimStart]. rewrite H1.
  destruct s as [|b [|c s]]; rewrite ?H2, ?H3; reflexivity.
Qed.

Lemma letter_b_starts_no_white : starts_no_white "b".
Proof. repeat split. Qed.

Lemma slash_starts_no_white : starts_no_white "/".
Proof. repeat split. Qed.

(** X10. [parsePatchPaths] reads a patch line by line, in order: the paths
    of two patches joined by a line feed are the paths of the first followed
    by the paths of the second. A line [+++ b/<path>] gives that path, white
    space at its end removed; the empty patch gives none. *)
Theorem parsePatchPaths_by_line (patch1 patch2 path : string) :
  Tools.parsePatchPaths (patch1 +:+ String Js.newline patch2) =
    Tools.parsePatchPaths patch1 ++ Tools.parsePatchPaths patch2 /\
  (Js.includes Js.newline path = false ->
   Tools.parsePatchPaths ("+++ b/" +:+ path) = [Js.trimEnd path]) /\
  Tools.parsePatchPaths "" = [].
Proof.
  split; [|split].
  - unfold Tools.parsePatchPaths.
    rewrite split_line_feed, map_app, concat_app. reflexivity.
  - intros Hpath. unfold Tools.parsePatchPaths.
    rewrite split_no_sep_end.
    2: { rewrite includes_app, Hpath. reflexivity. }
    cbn [List.map concat]. rewrite app_nil_r. unfold Tools.patch_path_of_line.
    assert (Js.startsWith "+++ " ("+++ b/" +:+ path) = true) as ->
      by apply (starts_with_app "+++ " ("b/" +:+ path)).
    change (Js.slice 4 ("+++ b/" +:+ path)) with (String "b" (String "/" path)).
    unfold Js.trim. rewrite (trimStart_cons _ _ letter_b_starts_no_white).
    rewrite (trimEnd_cons _ _ letter_b_starts_no_white).
    rewrite (trimEnd_cons _ _ slash_starts_no_white).
    assert (Js.startsWith "b/" (String "b" (String "/" (Js.trimEnd path))) = true) as ->
      by apply (starts_with_app "b/" (Js.trimEnd path)).
    reflexivity.
  - reflexivity.
Qed.

Lemma read_changed_blank root lines files s :
  Forall (fun line => Js.is_empty (Js.trim line) = true) lines ->
  Tools.read_changed root lines files s = (Ok files, s).
Proof.
  induction 1 as [|line lines Hline _ IH]; [reflexivity|].
  simpl. rewrite Hline. exact IH.
Qed.

Lemma collectChangedFiles_runs root s :
  Tools.collectChangedFiles root s =
  let s1 := log_spawn Tools.git_status_argv s in
  let status := git_status root (fs s) in
  if negb (bool_decide (status.1.1 = 0%Z))
  then (Throw (Error (if Js.is_empty status.2 then "git status failed" else status.2)), s1)
  else
    (let* files := Tools.read_changed root (Js.split Js.newline status.1.2) ∅ in
     if bool_decide (files = ∅) then throw (Error "No changes detected") else ret files) s1.
Proof.
  unfold Tools.collectChangedFiles.
  rewrite (bind_ok _ _ _ _ _ (modify_runs _ _)).
  rewrite (bind_ok _ _ _ _ _ (get_state_runs _)).
  change (fs (log_spawn Tools.git_status_argv s)) with (fs s). cbv zeta.
  destruct (git_status root (fs s)) as [[code stdout] stderr]. simpl.
  destruct (negb _); reflexivity.
Qed.

(** X11. [deploy] commits nothing when there is nothing to commit: when
    [git status] succeeds and prints only blank lines, the call fails with
    [No changes detected]; it has started [git status] and nothing else. *)
Theorem deploy_needs_changes (ctx : ToolExecutionContext) (args : json) (s : Sandbox)
    (stdout stderr : string) :
  git_status (rootDir ctx) (fs s) = (0%Z, stdout, stderr) ->
  Forall (fun line => Js.is_empty (Js.trim line) = true) (Js.split Js.newline stdout) ->
  Tools.deployTool ctx args s =
  (Throw (Error "No changes detected"), log_spawn Tools.git_status_argv s).
Proof.
  intros Hstatus Hblank. unfold Tools.deployTool.
  apply bind_throw. rewrite collectChangedFiles_runs. cbv zeta. rewrite Hstatus. simpl.
  rewrite (bind_ok _ _ _ _ _ (read_changed_blank _ _ _ _ Hblank)). reflexivity.
Qed.

(** X12. [deploy] does not take deletions: when the first line of
    [git status] that is not blank has a [D] among its two status letters,
    the call fails with [Deletion not supported: <path>], the path being the
    rest of the line from its fourth character on, trimmed. *)
Theorem deploy_refuses_deletions (ctx : ToolExecutionContext) (args : json) (s : Sandbox)
    (stdout stderr : string) (blanks rest : list string) (line : string) :
  git_status (rootDir ctx) (fs s) = (0%Z, stdout, stderr) ->
  Js.split Js.newline stdout = blanks ++ line :: rest ->
  Forall (fun line => Js.is_empty (Js.trim line) = true) blanks ->
  Js.is_empty (Js.trim line) = false ->
  Js.includes "D"%char (Js.take 2 line) = true ->
  Tools.deployTool ctx args s =
  (Throw (Error ("Deletion not supported: " +:+ Js.trim (Js.slice 3 line))),
   log_spawn Tools.git_status_argv s).
Proof.
  intros Hstatus Hlines Hblank Hline Hdeleted. unfold Tools.deployTool.
  apply bind_throw. rewrite collectChangedFiles_runs. cbv zeta. rewrite Hstatus. simpl.
  apply bind_throw. rewrite Hlines. clear Hlines.
  induction Hblank as [|blank blanks Hb _ IH]; cbn [app Tools.read_changed].
  - rewrite Hline, Hdeleted. reflexivity.
  - rewrite Hb. exact IH.
Qed.







(** X15. A path the sandbox accepts lies in the root directory: the
    directory names of the resolved path are those of the root, followed by
    names that are neither empty, [.] nor [..] and hold no separator.
    Resolving does not touch the state. *)
Theorem accepted_path_is_inside_root (ctx : ToolExecutionContext) (filePath resolved : string)
    (s s' : Sandbox) :
  Tools.resolvePath (rootDir ctx) filePath s = (Ok resolved, s') ->
  exists below,
    Forall clean below /\
    resolved =
      Path.of_segments (Path.normalize (Path.segments (rootDir ctx)) ++ below) /\
    s' = s.
Proof.
  intros Hrun.
  destruct (Tools.escapes (rootDir ctx) filePath) eqn:Hesc.
  { rewrite (resolvePath_escape ctx _ s Hesc) in Hrun. discriminate. }
  rewrite (resolvePath_inside ctx _ s Hesc) in Hrun. injection Hrun as <- <-.
  destruct (not_escaping_is_inside _ _ Hesc) as [below Hbelow].
  exists below. split; [|split; [|reflexivity]].
  - pose proof (resolve_segments_clean (rootDir ctx) filePath) as Hclean.
    rewrite Hbelow in Hclean. apply Forall_app in Hclean. tauto.
  - unfold Path.resolve. rewrite Hbelow. reflexivity.
Qed.

Lemma is_absolute_of_segments xs : Path.isAbsolute (Path.of_segments xs) = true.
Proof. apply (starts_with_app "/" _). Qed.

(** X16. Resolving a path gives a canonical name. A resolved path resolves
    to itself, and the sandbox accepts it exactly when it accepts the path
    it came from: the read set, which holds resolved paths, has one entry
    for a file however the path to it was spelled. *)
Theorem resolve_is_idempotent (root filePath : string) :
  Path.resolve root (Path.resolve root filePath) = Path.resolve root filePath /\
  Tools.escapes root (Path.resolve root filePath) = Tools.escapes root filePath.
Proof.
  assert (Path.resolve root (Path.resolve root filePath) = Path.resolve root filePath) as Hidem.
  { unfold Path.resolve at 1 3. f_equal. unfold Path.resolve, Path.resolve_segments at 1.
    rewrite is_absolute_of_segments.
    apply segments_of_segments, resolve_segments_clean. }
  split; [exact Hidem|]. unfold Tools.escapes. rewrite Hidem. reflexivity.
Qed.
End MoreSandbox.

(* ===================================================================== *)
(** ** The run comparison *)
(* ===================================================================== *)

Section Comparison.
Import Compare.

Lemma concat_nil_iff {A} (ls : list (list A)) : concat ls = [] <-> Forall (fun l => l = []) ls.
Proof.
  induction ls as [|l ls IH]; simpl.
  - split; [constructor | reflexivity].
  - split.
    + intros Happ. apply app_eq_nil in Happ as [-> Hrest]. constructor; [reflexivity | tauto].
    + intros Hall. inversion Hall; subst. simpl. tauto.
Qed.

Lemma difference_at_nil a b i :
  difference_at a b i = [] <->
  Js.join "," (summarizeCalls a i) = Js.join "," (summarizeCalls b i).
Proof.
  unfold difference_at. case_bool_decide; split; try tauto; discriminate.
Qed.

Lemma summarizeCalls_beyond run i : length (results run) <= i -> summarizeCalls run i = [].
Proof.
  intros Hi. unfold summarizeCalls. rewrite lookup_ge_None_2 by assumption. reflexivity.
Qed.

(** X17. What [compareRuns] compares. Two runs compare equal exactly when,
    prompt by prompt, the names of their tool calls joined by commas are the
    same text; a prompt one run does not have counts as a prompt without
    tool calls. Arguments, outputs and the order of results apart from
    their position play no part. *)
Theorem compareRuns_ok_iff (a b : RunSummary) :
  cmp_ok (compareRuns a b) = true <->
  forall i, Js.join "," (summarizeCalls a i) = Js.join "," (summarizeCalls b i).
Proof.
  unfold compareRuns. simpl. rewrite bool_decide_eq_true, length_zero_iff_nil.
  rewrite concat_nil_iff, Forall_map, Forall_forall. split.
  - intros Hall i.
    destruct (decide (i < Nat.max (length (results a)) (length (results b)))) as [Hi|Hi].
    + apply difference_at_nil, Hall, elem_of_seq. lia.
    + rewrite !summarizeCalls_beyond by lia. reflexivity.
  - intros Hall i _. apply difference_at_nil, Hall.
Qed.

(** X18. A run compared with itself shows no difference. *)
Theorem compareRuns_refl (a : RunSummary) :
  compareRuns a a = {| cmp_ok := true; differences := [] |}.
Proof.
  unfold compareRuns.
  assert (concat (List.map (difference_at a a)
                    (seq 0 (Nat.max (length (results a)) (length (results a))))) = [])
    as ->; [|reflexivity].
  apply concat_nil_iff, Forall_map, Forall_forall. intros i _.
  apply difference_at_nil. reflexivity.
Qed.

Lemma difference_at_length a b i :
  length (difference_at a b i) = length (difference_at b a i).
Proof.
  unfold difference_at. repeat case_bool_decide; try reflexivity; congruence.
Qed.

(** X19. The verdict of [compareRuns] does not depend on the order of its
    arguments: the two orders agree on whether the runs differ and on the
    number of prompts at which they do. *)
Theorem compareRuns_sym (a b : RunSummary) :
  cmp_ok (compareRuns a b) = cmp_ok (compareRuns b a) /\
  length (differences (compareRuns a b)) = length (differences (compareRuns b a)).
Proof.
  assert (length (differences (compareRuns a b)) = length (differences (compareRuns b a)))
    as Hlength.
  { unfold compareRuns. simpl. rewrite (Nat.max_comm (length (results b))).
    induction (seq 0 _) as [|i rest IH]; [reflexivity|].
    simpl. rewrite !length_app, IH, difference_at_length. reflexivity. }
  split; [|exact Hlength].
  unfold compareRuns in *. simpl in *. rewrite Hlength. reflexivity.
Qed.

End Comparison.

(* ===================================================================== *)
(** ** What a turn never undoes *)
(* ===================================================================== *)

Section Keeps.
Context {S : Type} (R : S -> S -> Prop).
Context (R_refl : forall s, R s s) (R_trans : forall a b c, R a b -> R b c -> R a c).

Lemma keeps_ret {A} (a : A) : keeps R (ret a).
Proof using R_refl. intros s. apply R_refl. Qed.

Lemma keeps_throw {A} (e : exn) : keeps R (@throw S A e).
Proof using R_refl. intros s. apply R_refl. Qed.

Lemma keeps_hang {A} : keeps R (@hang S A).
Proof using R_refl. intros s. apply R_refl. Qed.

Lemma keeps_get_state : keeps R get_state.
Proof using R_refl. intros s. apply R_refl. Qed.

Lemma keeps_modify (f : S -> S) : (forall s, R s (f s)) -> keeps R (modify f).
Proof. intros Hf s. apply Hf. Qed.

Lemma keeps_bind {A B} (m : M S A) (k : A -> M S B) :
  keeps R m -> (forall a, keeps R (k a)) -> keeps R (bind m k).
Proof using R_trans.
  intros Hm Hk s. unfold bind. pose proof (Hm s) as Hs.
  destruct (m s) as [[a| |] s1]; simpl in *; [|assumption..].
  apply (R_trans _ _ _ Hs), Hk.
Qed.

Lemma keeps_try_catch {A} (m : M S A) (handler : exn -> M S A) :
  keeps R m -> (forall e, keeps R (handler e)) -> keeps R (try_catch m handler).
Proof using R_trans.
  intros Hm Hh s. unfold try_catch. pose proof (Hm s) as Hs.
  destruct (m s) as [[a|e|] s1]; simpl in *; [assumption| |assumption].
  apply (R_trans _ _ _ Hs), Hh.
Qed.

Lemma keeps_call1 {A} (cb : option (A -> M S unit)) (a : A) :
  (forall f, cb = Some f -> keeps R (f a)) -> keeps R (call1 cb a).
Proof using R_refl.
  intros Hcb. destruct cb as [f|]; [apply Hcb; reflexivity | apply keeps_ret].
Qed.

Lemma keeps_call0 (cb : option (M S unit)) :
  (forall f, cb = Some f -> keeps R f) -> keeps R (call0 cb).
Proof using R_refl.
  intros Hcb. destruct cb as [f|]; [apply Hcb; reflexivity | apply keeps_ret].
Qed.

End Keeps.

Ltac keeps_step :=
  cbv zeta;
  lazymatch goal with
  | |- keeps _ (bind _ _) => apply keeps_bind; [assumption | | intros ?]
  | |- keeps _ (try_catch _ _) => apply keeps_try_catch; [assumption | | intros ?]
  | |- keeps _ (ret _) => apply keeps_ret; assumption
  | |- keeps _ (throw _) => apply keeps_throw; assumption
  | |- keeps _ hang => apply keeps_hang; assumption
  | |- keeps _ get_state => apply keeps_get_state; assumption
  | |- keeps _ (if ?b then _ else _) => destruct b
  | |- keeps _ (match ?x with _ => _ end) => destruct x
  end.

Section DecoderKeeps.
Context `{Runtime} {S : Type} (R : S -> S -> Prop).
Context (R_refl : forall s, R s s) (R_trans : forall a b c, R a b -> R b c -> R a c).
Context (callbacks : StreamCallbacks S).
Context (H_text : forall f d, onTextDelta callbacks = Some f -> keeps R (f d)).
Context (H_reasoning : forall f d, onReasoningDelta callbacks = Some f -> keeps R (f d)).
Context (H_conversation : forall f d, onConversationId callbacks = Some f -> keeps R (f d)).
Context (H_items : forall f d, onItems callbacks = Some f -> keeps R (f d)).
Context (H_usage : forall f d, onUsage callbacks = Some f -> keeps R (f d)).
Context (H_poll : forall f, shouldStop callbacks = Some f -> keeps R f).
Context (H_stop : forall f, onStop callbacks = Some f -> keeps R f).

Lemma stop_or_next_keeps : keeps R (stop_or_next callbacks).
Proof using R_refl R_trans H_poll H_stop.
  unfold stop_or_next, stopIfNeeded.
  keeps_step; [|keeps_step].
  destruct (shouldStop callbacks) as [poll|] eqn:Hp; [|keeps_step].
  keeps_step; [apply H_poll; reflexivity|].
  keeps_step; [keeps_step|].
  keeps_step; [|keeps_step].
  apply keeps_call0; [assumption|]. intros f Hf. apply H_stop. exact Hf.
Qed.

Lemma parse_keeps payload : keeps R (@parse _ S payload).
Proof using R_refl. unfold parse. keeps_step; keeps_step. Qed.

Lemma delta_line_keeps cb line :
  (forall f d, cb = Some f -> keeps R (f d)) -> keeps R (delta_line cb line).
Proof using R_refl R_trans.
  intros Hcb. unfold delta_line. keeps_step; [keeps_step|].
  keeps_step; [apply parse_keeps|].
  keeps_step; try (keeps_step; fail).
  keeps_step; [|keeps_step].
  apply keeps_call1; [assumption|]. intros f Hf. apply Hcb. exact Hf.
Qed.

Lemma data_block_keeps payload : keeps R (data_block callbacks payload).
Proof using All.
  unfold data_block.
  keeps_step; [apply parse_keeps|].
  keeps_step.
  { destruct (extractUsage a) as [usage|]; [|keeps_step].
    apply keeps_call1; [assumption|]. intros f Hf. apply H_usage. exact Hf. }
  destruct (normalizeDataFrames a) as [cid batch].
  keeps_step.
  { destruct cid as [cid|]; [|keeps_step].
    keeps_step; [keeps_step|].
    apply keeps_call1; [assumption|]. intros f Hf. apply H_conversation. exact Hf. }
  keeps_step; [|apply stop_or_next_keeps].
  keeps_step; [|keeps_step].
  apply keeps_call1; [assumption|]. intros f Hf. apply H_items. exact Hf.
Qed.

Lemma process_line_keeps line : keeps R (process_line callbacks line).
Proof using All.
  unfold process_line.
  keeps_step; [keeps_step|].
  keeps_step; [apply delta_line_keeps; assumption|].
  keeps_step; [apply delta_line_keeps; assumption|].
  keeps_step; [keeps_step|].
  keeps_step.
  { intros s. rewrite error_line_silent. apply R_refl. }
  keeps_step; [|apply stop_or_next_keeps].
  unfold data_line. keeps_step; [keeps_step|].
  keeps_step.
  - keeps_step; [apply data_block_keeps | keeps_step].
  - keeps_step; [apply stop_or_next_keeps | keeps_step].
Qed.

Lemma process_lines_keeps lines : keeps R (process_lines callbacks lines).
Proof using All.
  induction lines as [|line rest IH]; simpl; [keeps_step|].
  keeps_step; [apply process_line_keeps|].
  keeps_step; [exact IH | keeps_step].
Qed.

Lemma read_loop_keeps pending failure remainder :
  keeps R (read_loop callbacks pending failure remainder).
Proof using All.
  revert remainder. induction pending as [|chunk rest IH]; intros remainder; simpl.
  - destruct failure; keeps_step.
  - destruct (Js.pop _) as [lines last].
    keeps_step; [apply process_lines_keeps|].
    keeps_step; [apply IH | keeps_step].
Qed.

Lemma consumeStream_keeps response : keeps R (consumeStream callbacks response).
Proof using All.
  unfold consumeStream. destruct (body response); [apply read_loop_keeps | keeps_step].
Qed.

End DecoderKeeps.

Section TurnKeeps.
Context `{Runtime} `{Host} `{Rendering}.

(** A tool call never takes a path out of the read set. *)
Lemma executeLocalTool_remembers call ctx s :
  readSet s ⊆ readSet (Tools.executeLocalTool call ctx s).2.
Proof.
  apply (executeLocalTool_kept (fun s s' => readSet s ⊆ readSet s')); try done.
  - intros a b c Hab Hbc. etrans; eassumption.
  - intros resolved s0. simpl. set_solver.
Qed.

Lemma carried_on_refl w : carried_on w w.
Proof. split; [|split]; [repeat split; reflexivity.. | unfold remembers; reflexivity]. Qed.

Lemma carried_on_trans a b c : carried_on a b -> carried_on b c -> carried_on a c.
Proof.
  intros [(I1 & U1 & T1 & Q1) [(B1 & M1 & L1 & E1 & A1 & C1) S1]]
         [(I2 & U2 & T2 & Q2) [(B2 & M2 & L2 & E2 & A2 & C2) S2]].
  split; [repeat split; etrans; eassumption|].
  split; [|unfold remembers in *; etrans; eassumption].
  repeat split; try congruence.
  - intros app Happ. rewrite <- (A1 app Happ). apply (A2 app). rewrite (A1 app Happ). exact Happ.
  - intros cid Hcid. rewrite <- (C1 cid Hcid). apply (C2 cid). rewrite (C1 cid Hcid). exact Hcid.
Qed.

Abbreviation calm := (keeps carried_on).

Ltac calm_step :=
  first [ keeps_step
        | apply (keeps_bind _ carried_on_trans); [ | intros ?] ].

(** The worker after a step that touches neither the sandbox nor what a
    turn leaves alone, and adds to the logs at most. *)
Ltac carried :=
  split; [repeat split; simpl; solve [reflexivity | apply prefix_app_r; reflexivity]|];
  split; [repeat split; auto | unfold remembers; simpl; reflexivity].

Ltac calm_modify := apply keeps_modify; intros w; carried.

Lemma emit_calm e : calm (ChatWorker.emit e).
Proof. unfold ChatWorker.emit. calm_modify. Qed.

Lemma appendLine_calm line : calm (ChatWorker.appendLine line).
Proof. apply emit_calm. Qed.

Lemma emitState_calm : calm ChatWorker.emitState.
Proof.
  pose proof carried_on_refl. unfold ChatWorker.emitState.
  calm_step; [keeps_step | apply emit_calm].
Qed.

Lemma set_streamingText_calm t : calm (modify (ChatWorker.set_streamingText t)).
Proof. calm_modify. Qed.

Lemma updateStreaming_calm t : calm (ChatWorker.updateStreaming t).
Proof.
  unfold ChatWorker.updateStreaming.
  calm_step; [apply set_streamingText_calm | apply emit_calm].
Qed.

Lemma clearStreaming_calm : calm ChatWorker.clearStreaming.
Proof.
  unfold ChatWorker.clearStreaming.
  calm_step; [apply set_streamingText_calm | apply emit_calm].
Qed.

Lemma recordHistory_calm role type t : calm (ChatWorker.recordHistory role type t).
Proof. unfold ChatWorker.recordHistory. calm_modify. Qed.

Lemma push_item_calm item : calm (ChatWorker.push_item item).
Proof. unfold ChatWorker.push_item. calm_modify. Qed.

Lemma chatRequest_calm body : calm (ChatWorker.chatRequest body).
Proof.
  intros w. unfold ChatWorker.chatRequest.
  destruct (remote w) as [|[e|response] rest]; simpl; carried.
Qed.

Lemma on_text_delta_calm delta : calm (ChatWorker.on_text_delta delta).
Proof.
  pose proof carried_on_refl. unfold ChatWorker.on_text_delta.
  calm_step; [keeps_step | apply updateStreaming_calm].
Qed.

Lemma flush_streaming_calm : calm ChatWorker.flush_streaming.
Proof.
  pose proof carried_on_refl. unfold ChatWorker.flush_streaming.
  calm_step; [keeps_step|].
  calm_step; [|apply clearStreaming_calm].
  keeps_step; [|keeps_step].
  calm_step; [apply appendLine_calm | apply recordHistory_calm].
Qed.

Lemma on_stream_error_calm e : calm (ChatWorker.on_stream_error e).
Proof.
  unfold ChatWorker.on_stream_error.
  calm_step; [apply appendLine_calm | apply clearStreaming_calm].
Qed.

Lemma formatItem_calm item : calm (ChatWorker.formatItem item).
Proof.
  pose proof carried_on_refl. unfold ChatWorker.formatItem.
  keeps_step; [keeps_step|]. keeps_step; keeps_step.
Qed.

Lemma show_item_calm item : calm (ChatWorker.show_item item).
Proof.
  pose proof carried_on_refl. unfold ChatWorker.show_item.
  calm_step; [apply formatItem_calm|].
  keeps_step; [apply appendLine_calm | keeps_step].
Qed.

Lemma recordHistoryFromItem_calm item : calm (ChatWorker.recordHistoryFromItem item).
Proof.
  pose proof carried_on_refl. unfold ChatWorker.recordHistoryFromItem.
  keeps_step.
  { keeps_step; [keeps_step|]. keeps_step; [keeps_step | apply recordHistory_calm]. }
  keeps_step; [apply recordHistory_calm|].
  keeps_step; [apply recordHistory_calm | keeps_step].
Qed.

(** An app id is taken from the stream only while none is known. *)
Lemma maybeCaptureAppId_calm batch : calm (ChatWorker.maybeCaptureAppId batch).
Proof.
  intros w. unfold ChatWorker.maybeCaptureAppId, bind, get_state.
  destruct (ChatWorker.nonempty (w_appId w)) as [app|] eqn:Happ;
    [apply carried_on_refl|].
  destruct (ChatWorker.first_appId batch) as [a|]; [|apply carried_on_refl].
  simpl. split; [repeat split; simpl; solve [reflexivity | apply prefix_app_r; reflexivity]|].
  split; [|unfold remembers; reflexivity].
  repeat split; auto. simpl. intros app Hknown. congruence.
Qed.

(** A conversation id is taken from the stream only while none is known. *)
Lemma on_conversation_id_calm id : calm (ChatWorker.on_conversation_id id).
Proof.
  intros w. unfold ChatWorker.on_conversation_id, bind, get_state.
  destruct (ChatWorker.nonempty (conversationId w)) as [cid|] eqn:Hcid;
    [apply carried_on_refl|].
  simpl. split; [repeat split; simpl; solve [reflexivity | apply prefix_app_r; reflexivity]|].
  split; [|unfold remembers; reflexivity].
  repeat split; auto. simpl. intros cid Hknown. congruence.
Qed.

(** A tool call changes the sandbox and nothing else of the worker, before
    its result is sent. *)
Lemma handleToolCall_with_calm resubmit call :
  (forall out, calm (resubmit out)) -> calm (ChatWorker.handleToolCall_with resubmit call).
Proof.
  intros Hresubmit. pose proof carried_on_refl. unfold ChatWorker.handleToolCall_with.
  calm_step; [keeps_step|].
  keeps_step; [|keeps_step].
  keeps_step; [keeps_step|].
  keeps_step; [keeps_step|].
  keeps_step; [|apply appendLine_calm].
  calm_step.
  { intros w. unfold zoom.
    match goal with |- context [Tools.executeLocalTool ?call ?ctx (sandbox w)] =>
      pose proof (executeLocalTool_remembers call ctx (sandbox w)) as Hreads;
      destruct (Tools.executeLocalTool call ctx (sandbox w)) as [r t]
    end.
    simpl. split; [repeat split; reflexivity|].
    split; [repeat split; auto | exact Hreads]. }
  calm_step; [apply appendLine_calm|].
  calm_step; [apply recordHistory_calm | apply Hresubmit].
Qed.

Lemma for_each_calm {A} (f : A -> M Worker unit) xs :
  (forall x, calm (f x)) -> calm (ChatWorker.for_each f xs).
Proof.
  intros Hf. pose proof carried_on_refl.
  induction xs as [|x xs IH]; simpl; [keeps_step|].
  calm_step; [apply Hf | exact IH].
Qed.

Lemma tool_result_item_calm handle item :
  (forall call, calm (handle call)) -> calm (ChatWorker.tool_result_item handle item).
Proof.
  intros Hhandle. pose proof carried_on_refl. unfold ChatWorker.tool_result_item.
  calm_step; [apply push_item_calm|].
  assert (calm (ChatWorker.show_item item ;;;
                (if ChatWorker.is_type "tool_call" item then handle item else ret tt) ;;;
                ChatWorker.recordHistoryFromItem item)) as Hrest.
  { calm_step; [apply show_item_calm|].
    calm_step; [|apply recordHistoryFromItem_calm].
    keeps_step; [apply Hhandle | keeps_step]. }
  destruct item; first [exact Hrest | keeps_step].
Qed.

Lemma message_item_calm handle item :
  (forall call, calm (handle call)) -> calm (ChatWorker.message_item handle item).
Proof.
  intros Hhandle. pose proof carried_on_refl. unfold ChatWorker.message_item.
  calm_step; [apply push_item_calm|].
  assert (calm (let* formatted :=
                  (if ChatWorker.is_type "message" item &&
                      bool_decide (Json.str_field "role" item = Some "assistant")
                   then ChatWorker.formatItem item else ret None) in
                match ChatWorker.nonempty formatted with
                | Some line =>
                    ChatWorker.updateStreaming (ChatWorker.remove_first "assistant: " line)
                | None =>
                    ChatWorker.show_item item ;;;
                    (if ChatWorker.is_type "tool_call" item then handle item else ret tt) ;;;
                    ChatWorker.recordHistoryFromItem item
                end)) as Hrest.
  { calm_step; [keeps_step; [apply formatItem_calm | keeps_step]|].
    keeps_step; [apply updateStreaming_calm|].
    calm_step; [apply show_item_calm|].
    calm_step; [|apply recordHistoryFromItem_calm].
    keeps_step; [apply Hhandle | keeps_step]. }
  destruct item; first [exact Hrest | keeps_step].
Qed.

Lemma consumed_stream_calm (callbacks : StreamCallbacks Worker) response :
  shouldStop callbacks = None -> onStop callbacks = None ->
  onUsage callbacks = None -> onReasoningDelta callbacks = None ->
  (forall f d, onTextDelta callbacks = Some f -> calm (f d)) ->
  (forall f d, onConversationId callbacks = Some f -> calm (f d)) ->
  (forall f d, onItems callbacks = Some f -> calm (f d)) ->
  calm (try_catch (consumeStream callbacks response ;;; ChatWorker.flush_streaming)
                  ChatWorker.on_stream_error).
Proof.
  intros Hpoll Hstop Husage Hreasoning Htext Hconversation Hitems.
  apply (keeps_try_catch _ carried_on_trans); [|apply on_stream_error_calm].
  calm_step; [|apply flush_streaming_calm].
  apply (consumeStream_keeps _ carried_on_refl carried_on_trans); try assumption;
    intros f; rewrite ?Hpoll, ?Hstop, ?Husage, ?Hreasoning; discriminate.
Qed.

Lemma sendToolResult_calm depth out : calm (ChatWorker.sendToolResult depth out).
Proof.
  pose proof carried_on_refl. revert out.
  induction depth as [|depth IH]; intros out w; simpl; [apply carried_on_refl|].
  rewrite (bind_ok _ _ _ _ _ (get_state_runs w)).
  destruct (ChatWorker.token_of w); [|apply carried_on_refl].
  destruct (negb (bool_decide (chatMode w = builder))); [apply carried_on_refl|].
  destruct (ChatWorker.nonempty (conversationId w)) as [cid|]; [|apply appendLine_calm].
  rewrite (bind_ok _ _ _ _ _ (modify_runs _ _)).
  apply (carried_on_trans _ (ChatWorker.set_items (items w ++ [out]) w)).
  { carried. }
  generalize (ChatWorker.set_items (items w ++ [out]) w).
  change (calm (if negb (bool_decide
                           (default local (cfg_executionMode (config w)) = local))
                then ret tt
                else
                  let* response :=
                    ChatWorker.chatRequest
                      (ChatWorker.tool_result_body w cid (items w ++ [out]) out) in
                  if negb (ok response)
                  then ChatWorker.appendLine
                         ("request error: " +:+ pretty (status response)
                          +:+ " " +:+ resp_text response)
                  else
                    try_catch
                      (consumeStream
                         (tool_result_callbacks
                            (ChatWorker.handleToolCall_with (ChatWorker.sendToolResult depth)))
                         response ;;;
                       ChatWorker.flush_streaming)
                      ChatWorker.on_stream_error)).
  keeps_step; [keeps_step|].
  calm_step; [apply chatRequest_calm|].
  keeps_step; [apply appendLine_calm|].
  apply consumed_stream_calm; try reflexivity; try discriminate.
  - intros f d [= <-]. apply on_text_delta_calm.
  - intros f batch [= <-].
    calm_step; [apply maybeCaptureAppId_calm|].
    apply for_each_calm. intros item. apply tool_result_item_calm.
    intros call. apply handleToolCall_with_calm, IH.
Qed.

Lemma handleToolCall_calm depth call : calm (ChatWorker.handleToolCall depth call).
Proof. apply handleToolCall_with_calm. intros out. apply sendToolResult_calm. Qed.

Lemma sendMessage_calm depth text : calm (ChatWorker.sendMessage depth text).
Proof.
  pose proof carried_on_refl. unfold ChatWorker.sendMessage.
  calm_step; [keeps_step|].
  keeps_step; [|apply appendLine_calm].
  calm_step; [apply push_item_calm|].
  calm_step; [apply appendLine_calm|].
  calm_step; [apply recordHistory_calm|].
  calm_step; [keeps_step|].
  calm_step; [apply chatRequest_calm|].
  keeps_step; [apply appendLine_calm|].
  calm_step; [apply clearStreaming_calm|].
  apply consumed_stream_calm; try reflexivity; try discriminate.
  - intros f d [= <-]. apply on_text_delta_calm.
  - intros f id [= <-]. apply on_conversation_id_calm.
  - intros f batch [= <-].
    calm_step; [apply maybeCaptureAppId_calm|].
    apply for_each_calm. intros item. apply message_item_calm.
    intros call. apply handleToolCall_calm.
Qed.

(** X20. A turn only adds. Whatever the endpoint answers and however the
    turn ends (it returns, or the recursion bound is exhausted), the
    transcript, the lines and stream updates reported, the history recorded
    and the requests sent after [sendMessage] start with what they were
    before it: nothing is removed, replaced or reordered. *)
Theorem turn_only_appends (depth : nat) (text : string) (w : Worker) :
  let w' := (ChatWorker.sendMessage depth text w).2 in
  items w `prefix_of` items w' /\
  ui w `prefix_of` ui w' /\
  history w `prefix_of` history w' /\
  requests w `prefix_of` requests w'.
Proof. exact (proj1 (sendMessage_calm depth text w)). Qed.

(** X21. A turn does not change the session it runs in. After [sendMessage]
    the endpoint address, the chat mode, the login state and the configured
    execution mode are what they were; an app id that was known is kept, and
    so is a conversation id that was known: the stream can only supply
    them while they are missing. *)
Theorem turn_keeps_the_session (depth : nat) (text : string) (w : Worker) :
  let w' := (ChatWorker.sendMessage depth text w).2 in
  w_baseUrl w' = w_baseUrl w /\
  chatMode w' = chatMode w /\
  loginState w' = loginState w /\
  cfg_executionMode (config w') = cfg_executionMode (config w) /\
  (forall app, ChatWorker.nonempty (w_appId w) = Some app -> w_appId w' = w_appId w) /\
  (forall cid, ChatWorker.nonempty (conversationId w) = Some cid ->
     conversationId w' = conversationId w).
Proof. exact (proj1 (proj2 (sendMessage_calm depth text w))). Qed.

(** X28. What has been read stays read. No tool call takes a path out of
    the read set, whatever its name and however it ends, and neither does a
    whole turn, with the tool calls it runs and the results it sends
    back. *)
Theorem reads_are_never_forgotten (depth : nat) (text : string) (w : Worker)
    (call : ToolCall) (ctx : ToolExecutionContext) (s : Sandbox) :
  readSet s ⊆ readSet (Tools.executeLocalTool call ctx s).2 /\
  readSet (sandbox w) ⊆ readSet (sandbox (ChatWorker.sendMessage depth text w).2).
Proof.
  split; [apply executeLocalTool_remembers|].
  exact (proj2 (proj2 (sendMessage_calm depth text w))).
Qed.

End TurnKeeps.

Section TextTurn.
Context `{Runtime} `{Host} `{Rendering}.

Lemma text_line_runs depth line delta w :
  Js.startsWith "0:" line = true ->
  Js.is_empty (Js.trim (Js.slice 2 line)) = false ->
  JSON_parse (Js.trim (Js.slice 2 line)) = inr (JStr delta) ->
  process_line (ChatWorker.message_callbacks depth) line w =
  (Ok Next, (ChatWorker.updateStreaming (streamingText w +:+ delta) w).2).
Proof.
  intros Hstart Hpayload Hparse.
  apply starts_with_cons in Hstart as [rest ->].
  assert (process_line (ChatWorker.message_callbacks depth) (String "0" (String ":" rest)) =
          delta_line (Some ChatWorker.on_text_delta) (String "0" (String ":" rest))) as ->
    by (destruct rest; reflexivity).
  unfold delta_line. rewrite Hpayload.
  unfold bind at 1, parse. rewrite Hparse. reflexivity.
Qed.

Lemma text_lines_run depth lines deltas w :
  text_lines lines deltas ->
  exists w1,
    process_lines (ChatWorker.message_callbacks depth) lines w = (Ok Next, w1) /\
    streamingText w1 = streamingText w +:+ text_of deltas /\
    ui w1 = ui w ++ (Stream <$> running (streamingText w) deltas) /\
    items w1 = items w /\ history w1 = history w.
Proof.
  intros Hlines. revert w.
  induction Hlines as [|line delta lines deltas (Hstart & Hpayload & Hparse) _ IH]; intros w.
  - exists w. simpl. rewrite string_app_nil_r, app_nil_r. auto.
  - cbn [process_lines]. unfold bind at 1.
    rewrite (text_line_runs depth line delta w Hstart Hpayload Hparse).
    destruct (IH (ChatWorker.updateStreaming (streamingText w +:+ delta) w).2)
      as (w1 & Hrun & Htext & Hui & Hitems & Hhistory).
    exists w1. split; [exact Hrun|]. rewrite Htext, Hui, Hitems, Hhistory. simpl.
    rewrite <- app_assoc, string_app_assoc. auto.
Qed.

(** X22. Streamed text becomes one message. When the reply to a message is
    a complete body whose lines are all text lines, each delta is shown as
    it comes, added to the ones before it; at the end the whole text is
    reported as one [assistant:] line and recorded as one assistant
    message, unless it is blank, and the live buffer is cleared. The
    transcript gets the user's item and nothing else. *)
Theorem streamed_text_becomes_one_message (depth : nat) (text tok : string) (w : Worker)
    (response : Response) (rest : list (exn + Response)) (parts deltas : list string) :
  ChatWorker.token_of w = Some tok ->
  remote w = inr response :: rest ->
  ok response = true ->
  body response = Some {| chunks := parts; read_failure := None |} ->
  text_lines (lines_of (text_of parts)) deltas ->
  let said := text_of deltas in
  let spoken := (0 <? String.length (Js.trim said))%nat in
  exists w',
    ChatWorker.sendMessage depth text w = (Ok tt, w') /\
    items w' = items w ++ [ChatWorker.user_item text] /\
    ui w' = ui w ++ [Line ("user: " +:+ text); Stream ""]
                 ++ (Stream <$> running "" deltas)
                 ++ (if spoken then [Line ("assistant: " +:+ said)] else [])
                 ++ [Stream ""] /\
    history w' = history w
                 ++ [{| h_role := "user"; h_type := "message"; h_text := text |}]
                 ++ (if spoken
                     then [{| h_role := "assistant"; h_type := "message"; h_text := said |}]
                     else []) /\
    streamingText w' = "".
Proof.
  intros Htok Hremote Hok Hbody Hlines said spoken.
  rewrite (sendMessage_runs depth text w tok Htok). cbv zeta. rewrite Hremote, Hok. simpl negb.
  cbv iota.
  destruct (text_lines_run depth _ _ (stream_opened text w rest) Hlines)
    as (w1 & Hrun & Htext & Hui & Hitems & Hhistory).
  pose proof (consumeStream_decode (ChatWorker.message_callbacks depth) parts None response
                (stream_opened text w rest) Hbody) as Hdecode.
  unfold decode_text, bind in Hdecode. rewrite Hrun in Hdecode.
  unfold observe in Hdecode.
  destruct (consumeStream _ response (stream_opened text w rest)) as [[e|e|] w2] eqn:Hconsume;
    try discriminate.
  injection Hdecode as _ ->.
  unfold try_catch. rewrite (bind_ok _ _ _ _ _ Hconsume).
  unfold ChatWorker.flush_streaming.
  rewrite (bind_ok _ _ _ _ _ (get_state_runs w1)).
  rewrite Htext. change (streamingText (stream_opened text w rest)) with "".
  change ("" +:+ text_of deltas) with said. fold spoken.
  destruct spoken; simpl.
  - eexists. split; [reflexivity|]. simpl. rewrite Hitems, Hui, Hhistory. simpl.
    rewrite <- !app_assoc. auto.
  - eexists. split; [reflexivity|]. simpl. rewrite Hitems, Hui, Hhistory. simpl.
    rewrite <- !app_assoc. auto.
Qed.

End TextTurn.

(* ===================================================================== *)
(** ** The properties above, on concrete runs *)
(* ===================================================================== *)

Section MoreDecoderRuns.
#[local] Existing Instance Reference.runtime.

Lemma unterminated_tail_is_dropped_witness :
  observe (consumeStream (Reference.listener false)
             (Reference.streamed [Reference.wire "0:'a'$"; Reference.wire "0:'b'"]) []) =
  observe (consumeStream (Reference.listener false)
             (Reference.streamed [Reference.wire "0:'a'$"]) []).
Proof.
  apply (unterminated_tail_is_dropped (Reference.listener false)
           (Reference.streamed [Reference.wire "0:'a'$"; Reference.wire "0:'b'"])
           (Reference.streamed [Reference.wire "0:'a'$"])
           [Reference.wire "0:'a'$"] (Reference.wire "0:'b'") None []);
    reflexivity.
Defined.

(** The second text line is lost: only the first reaches the caller. *)
Example lost_last_line :
  consumeStream (Reference.listener false)
    (Reference.streamed [Reference.wire "0:'a'$"; Reference.wire "0:'b'"]) [] =
  (Ok Drained, [Reference.TextDelta "a"]).
Proof. reflexivity. Qed.

Lemma passed_over_lines_carry_nothing_witness :
  observe (consumeStream (Reference.listener false)
             (Reference.streamed [Reference.wire "0:'a'$3:'boom'$0:'b'$"]) []) =
  observe (consumeStream (Reference.listener false)
             (Reference.streamed [Reference.wire "0:'a'$0:'b'$"]) []).
Proof.
  apply (passed_over_lines_carry_nothing (Reference.listener false)
           (Reference.streamed [Reference.wire "0:'a'$3:'boom'$0:'b'$"])
           (Reference.streamed [Reference.wire "0:'a'$0:'b'$"])
           [Reference.wire "0:'a'$3:'boom'$0:'b'$"] [Reference.wire "0:'a'$0:'b'$"] None
           (Reference.wire "0:'a'$") (Reference.wire "3:'boom'") (Reference.wire "0:'b'$") []);
    reflexivity.
Defined.

Lemma data_frame_failures_are_swallowed_witness :
  process_line (Reference.listener false) (Reference.wire "2:[{'type':'respo") [] =
  stop_or_next (Reference.listener false) [].
Proof.
  apply (proj1 (data_frame_failures_are_swallowed (Reference.listener false)
                  (Reference.wire "2:[{'type':'respo") [] eq_refl)
           "JSON Parse error: Unable to parse JSON string");
    reflexivity.
Defined.

End MoreDecoderRuns.

Lemma usage_is_read_off_the_stream_witness :
  exists frame counts,
    frame ∈ frames_of
      (JObj [("data", JArr [JObj [("type", JStr "usage");
                                  ("usage", JObj [("prompt_tokens", JNum "3");
                                                  ("totalTokens", JNum "5");
                                                  ("total_tokens", JNum "7")])]])]) /\
    Json.str_field "type" frame = Some "usage" /\
    Json.get "usage" frame = Some counts /\
    (forall n, Some "3" = Some n <->
       Json.as_number (Json.get "promptTokens" counts) = Some n \/
       (Json.as_number (Json.get "promptTokens" counts) = None /\
        Json.as_number (Json.get "prompt_tokens" counts) = Some n)) /\
    (forall n, None = Some n <->
       Json.as_number (Json.get "completionTokens" counts) = Some n \/
       (Json.as_number (Json.get "completionTokens" counts) = None /\
        Json.as_number (Json.get "completion_tokens" counts) = Some n)) /\
    (forall n, Some "5" = Some n <->
       Json.as_number (Json.get "totalTokens" counts) = Some n \/
       (Json.as_number (Json.get "totalTokens" counts) = None /\
        Json.as_number (Json.get "total_tokens" counts) = Some n)).
Proof.
  apply (usage_is_read_off_the_stream
           (JObj [("data", JArr [JObj [("type", JStr "usage");
                                       ("usage", JObj [("prompt_tokens", JNum "3");
                                                       ("totalTokens", JNum "5");
                                                       ("total_tokens", JNum "7")])]])])
           {| promptTokens := Some "3"; completionTokens := None;
              totalTokens := Some "5" |}).
  reflexivity.
Defined.

Section MoreSandboxRuns.
#[local] Existing Instance Reference.host.

Lemma manifest_is_fetched_once_witness :
  Tools.getAllowedTools "https://api.example" "other-token"
    (Tools.getAllowedTools "https://api.example/" "t" Reference.empty_sandbox).2 =
  Tools.getAllowedTools "https://api.example/" "t" Reference.empty_sandbox.
Proof.
  apply (manifest_is_fetched_once "https://api.example/" "https://api.example"
           "t" "other-token" Reference.empty_sandbox).
  reflexivity.
Defined.


Lemma patch_without_paths_is_unchecked_witness :
  Tools.applyPatchTool Reference.ctx (Reference.patch_args Scenario.patch_deleting_a)
    (Reference.sandbox_of {["/home/user/project/a.txt" := "old"]} ∅) =
  (Ok (JObj [("files", JArr [])]),
   set_fs {["/home/user/project/a.txt" := "old"]}
     (log_spawn Tools.git_apply_argv
        (Reference.sandbox_of {["/home/user/project/a.txt" := "old"]} ∅))).
Proof.
  exact (patch_without_paths_is_unchecked Reference.ctx
           (Reference.patch_args Scenario.patch_deleting_a)
           (Reference.sandbox_of {["/home/user/project/a.txt" := "old"]} ∅)
           eq_refl eq_refl).
Defined.

Lemma deploy_needs_changes_witness :
  Tools.deployTool Reference.ctx (JObj []) Reference.empty_sandbox =
  (Throw (Error "No changes detected"),
   log_spawn Tools.git_status_argv Reference.empty_sandbox).
Proof.
  apply (deploy_needs_changes Reference.ctx (JObj []) Reference.empty_sandbox "" "").
  - reflexivity.
  - repeat constructor.
Defined.


Lemma accepted_path_is_inside_root_witness :
  exists below,
    Forall clean below /\
    "/home/user/project/src/a.txt" =
      Path.of_segments (Path.normalize (Path.segments (rootDir Reference.ctx)) ++ below) /\
    Reference.empty_sandbox = Reference.empty_sandbox.
Proof.
  apply (accepted_path_is_inside_root Reference.ctx "./src/lib/../a.txt"
           "/home/user/project/src/a.txt" Reference.empty_sandbox Reference.empty_sandbox).
  reflexivity.
Defined.

End MoreSandboxRuns.

Section ManifestRuns.
#[local] Existing Instance Scenario.reading_host.

Lemma tool_outside_manifest_is_refused_witness :
  let call := {| name := "write_file"; args := Some (Reference.write_args "a.txt" "new") |} in
  let s1 := (Tools.getAllowedTools "https://api.example" "t" Reference.empty_sandbox).2 in
  Tools.executeLocalTool call Reference.ctx Reference.empty_sandbox =
    (Ok (Tools.failed ("Tool not in manifest: " +:+ name call)), s1) /\
  fs s1 = fs Reference.empty_sandbox /\
  readSet s1 = readSet Reference.empty_sandbox /\
  spawned s1 = spawned Reference.empty_sandbox.
Proof.
  apply (tool_outside_manifest_is_refused
           {| name := "write_file"; args := Some (Reference.write_args "a.txt" "new") |}
           Reference.ctx Reference.empty_sandbox
           (Tools.getAllowedTools "https://api.example" "t" Reference.empty_sandbox).2
           ["read_file"]).
  - reflexivity.
  - apply not_elem_of_cons. split; [discriminate | apply not_elem_of_nil].
Defined.

End ManifestRuns.

Section DeployRuns.
#[local] Existing Instance Scenario.tracking_host.

Lemma deploy_refuses_deletions_witness :
  Tools.deployTool Reference.ctx (JObj []) Reference.empty_sandbox =
  (Throw (Error ("Deletion not supported: " +:+ Js.trim (Js.slice 3 " D a.txt"))),
   log_spawn Tools.git_status_argv Reference.empty_sandbox).
Proof.
  apply (deploy_refuses_deletions Reference.ctx (JObj []) Reference.empty_sandbox
           (Reference.wire " D a.txt$") "" [] [""] " D a.txt");
    solve [reflexivity | constructor].
Defined.


End DeployRuns.

Section MoreDriverRuns.
#[local] Existing Instance Reference.runtime.
#[local] Existing Instance Reference.host.
#[local] Existing Instance Reference.rendering.

Lemma streamed_text_becomes_one_message_witness :
  let w := Reference.worker (Some "app") (Some "c") [inr Scenario.greeting] in
  exists w',
    ChatWorker.sendMessage 1 "hello" w = (Ok tt, w') /\
    items w' = items w ++ [ChatWorker.user_item "hello"] /\
    ui w' = ui w ++ [Line ("user: " +:+ "hello"); Stream ""]
                 ++ (Stream <$> running "" ["Hi"; " there"])
                 ++ (if (0 <? String.length (Js.trim (text_of ["Hi"; " there"])))%nat
                     then [Line ("assistant: " +:+ text_of ["Hi"; " there"])] else [])
                 ++ [Stream ""] /\
    history w' = history w
                 ++ [{| h_role := "user"; h_type := "message"; h_text := "hello" |}]
                 ++ (if (0 <? String.length (Js.trim (text_of ["Hi"; " there"])))%nat
                     then [{| h_role := "assistant"; h_type := "message";
                              h_text := text_of ["Hi"; " there"] |}]
                     else []) /\
    streamingText w' = "".
Proof.
  apply (streamed_text_becomes_one_message 1 "hello" "t"
           (Reference.worker (Some "app") (Some "c") [inr Scenario.greeting])
           Scenario.greeting []
           [Reference.wire "0:'Hi'$0:' th"; Reference.wire "ere'$"] ["Hi"; " there"]);
    try reflexivity.
  repeat constructor.
Defined.

(** What the user sees of that turn. *)
Example greeting_on_screen :
  ui (ChatWorker.sendMessage 1 "hello"
        (Reference.worker (Some "app") (Some "c") [inr Scenario.greeting])).2 =
  [Line "user: hello"; Stream ""; Stream "Hi"; Stream "Hi there";
   Line "assistant: Hi there"; Stream ""].
Proof. reflexivity. Qed.

End MoreDriverRuns.

(* ===================================================================== *)
(** ** The commands of the session driver *)
(* ===================================================================== *)

Lemma on_worker_state {A} (m : M Worker A) (s : Session) :
  (Commands.on_worker m s).2 = Commands.set_worker (m (worker s)).2 s.
Proof.
  unfold Commands.on_worker, zoom. destruct (m (worker s)); reflexivity.
Qed.

(** The frame of [handleCommand]: a relation that its steps keep is kept by
    the command they make up. The steps are taken one kind at a time, so
    that a relation some commands break can be used for the others. *)
Section CommandKeeps.
Context `{Runtime} `{Host} `{Rendering} `{Services}.
Context (R : Session -> Session -> Prop).
Context (R_refl : forall s, R s s) (R_trans : forall a b c, R a b -> R b c -> R a c).
Context (K_line : forall text, keeps R (Commands.appendLine text)).
Context (K_state : keeps R Commands.emitState).
Context (K_persist : forall overrides,
           o_token overrides = left_out -> o_deviceCode overrides = left_out ->
           keeps R (Commands.persistConfig overrides)).
Context (K_over : forall app, keeps R (Commands.start_over app)).
Context (K_mode : forall nextMode,
           keeps R (Commands.on_worker (modify (fun w =>
             ChatWorker.set_items []
               (ChatWorker.set_conversationId None (Commands.set_chatMode nextMode w)))))).

Lemma use_app_keeps nextId done : keeps R (Commands.use_app nextId done).
Proof using R_trans K_line K_state K_persist K_over.
  unfold Commands.use_app.
  keeps_step; [apply K_over|].
  keeps_step; [apply K_line|].
  keeps_step; [apply K_persist; reflexivity | apply K_state].
Qed.

Lemma create_project_keeps token name done :
  keeps R (Commands.create_project token name done).
Proof using R_refl R_trans K_line K_state K_persist K_over.
  unfold Commands.create_project.
  keeps_step; [keeps_step|].
  keeps_step; [keeps_step; keeps_step|].
  keeps_step; [apply K_over|].
  keeps_step; [apply K_line|].
  keeps_step; [apply K_persist; reflexivity | apply K_state].
Qed.

Lemma app_command_keeps rest run :
  Commands.app_command rest = Some run -> keeps R run.
Proof using R_refl R_trans K_line K_state K_persist K_over.
  unfold Commands.app_command. cbv zeta.
  repeat case_bool_decide; intros [= <-].
  - keeps_step; [apply K_over|].
    keeps_step; [apply K_line|].
    keeps_step; [apply K_persist; reflexivity | apply K_state].
  - keeps_step; [apply use_app_keeps | apply K_line].
  - keeps_step; [apply K_line|].
    keeps_step; [keeps_step|].
    keeps_step; [apply create_project_keeps | apply K_line].
Qed.

Lemma mode_command_keeps rest : keeps R (Commands.mode_command rest).
Proof using R_refl R_trans K_line K_state K_persist K_mode.
  unfold Commands.mode_command.
  keeps_step; [apply K_line|].
  keeps_step; [keeps_step|].
  keeps_step; [apply K_line|].
  keeps_step; [apply K_mode|].
  keeps_step; [apply K_persist; reflexivity|].
  keeps_step; [apply K_line | apply K_state].
Qed.

Lemma init_command_keeps rest :
  (forall name, keeps R (Commands.runOpentoolInit name)) ->
  keeps R (Commands.init_command rest).
Proof using R_trans K_line.
  intros K_init. unfold Commands.init_command.
  keeps_step; [|apply K_line].
  keeps_step; [apply K_init | apply K_line].
Qed.

Lemma link_command_keeps rest : keeps R (Commands.link_command rest).
Proof using R_refl R_trans K_line K_state K_persist K_over.
  unfold Commands.link_command.
  keeps_step; [keeps_step|].
  keeps_step; [|apply K_line].
  keeps_step.
  - keeps_step; [apply K_line | apply create_project_keeps].
  - keeps_step; [apply use_app_keeps | apply K_line].
Qed.

Lemma appendLines_keeps lines : keeps R (Commands.appendLines lines).
Proof using R_refl R_trans K_line.
  induction lines as [|line lines IH]; simpl; [keeps_step|].
  keeps_step; [apply K_line | exact IH].
Qed.

Lemma update_command_keeps depth rest :
  (forall text, keeps R (Commands.on_worker (ChatWorker.sendMessage depth text))) ->
  keeps R (Commands.update_command depth rest).
Proof using R_refl R_trans K_line.
  intros K_turn. unfold Commands.update_command.
  keeps_step; [keeps_step|].
  keeps_step; [apply K_line|].
  keeps_step; [apply K_turn | apply K_line].
Qed.

(** A command line: every command, with [/init], [/login] and [/update]
    taken when their steps keep the relation too. *)
Lemma handleCommand_keeps depth text :
  (Commands.command_words text !! 0 = Some "init" ->
   forall name, keeps R (Commands.runOpentoolInit name)) ->
  (Commands.command_words text !! 0 = Some "login" ->
   keeps R Commands.startLogin /\ keeps R (Commands.pollLogin true)) ->
  (Commands.command_words text !! 0 = Some "update" ->
   forall outbound, keeps R (Commands.on_worker (ChatWorker.sendMessage depth outbound))) ->
  keeps R (Commands.handleCommand depth text).
Proof using All.
  intros K_init K_login K_update. unfold Commands.handleCommand.
  destruct (Commands.command_words text) as [|command rest]; [keeps_step|].
  keeps_step; [keeps_step|].
  destruct (if bool_decide (command = "app") then Commands.app_command rest else None)
    as [run|] eqn:Happ.
  { destruct (bool_decide (command = "app")); [|discriminate].
    apply (app_command_keeps rest run Happ). }
  clear Happ.
  keeps_step; [apply mode_command_keeps|].
  destruct (bool_decide (command = "login")) eqn:Hlogin.
  { apply bool_decide_eq_true_1 in Hlogin. subst command.
    destruct (K_login eq_refl) as [Kstart Kpoll].
    unfold Commands.login_command. keeps_step; assumption. }
  destruct (bool_decide (command = "init")) eqn:Hinit.
  { apply bool_decide_eq_true_1 in Hinit. subst command.
    apply init_command_keeps, (K_init eq_refl). }
  destruct (bool_decide (command = "update")) eqn:Hupdate.
  { apply bool_decide_eq_true_1 in Hupdate. subst command.
    apply update_command_keeps, (K_update eq_refl). }
  keeps_step; [apply link_command_keeps|].
  keeps_step; [apply appendLines_keeps | apply K_line].
Qed.

End CommandKeeps.

Lemma keeps_weaken {S A} (R R' : S -> S -> Prop) (m : M S A) :
  (forall a b, R a b -> R' a b) -> keeps R m -> keeps R' m.
Proof. intros Himpl Hm s. apply Himpl, Hm. Qed.

Section CommandSteps.
Context `{Runtime} `{Host} `{Rendering} `{Services}.

Lemma write_config_saves global s :
  exists pending done,
    (Commands.write_config global s).2 = Commands.set_saves pending done s.
Proof.
  unfold Commands.write_config.
  destruct (saves s) as [|[e|] pending]; simpl; eexists _, _; reflexivity.
Qed.

(** [persistConfig] changes the configuration, in memory and in its file,
    and nothing else. *)
Lemma persistConfig_state overrides s :
  exists pending done,
    (Commands.persistConfig overrides s).2 =
    Commands.set_saves pending done
      (Commands.set_config_rest
         {| cfg_mode := Commands.merged (cfg_mode (config_rest s)) (o_mode overrides);
            cfg_token := Commands.merged (cfg_token (config_rest s)) (o_token overrides);
            cfg_deviceCode :=
              Commands.merged (cfg_deviceCode (config_rest s)) (o_deviceCode overrides) |}
         (Commands.set_worker
            (ChatWorker.set_config
               {| cfg_executionMode := cfg_executionMode (config (worker s));
                  cfg_conversationId :=
                    Commands.merged (cfg_conversationId (config (worker s)))
                                    (o_conversationId overrides);
                  cfg_appId :=
                    Commands.merged (cfg_appId (config (worker s))) (o_appId overrides) |}
               (worker s)) s)).
Proof.
  unfold Commands.persistConfig.
  rewrite (bind_ok _ _ _ _ _ (modify_runs _ _)). cbv zeta.
  match goal with |- context [bind _ _ ?s1] => generalize s1 end. intros s0.
  destruct (write_config_saves false s0) as (p1 & d1 & Hfirst).
  unfold bind at 1.
  destruct (Commands.write_config false s0) as [[[]|e|] s1]; simpl in Hfirst; subst s1;
    [|eexists _, _; reflexivity..].
  destruct (_ || _); [|eexists _, _; reflexivity].
  destruct (write_config_saves true (Commands.set_saves p1 d1 s0)) as (p2 & d2 & ->).
  eexists _, _. reflexivity.
Qed.

End CommandSteps.

(** The two login flows are made of five kinds of step. *)
Section LoginKeeps.
Context `{Runtime} `{Host} `{Rendering} `{Services}.
Context (R : Session -> Session -> Prop).
Context (R_refl : forall s, R s s) (R_trans : forall a b c, R a b -> R b c -> R a c).
Context (K_line : forall text, keeps R (Commands.appendLine text)).
Context (K_state : keeps R Commands.emitState).
Context (K_persist : forall overrides, keeps R (Commands.persistConfig overrides)).
Context (K_login : forall x, keeps R (Commands.set_login x)).
Context (K_timer : keeps R Commands.scheduleLoginPoll).

Lemma startLogin_keeps : keeps R Commands.startLogin.
Proof using All.
  unfold Commands.startLogin.
  keeps_step; [apply K_login|].
  keeps_step; [apply K_state|].
  keeps_step; [apply K_persist|].
  keeps_step; [keeps_step|].
  keeps_step.
  - keeps_step; [keeps_step; keeps_step|].
    keeps_step; [apply K_login|].
    keeps_step; [apply K_persist|].
    keeps_step; [apply K_line|].
    keeps_step; [apply K_line|].
    keeps_step; [apply K_state | apply K_timer].
  - keeps_step; [apply K_login|].
    keeps_step; [apply K_line | apply K_state].
Qed.

Lemma pollLogin_keeps manual : keeps R (Commands.pollLogin manual).
Proof using All.
  unfold Commands.pollLogin.
  keeps_step; [keeps_step|].
  keeps_step; try (keeps_step; fail).
  keeps_step; [keeps_step|].
  keeps_step.
  - keeps_step; [keeps_step; keeps_step|].
    keeps_step.
    + keeps_step; [apply K_login|].
      keeps_step; [apply K_persist|].
      keeps_step; [apply K_line | apply K_state].
    + keeps_step; [keeps_step; [apply K_line | keeps_step]|].
      keeps_step; [apply K_state | apply K_timer].
  - keeps_step; [apply K_line | keeps_step].
Qed.

End LoginKeeps.

Ltac session_step :=
  intros ?s; unfold Commands.appendLine, Commands.emitState, Commands.start_over,
    Commands.set_login, Commands.scheduleLoginPoll;
  rewrite ?on_worker_state; simpl.

Section CommandFacts.
Context `{Runtime} `{Host} `{Rendering} `{Services}.

(** [opentool init] leaves its command line in the subprocess log, and the
    disk as the process left it; nothing else of the session changes. *)
Lemma runOpentoolInit_state name s :
  exists files directories,
    (Commands.runOpentoolInit name s).2 =
    Commands.set_worker
      (ChatWorker.set_sandbox
         (set_disk files directories
            (log_spawn (Commands.opentool_argv name) (sandbox (worker s))))
         (worker s)) s.
Proof.
  unfold Commands.runOpentoolInit. rewrite on_worker_state.
  unfold zoom, bind, modify, get_state.
  destruct (opentool_init _ _ _ _) as [[status files] directories].
  exists files, directories.
  destruct (bool_decide (status = Some 0%Z)); reflexivity.
Qed.

Lemma runOpentoolInit_keeps (R : Session -> Session -> Prop) name :
  (forall s box, R s (Commands.set_worker (ChatWorker.set_sandbox box (worker s)) s)) ->
  keeps R (Commands.runOpentoolInit name).
Proof.
  intros R_box s. destruct (runOpentoolInit_state name s) as (files & directories & ->).
  apply R_box.
Qed.

(** *** The conversation *)

Lemma same_conversation_refl s : same_conversation s s.
Proof. repeat split. Qed.

Lemma same_conversation_trans a b c :
  same_conversation a b -> same_conversation b c -> same_conversation a c.
Proof. intros (? & ? & ? & ?) (? & ? & ? & ?). repeat split; congruence. Qed.

Lemma same_or_fresh_refl s : same_or_fresh s s.
Proof. left. apply same_conversation_refl. Qed.

Lemma same_or_fresh_trans a b c : same_or_fresh a b -> same_or_fresh b c -> same_or_fresh a c.
Proof.
  intros [Hab|Hab] [Hbc|Hbc]; try (right; exact Hbc).
  - left. exact (same_conversation_trans _ _ _ Hab Hbc).
  - right. destruct Hab as [Hc Hi], Hbc as (_ & _ & Hc' & Hi'). split; congruence.
Qed.

Lemma appendLine_same_conversation text : keeps same_conversation (Commands.appendLine text).
Proof. session_step. repeat split. Qed.

Lemma emitState_same_conversation : keeps same_conversation Commands.emitState.
Proof. session_step. repeat split. Qed.

Lemma persistConfig_same_conversation overrides :
  keeps same_conversation (Commands.persistConfig overrides).
Proof.
  intros s. destruct (persistConfig_state overrides s) as (pending & done & ->).
  repeat split.
Qed.

Lemma set_login_same_conversation x : keeps same_conversation (Commands.set_login x).
Proof. session_step. repeat split. Qed.

Lemma scheduleLoginPoll_same_conversation : keeps same_conversation Commands.scheduleLoginPoll.
Proof. session_step. repeat split. Qed.

Lemma command_is_same_or_fresh depth text :
  Commands.command_words text !! 0 <> Some "update" ->
  keeps same_or_fresh (Commands.handleCommand depth text).
Proof.
  intros Hupdate.
  assert (forall A (m : M Session A), keeps same_conversation m -> keeps same_or_fresh m)
    as Hleft by (intros A m; apply keeps_weaken; intros a b ?; left; assumption).
  apply handleCommand_keeps;
    try solve [ apply same_or_fresh_refl | apply same_or_fresh_trans | congruence ].
  - intros text'. apply Hleft, appendLine_same_conversation.
  - apply Hleft, emitState_same_conversation.
  - intros overrides _ _. apply Hleft, persistConfig_same_conversation.
  - intros app. session_step. right. split; reflexivity.
  - intros nextMode. session_step. right. split; reflexivity.
  - intros _ name. apply runOpentoolInit_keeps. intros s box. left. repeat split.
  - intros _. split; apply Hleft.
    + exact (startLogin_keeps same_conversation
               same_conversation_refl same_conversation_trans
               appendLine_same_conversation emitState_same_conversation
               persistConfig_same_conversation set_login_same_conversation
               scheduleLoginPoll_same_conversation).
    + exact (pollLogin_keeps same_conversation
               same_conversation_refl same_conversation_trans
               appendLine_same_conversation emitState_same_conversation
               persistConfig_same_conversation set_login_same_conversation
               scheduleLoginPoll_same_conversation true).
Qed.

(** *** The endpoint *)

Lemma off_line_refl s : off_line s s.
Proof. unfold off_line. repeat (split; [reflexivity|]). reflexivity. Qed.

Lemma off_line_trans a b c : off_line a b -> off_line b c -> off_line a c.
Proof.
  intros (? & ? & ? & ? & ? & ? & ? & ? & ? & ?) (? & ? & ? & ? & ? & ? & ? & ? & ? & ?).
  unfold off_line. repeat (split; [congruence|]). etrans; eassumption.
Qed.

Ltac off_line_done :=
  unfold off_line; simpl; repeat (split; [reflexivity|]);
  solve [reflexivity | apply prefix_app_r; reflexivity].

Lemma command_is_off_line depth text :
  Commands.command_words text !! 0 <> Some "update" ->
  keeps off_line (Commands.handleCommand depth text).
Proof.
  intros Hupdate.
  assert (forall text', keeps off_line (Commands.appendLine text')) as K_line
    by (intros text'; session_step; off_line_done).
  assert (keeps off_line Commands.emitState) as K_state
    by (session_step; off_line_done).
  assert (forall overrides, keeps off_line (Commands.persistConfig overrides)) as K_persist.
  { intros overrides s. destruct (persistConfig_state overrides s) as (pending & done & ->).
    off_line_done. }
  apply handleCommand_keeps;
    try solve [ apply off_line_refl | apply off_line_trans | congruence | assumption ].
  - intros overrides _ _. apply K_persist.
  - intros app. session_step. off_line_done.
  - intros nextMode. session_step. off_line_done.
  - intros _ name s.
    destruct (runOpentoolInit_state name s) as (files & directories & ->).
    off_line_done.
  - intros _.
    assert (forall x, keeps off_line (Commands.set_login x)) as K_login
      by (intros x; session_step; off_line_done).
    assert (keeps off_line Commands.scheduleLoginPoll) as K_timer
      by (session_step; off_line_done).
    split.
    + exact (startLogin_keeps off_line off_line_refl off_line_trans
               K_line K_state K_persist K_login K_timer).
    + exact (pollLogin_keeps off_line off_line_refl off_line_trans
               K_line K_state K_persist K_login K_timer true).
Qed.

(** *** The processes *)

Lemma command_starts_no_process depth text :
  Commands.command_words text !! 0 <> Some "update" ->
  Commands.command_words text !! 0 <> Some "init" ->
  keeps no_process (Commands.handleCommand depth text).
Proof.
  intros Hupdate Hinit.
  assert (forall a, no_process a a) as R_refl by reflexivity.
  assert (forall a b c, no_process a b -> no_process b c -> no_process a c)
    as R_trans by (unfold no_process; congruence).
  assert (forall text', keeps no_process (Commands.appendLine text')) as K_line
    by (intros text'; session_step; reflexivity).
  assert (keeps no_process Commands.emitState) as K_state
    by (session_step; reflexivity).
  assert (forall overrides, keeps no_process (Commands.persistConfig overrides))
    as K_persist.
  { intros overrides s. destruct (persistConfig_state overrides s) as (pending & done & ->).
    reflexivity. }
  apply handleCommand_keeps; try assumption.
  - intros overrides _ _. apply K_persist.
  - intros app. session_step. reflexivity.
  - intros nextMode. session_step. reflexivity.
  - intros Hword. congruence.
  - intros _.
    assert (forall x, keeps no_process (Commands.set_login x)) as K_login
      by (intros x; session_step; reflexivity).
    assert (keeps no_process Commands.scheduleLoginPoll) as K_timer
      by (session_step; reflexivity).
    split.
    + exact (startLogin_keeps no_process R_refl R_trans
               K_line K_state K_persist K_login K_timer).
    + exact (pollLogin_keeps no_process R_refl R_trans
               K_line K_state K_persist K_login K_timer true).
  - intros Hword. congruence.
Qed.

(** *** The login *)

Lemma same_login_refl s : same_login s s.
Proof. repeat split. Qed.

Lemma same_login_trans a b c : same_login a b -> same_login b c -> same_login a c.
Proof. intros (? & ? & ? & ?) (? & ? & ? & ?). repeat split; congruence. Qed.

Lemma command_keeps_login depth text :
  Commands.command_words text !! 0 <> Some "login" ->
  keeps same_login (Commands.handleCommand depth text).
Proof.
  intros Hlogin.
  apply handleCommand_keeps;
    try solve [ apply same_login_refl | apply same_login_trans | congruence ].
  - intros text'. session_step. repeat split.
  - session_step. repeat split.
  - intros overrides Htoken Hcode s.
    destruct (persistConfig_state overrides s) as (pending & done & ->).
    repeat split; simpl; [rewrite Htoken | rewrite Hcode]; reflexivity.
  - intros app. session_step. repeat split.
  - intros nextMode. session_step. repeat split.
  - intros _ name. apply runOpentoolInit_keeps. intros s box. repeat split.
  - intros _ outbound s. rewrite on_worker_state.
    destruct (sendMessage_calm depth outbound (worker s)) as [_ [(_ & _ & Hsame & _) _]].
    repeat split. exact Hsame.
Qed.

End CommandFacts.

Section CommandClaims.
Context `{Runtime} `{Host} `{Rendering} `{Services}.

Lemma bind_leaves {S A B} (P : S -> Prop) (m : M S A) (k : A -> M S B) (s : S) :
  P (m s).2 -> (forall a s1, P s1 -> P (k a s1).2) -> P (bind m k s).2.
Proof.
  intros Hm Hk. unfold bind. destruct (m s) as [[a|e|] s1]; simpl in *; auto.
Qed.

Lemma set_login_runs x s :
  Commands.set_login x s =
  (Ok tt, Commands.set_worker (Commands.set_loginState x (worker s)) s).
Proof. reflexivity. Qed.

Lemma emitState_runs s :
  Commands.emitState s = (Ok tt, Commands.set_worker (ChatWorker.emitState (worker s)).2 s).
Proof. reflexivity. Qed.

Lemma command_of_first text word :
  Commands.command_words (Js.trim text) !! 0 = Some word -> command_of text = word.
Proof.
  unfold command_of. destruct (Commands.command_words _); [discriminate|].
  intros [= ->]. reflexivity.
Qed.

Lemma handleInput_command depth text :
  Js.startsWith "/" (Js.trim text) = true ->
  Commands.handleInput depth text = Commands.handleCommand depth (Js.trim text).
Proof.
  intros Hslash. unfold Commands.handleInput. cbv zeta. rewrite Hslash.
  destruct (Js.trim text); [discriminate | reflexivity].
Qed.

(** X23. A command that changes the app or the mode starts the conversation
    over. After any command line but [/update], either the app id, the mode,
    the conversation id and the transcript are all what they were, or the
    worker has no conversation id and an empty transcript; so whenever the
    app id or the mode has changed, the old conversation is gone. This
    holds however the command ends, a failed write of the configuration
    included. *)
Theorem changing_app_or_mode_starts_over (depth : nat) (text : string) (s : Session) :
  Js.startsWith "/" (Js.trim text) = true ->
  command_of text <> "update" ->
  let w := worker s in
  let w' := worker (Commands.handleInput depth text s).2 in
  ((w_appId w' = w_appId w /\ chatMode w' = chatMode w /\
    conversationId w' = conversationId w /\ items w' = items w) \/
   (conversationId w' = None /\ items w' = [])) /\
  (w_appId w' <> w_appId w \/ chatMode w' <> chatMode w ->
   conversationId w' = None /\ items w' = []).
Proof.
  intros Hslash Hupdate. cbv zeta. rewrite (handleInput_command _ _ Hslash).
  assert (same_or_fresh s (Commands.handleCommand depth (Js.trim text) s).2) as Hkept.
  { apply command_is_same_or_fresh. intros Hword. apply Hupdate, command_of_first, Hword. }
  split; [exact Hkept|].
  destruct Hkept as [(Happ & Hmode & _)|Hfresh]; [|intros _; exact Hfresh].
  intros [Hne|Hne]; contradiction.
Qed.

(** X24. Commands stay off the chat endpoint. A command line other than
    [/update] sends no request and uses up no reply, records no history,
    runs no tool (the read set, the manifest caches and the language-server
    log are untouched), and leaves the live text and the endpoint address
    alone; all it does to the screen is add to it. Unless the command is
    [/init], which runs [opentool init] in the working directory the tools
    use as their root, it starts no process. *)
Theorem commands_stay_off_line (depth : nat) (text : string) (s : Session) :
  Js.startsWith "/" (Js.trim text) = true ->
  command_of text <> "update" ->
  let w := worker s in
  let w' := worker (Commands.handleInput depth text s).2 in
  requests w' = requests w /\
  remote w' = remote w /\
  history w' = history w /\
  readSet (sandbox w') = readSet (sandbox w) /\
  manifestCache (sandbox w') = manifestCache (sandbox w) /\
  allowedToolsCache (sandbox w') = allowedToolsCache (sandbox w) /\
  lspSynced (sandbox w') = lspSynced (sandbox w) /\
  streamingText w' = streamingText w /\
  w_baseUrl w' = w_baseUrl w /\
  ui w `prefix_of` ui w' /\
  (command_of text <> "init" -> spawned (sandbox w') = spawned (sandbox w)).
Proof.
  intros Hslash Hupdate. cbv zeta. rewrite (handleInput_command _ _ Hslash).
  assert (Commands.command_words (Js.trim text) !! 0 <> Some "update") as Hword
    by (intros Hword; apply Hupdate, command_of_first, Hword).
  destruct (command_is_off_line depth (Js.trim text) Hword s)
    as (? & ? & ? & ? & ? & ? & ? & ? & ? & ?).
  repeat (split; [assumption|]).
  intros Hinit. apply (command_starts_no_process depth (Js.trim text) Hword).
  intros Hword'. apply Hinit, command_of_first, Hword'.
Qed.

Lemma input_keeps_login depth text s :
  (Js.startsWith "/" (Js.trim text) = true -> command_of text <> "login") ->
  same_login s (Commands.handleInput depth text s).2.
Proof.
  intros Hlogin.
  destruct (Js.startsWith "/" (Js.trim text)) eqn:Hslash.
  - rewrite (handleInput_command _ _ Hslash).
    apply command_keeps_login. intros Hword. apply (Hlogin eq_refl), command_of_first, Hword.
  - unfold Commands.handleInput. cbv zeta. rewrite Hslash.
    destruct (Js.is_empty (Js.trim text)); [repeat split|].
    rewrite on_worker_state.
    destruct (sendMessage_calm depth (Js.trim text) (worker s)) as [_ [(_ & _ & Hsame & _) _]].
    repeat split. exact Hsame.
Qed.

(** X25. Only [/login] changes the login. Whatever else is typed (a blank
    line, a message, any other command), the login state, the poll timer,
    and the token and the device code of the configuration are afterwards
    what they were. *)
Theorem only_login_changes_the_login (depth : nat) (text : string) (s : Session) :
  (Js.startsWith "/" (Js.trim text) = true -> command_of text <> "login") ->
  let s' := (Commands.handleInput depth text s).2 in
  loginState (worker s') = loginState (worker s) /\
  pollingTimer s' = pollingTimer s /\
  cfg_token (config_rest s') = cfg_token (config_rest s) /\
  cfg_deviceCode (config_rest s') = cfg_deviceCode (config_rest s).
Proof. intros Hlogin. exact (input_keeps_login depth text s Hlogin). Qed.

(** X26. A command line the worker does not know is reported and does
    nothing else: the line [Unknown command: <word>] is added to the screen
    and the session is otherwise as it was. The word [app] is reported in
    this way too when it is not followed by [clear], [set] or [create]. *)
Theorem unknown_command_is_reported (depth : nat) (text command : string)
    (rest : list string) (s : Session) :
  Js.startsWith "/" (Js.trim text) = true ->
  Commands.command_words (Js.trim text) = command :: rest ->
  Js.is_empty command = false ->
  command ∉ ["mode"; "login"; "init"; "update"; "link"; "help"] ->
  (command = "app" -> rest !! 0 ∉ [Some "clear"; Some "set"; Some "create"]) ->
  Commands.handleInput depth text s =
  (Ok tt,
   Commands.set_worker
     (ChatWorker.set_ui (ui (worker s) ++ [Line ("Unknown command: " +:+ command)])
        (worker s)) s).
Proof.
  intros Hslash Hwords Hcommand Hknown Happ.
  rewrite (handleInput_command _ _ Hslash).
  unfold Commands.handleCommand. rewrite Hwords, Hcommand.
  assert ((if bool_decide (command = "app") then Commands.app_command rest else None) = None)
    as ->.
  { case_bool_decide as Hc; [|reflexivity].
    specialize (Happ Hc). unfold Commands.app_command. cbv zeta.
    rewrite !bool_decide_eq_false_2; [reflexivity|..];
      intros Hsub; apply Happ; rewrite Hsub; set_solver. }
  rewrite !bool_decide_eq_false_2; [reflexivity|..];
    intros ->; apply Hknown; set_solver.
Qed.

Lemma stays_logged_out {A} (m : M Session A) :
  keeps (fun s s' =>
           loginState (worker s') = loginState (worker s) /\
           cfg_token (config_rest s') = cfg_token (config_rest s)) m ->
  keeps (fun s s' => logged_out s -> logged_out s') m.
Proof.
  apply keeps_weaken. intros a b [Hlogin Htoken]. unfold logged_out, ChatWorker.token_of.
  rewrite Hlogin, Htoken. auto.
Qed.

Lemma set_login_logged_out x :
  (forall w, ChatWorker.token_of (Commands.set_loginState x w) = None) ->
  keeps (fun s s' => logged_out s -> logged_out s') (Commands.set_login x).
Proof.
  intros Hx s [_ Htoken]. unfold Commands.set_login. rewrite on_worker_state.
  split; [apply Hx | exact Htoken].
Qed.

Lemma persistConfig_keeps_token overrides :
  o_token overrides = left_out ->
  keeps (fun s s' => logged_out s -> logged_out s') (Commands.persistConfig overrides).
Proof.
  intros Htoken. apply stays_logged_out. intros s.
  destruct (persistConfig_state overrides s) as (pending & done & ->).
  simpl. rewrite Htoken. auto.
Qed.

(** The login attempt itself, once the old token has been given up. *)
Lemma login_attempt_stays_logged_out baseUrl :
  keeps (fun s s' => logged_out s -> logged_out s')
    (try_catch
       (let* response := (match startDeviceLogin baseUrl with
                          | inl e => throw e
                          | inr response => ret response
                          end) in
        Commands.set_login (login_pending (ds_userCode response)
                              (ds_verificationUrl response) (ds_deviceCode response)) ;;;
        Commands.persistConfig
          {| o_appId := left_out; o_conversationId := left_out; o_mode := left_out;
             o_token := left_out;
             o_deviceCode := given (Some (ds_deviceCode response)) |} ;;;
        Commands.appendLine ("login: code " +:+ ds_userCode response) ;;;
        Commands.appendLine ("login: url " +:+ ds_verificationUrl response) ;;;
        Commands.emitState ;;;
        Commands.scheduleLoginPoll)
       (fun e =>
          let message := message_or "Login failed" e in
          Commands.set_login (login_error message) ;;;
          Commands.appendLine ("login error: " +:+ message) ;;;
          Commands.emitState)).
Proof.
  assert (forall a : Session, logged_out a -> logged_out a) as R_refl by auto.
  assert (forall a b c : Session,
            (logged_out a -> logged_out b) -> (logged_out b -> logged_out c) ->
            logged_out a -> logged_out c) as R_trans by auto.
  assert (forall text, keeps (fun s s' => logged_out s -> logged_out s')
                         (Commands.appendLine text)) as K_line
    by (intros text; apply stays_logged_out; session_step; auto).
  assert (keeps (fun s s' => logged_out s -> logged_out s') Commands.emitState) as K_state
    by (apply stays_logged_out; session_step; auto).
  keeps_step.
  - keeps_step; [keeps_step; keeps_step|].
    keeps_step; [apply set_login_logged_out; reflexivity|].
    keeps_step; [apply persistConfig_keeps_token; reflexivity|].
    keeps_step; [apply K_line|].
    keeps_step; [apply K_line|].
    keeps_step; [apply K_state|].
    apply stays_logged_out. session_step. auto.
  - keeps_step; [apply set_login_logged_out; reflexivity|].
    keeps_step; [apply K_line | apply K_state].
Qed.

Lemma startLogin_logs_out s : logged_out (Commands.startLogin s).2.
Proof.
  unfold Commands.startLogin.
  rewrite (bind_ok _ _ _ _ _ (set_login_runs _ _)).
  rewrite (bind_ok _ _ _ _ _ (emitState_runs _)).
  apply (bind_leaves logged_out).
  - match goal with |- logged_out (Commands.persistConfig ?o ?s2).2 =>
      destruct (persistConfig_state o s2) as (pending & done & ->)
    end.
    split; reflexivity.
  - intros [] s3 Hout. rewrite (bind_ok _ _ _ _ _ (get_state_runs _)).
    exact (login_attempt_stays_logged_out _ s3 Hout).
Qed.

Lemma login_command_runs depth text rest :
  Commands.command_words text = "login" :: rest ->
  Commands.handleCommand depth text = Commands.login_command rest.
Proof. intros Hwords. unfold Commands.handleCommand. rewrite Hwords. reflexivity. Qed.

(** X27. [/login] logs out first. After a [/login] line that does not ask
    for a check, the worker holds no token, and the configuration in memory
    has none either, whether the login could be started or not: the old
    login is given up before the new one is asked for. *)
Theorem login_logs_out_first (depth : nat) (text : string) (rest : list string)
    (s : Session) :
  Js.startsWith "/" (Js.trim text) = true ->
  Commands.command_words (Js.trim text) = "login" :: rest ->
  rest !! 0 <> Some "check" ->
  let s' := (Commands.handleInput depth text s).2 in
  ChatWorker.token_of (worker s') = None /\ cfg_token (config_rest s') = None.
Proof.
  intros Hslash Hwords Hcheck. cbv zeta. rewrite (handleInput_command _ _ Hslash).
  rewrite (login_command_runs _ _ _ Hwords). unfold Commands.login_command.
  rewrite (bool_decide_eq_false_2 _ Hcheck). apply startLogin_logs_out.
Qed.

(** *** Where a token comes from *)

Lemma try_catch_after {S A} (m1 : M S unit) (m2 : M S A) handler s s1 :
  m1 s = (Ok tt, s1) -> try_catch (m1 ;;; m2) handler s = try_catch m2 handler s1.
Proof. intros Hm. unfold try_catch. rewrite (bind_ok _ _ _ _ _ Hm). reflexivity. Qed.

Lemma same_login_state_refl (s : Session) : loginState (worker s) = loginState (worker s).
Proof. reflexivity. Qed.

Lemma same_login_state_trans (a b c : Session) :
  loginState (worker b) = loginState (worker a) ->
  loginState (worker c) = loginState (worker b) ->
  loginState (worker c) = loginState (worker a).
Proof. congruence. Qed.

Lemma appendLine_login_state text :
  keeps (fun s s' => loginState (worker s') = loginState (worker s)) (Commands.appendLine text).
Proof. session_step. reflexivity. Qed.

Lemma emitState_login_state :
  keeps (fun s s' => loginState (worker s') = loginState (worker s)) Commands.emitState.
Proof. session_step. reflexivity. Qed.

Lemma scheduleLoginPoll_login_state :
  keeps (fun s s' => loginState (worker s') = loginState (worker s)) Commands.scheduleLoginPoll.
Proof. session_step. reflexivity. Qed.

Lemma persistConfig_login_state overrides :
  keeps (fun s s' => loginState (worker s') = loginState (worker s))
    (Commands.persistConfig overrides).
Proof.
  intros s. destruct (persistConfig_state overrides s) as (pending & done & ->). reflexivity.
Qed.

(** A check of a pending login: the login state afterwards is the one
    before, or [ready] with the token the endpoint gave for the pending
    device code. *)
Lemma pollLogin_state manual s :
  let s' := (Commands.pollLogin manual s).2 in
  loginState (worker s') = loginState (worker s) \/
  exists userCode verificationUrl deviceCode accessToken,
    loginState (worker s) = login_pending userCode verificationUrl deviceCode /\
    Js.is_empty deviceCode = false /\
    pollDeviceLogin (w_baseUrl (worker s)) deviceCode = inr (Some accessToken) /\
    Js.is_empty accessToken = false /\
    loginState (worker s') = login_ready accessToken.
Proof.
  pose proof same_login_state_refl as R_refl.
  pose proof same_login_state_trans as R_trans.
  cbv zeta. unfold Commands.pollLogin.
  rewrite (bind_ok _ _ _ _ _ (get_state_runs _)).
  destruct (loginState (worker s)) as [|t|userCode verificationUrl deviceCode|message]
    eqn:Hstate; try (left; simpl; exact Hstate).
  destruct (Js.is_empty deviceCode) eqn:Hcode; [left; simpl; exact Hstate|].
  destruct (pollDeviceLogin (w_baseUrl (worker s)) deviceCode) as [e|result] eqn:Hpoll.
  - left. rewrite <- Hstate.
    change (loginState
              (worker
                 ((if manual
                   then Commands.appendLine
                          ("login error: " +:+ message_or "Login check failed" e)
                   else ret tt) s).2) = loginState (worker s)).
    destruct manual; [apply appendLine_login_state | reflexivity].
  - destruct (ChatWorker.nonempty result) as [accessToken|] eqn:Hresult.
    + right. exists userCode, verificationUrl, deviceCode, accessToken.
      assert (result = Some accessToken /\ Js.is_empty accessToken = false) as [-> Hfull].
      { unfold ChatWorker.nonempty in Hresult. destruct result as [r|]; [|discriminate].
        destruct (Js.is_empty r) eqn:Hr; [discriminate|].
        injection Hresult as ->. split; [reflexivity | exact Hr]. }
      repeat (split; [reflexivity || assumption|]).
      assert (keeps (fun s s' => loginState (worker s') = loginState (worker s))
                (try_catch
                   (Commands.persistConfig
                      {| o_appId := left_out; o_conversationId := left_out;
                         o_mode := left_out; o_token := given (Some accessToken);
                         o_deviceCode := given None |} ;;;
                    Commands.appendLine "login: approved" ;;;
                    Commands.emitState)
                   (fun e =>
                      if manual
                      then Commands.appendLine
                             ("login error: " +:+ message_or "Login check failed" e)
                      else ret tt))) as Hkeeps.
      { keeps_step.
        - keeps_step; [apply persistConfig_login_state|].
          keeps_step; [apply appendLine_login_state | apply emitState_login_state].
        - destruct manual; [apply appendLine_login_state | keeps_step]. }
      unfold try_catch at 1. unfold bind at 1. cbn [ret].
      rewrite Hresult.
      change (loginState
                (worker
                   (try_catch
                      (Commands.set_login (login_ready accessToken) ;;;
                       Commands.persistConfig
                         {| o_appId := left_out; o_conversationId := left_out;
                            o_mode := left_out; o_token := given (Some accessToken);
                            o_deviceCode := given None |} ;;;
                       Commands.appendLine "login: approved" ;;;
                       Commands.emitState)
                      (fun e =>
                         if manual
                         then Commands.appendLine
                                ("login error: " +:+ message_or "Login check failed" e)
                         else ret tt) s).2) = login_ready accessToken).
      rewrite (try_catch_after _ _ _ _ _ (set_login_runs _ _)).
      rewrite (Hkeeps _). reflexivity.
    + left. rewrite <- Hstate.
      assert (keeps (fun s s' => loginState (worker s') = loginState (worker s))
                (try_catch
                   ((if manual then Commands.appendLine "login: still pending" else ret tt) ;;;
                    Commands.emitState ;;;
                    Commands.scheduleLoginPoll)
                   (fun e =>
                      if manual
                      then Commands.appendLine
                             ("login error: " +:+ message_or "Login check failed" e)
                      else ret tt))) as Hkeeps.
      { keeps_step.
        - keeps_step; [destruct manual; [apply appendLine_login_state | keeps_step]|].
          keeps_step; [apply emitState_login_state | apply scheduleLoginPoll_login_state].
        - destruct manual; [apply appendLine_login_state | keeps_step]. }
      unfold try_catch at 1. unfold bind at 1. cbn [ret].
      rewrite Hresult. exact (Hkeeps s).
Qed.

(** X30. A token comes from the login endpoint only. Whatever is typed,
    when the worker holds a token afterwards, it is the token it held
    before, or the line was a [/login] command, a login was pending with a
    device code, and the token is the access token the login endpoint gave
    for that device code: no command and no chat turn makes up a token. *)
Theorem token_comes_from_the_login_endpoint (depth : nat) (text token : string)
    (s : Session) :
  ChatWorker.token_of (worker (Commands.handleInput depth text s).2) = Some token ->
  ChatWorker.token_of (worker s) = Some token \/
  (command_of text = "login" /\
   exists userCode verificationUrl deviceCode,
     loginState (worker s) = login_pending userCode verificationUrl deviceCode /\
     Js.is_empty deviceCode = false /\
     pollDeviceLogin (w_baseUrl (worker s)) deviceCode = inr (Some token)).
Proof.
  intros Htoken.
  destruct (decide (Js.startsWith "/" (Js.trim text) = true /\ command_of text = "login"))
    as [[Hslash Hlogin]|Hother].
  - rewrite (handleInput_command _ _ Hslash) in Htoken.
    unfold command_of in Hlogin.
    destruct (Commands.command_words (Js.trim text)) as [|command rest] eqn:Hwords;
      [discriminate|].
    simpl in Hlogin. subst command.
    rewrite (login_command_runs _ _ _ Hwords) in Htoken. unfold Commands.login_command in Htoken.
    destruct (bool_decide (rest !! 0 = Some "check")).
    + destruct (pollLogin_state true s)
        as [Hsame|(userCode & verificationUrl & deviceCode & accessToken &
                   Hstate & Hcode & Hpoll & Hfull & Hready)].
      * left. unfold ChatWorker.token_of in *. rewrite <- Hsame. exact Htoken.
      * right. split; [unfold command_of; rewrite Hwords; reflexivity|].
        exists userCode, verificationUrl, deviceCode.
        unfold ChatWorker.token_of in Htoken. rewrite Hready in Htoken.
        unfold ChatWorker.nonempty in Htoken. rewrite Hfull in Htoken.
        injection Htoken as <-. auto.
    + destruct (startLogin_logs_out s) as [Hnone _]. congruence.
  - left.
    destruct (input_keeps_login depth text s) as [Hsame _].
    { intros Hslash Hlogin. apply Hother. split; assumption. }
    unfold ChatWorker.token_of in *. rewrite <- Hsame. exact Htoken.
Qed.

End CommandClaims.

Section CommandRuns.
#[local] Existing Instance Reference.runtime.
#[local] Existing Instance Reference.host.
#[local] Existing Instance Reference.rendering.
#[local] Existing Instance Console.services.

Ltac not_listed :=
  let Hin := fresh in
  intros Hin;
  repeat (apply elem_of_cons in Hin as [Hin|Hin]; [discriminate|]);
  apply not_elem_of_nil in Hin; exact Hin.

Lemma changing_app_or_mode_starts_over_witness :
  let s := Console.session (Reference.worker (Some "app") (Some "c") []) in
  let w := worker s in
  let w' := worker (Commands.handleInput 1 "/mode chat" s).2 in
  ((w_appId w' = w_appId w /\ chatMode w' = chatMode w /\
    conversationId w' = conversationId w /\ items w' = items w) \/
   (conversationId w' = None /\ items w' = [])) /\
  (w_appId w' <> w_appId w \/ chatMode w' <> chatMode w ->
   conversationId w' = None /\ items w' = []).
Proof.
  apply (changing_app_or_mode_starts_over 1 "/mode chat"
           (Console.session (Reference.worker (Some "app") (Some "c") []))).
  - reflexivity.
  - discriminate.
Defined.

(** The mode is switched, the conversation is gone, the configuration is
    written once. *)
Example mode_switch :
  let s' := (Commands.handleInput 1 "  /mode   chat "
               (Console.session (Reference.worker (Some "app") (Some "c") []))).2 in
  chatMode (worker s') = general /\
  conversationId (worker s') = None /\
  cfg_mode (config_rest s') = Some general /\
  length (saved s') = 1 /\
  ui (worker s') = [Line "mode set: chat"; State "chat" "ready" "lsp:off" None "enter send · /help"].
Proof. vm_compute. repeat split. Qed.

Lemma commands_stay_off_line_witness :
  let s := Console.session (Reference.worker (Some "app") (Some "c")
                              [inr Scenario.greeting]) in
  let w := worker s in
  let w' := worker (Commands.handleInput 1 "/app set other" s).2 in
  requests w' = requests w /\
  remote w' = remote w /\
  history w' = history w /\
  readSet (sandbox w') = readSet (sandbox w) /\
  manifestCache (sandbox w') = manifestCache (sandbox w) /\
  allowedToolsCache (sandbox w') = allowedToolsCache (sandbox w) /\
  lspSynced (sandbox w') = lspSynced (sandbox w) /\
  streamingText w' = streamingText w /\
  w_baseUrl w' = w_baseUrl w /\
  ui w `prefix_of` ui w' /\
  (command_of "/app set other" <> "init" -> spawned (sandbox w') = spawned (sandbox w)).
Proof.
  apply (commands_stay_off_line 1 "/app set other"
           (Console.session (Reference.worker (Some "app") (Some "c")
                               [inr Scenario.greeting]))).
  - reflexivity.
  - discriminate.
Defined.

Lemma only_login_changes_the_login_witness :
  let s := Console.session (Reference.worker (Some "app") (Some "c") []) in
  let s' := (Commands.handleInput 1 "/link create shop" s).2 in
  loginState (worker s') = loginState (worker s) /\
  pollingTimer s' = pollingTimer s /\
  cfg_token (config_rest s') = cfg_token (config_rest s) /\
  cfg_deviceCode (config_rest s') = cfg_deviceCode (config_rest s).
Proof.
  apply (only_login_changes_the_login 1 "/link create shop"
           (Console.session (Reference.worker (Some "app") (Some "c") []))).
  intros _. discriminate.
Defined.

Lemma unknown_command_is_reported_witness :
  let s := Console.session (Reference.worker (Some "app") (Some "c") []) in
  Commands.handleInput 1 "/app list" s =
  (Ok tt,
   Commands.set_worker
     (ChatWorker.set_ui (ui (worker s) ++ [Line ("Unknown command: " +:+ "app")])
        (worker s)) s).
Proof.
  apply (unknown_command_is_reported 1 "/app list" "app" ["list"]
           (Console.session (Reference.worker (Some "app") (Some "c") []))).
  - reflexivity.
  - reflexivity.
  - reflexivity.
  - not_listed.
  - intros _. not_listed.
Defined.

Lemma login_logs_out_first_witness :
  let s := Console.session (Reference.worker (Some "app") (Some "c") []) in
  let s' := (Commands.handleInput 1 "/login" s).2 in
  ChatWorker.token_of (worker s') = None /\ cfg_token (config_rest s') = None.
Proof.
  apply (login_logs_out_first 1 "/login" []
           (Console.session (Reference.worker (Some "app") (Some "c") []))).
  - reflexivity.
  - reflexivity.
  - discriminate.
Defined.

(** What [/login] does here: the code and the address are shown, the login
    is pending, a poll is scheduled, and the configuration was written
    three times, the last time by [saveGlobalConfig]. *)
Example login_started :
  let s' := (Commands.handleInput 1 "/login"
               (Console.session (Reference.worker (Some "app") (Some "c") []))).2 in
  loginState (worker s') = login_pending "ABCD" "https://api.example/verify" "device" /\
  pollingTimer s' = true /\
  cfg_deviceCode (config_rest s') = Some "device" /\
  (fun entry => entry.1.1) <$> saved s' = [false; false; true] /\
  ui (worker s') =
    [State "builder:app" "pending" "lsp:off" (Some "c") "login pending · /login check";
     Line "login: code ABCD"; Line "login: url https://api.example/verify";
     State "builder:app" "pending" "lsp:off" (Some "c") "login pending · /login check"].
Proof. vm_compute. repeat split. Qed.

(** White space is that of JavaScript: a no-break space ends the command
    word, separates the words of a command, and is trimmed off a line. *)
Example no_break_space_is_white_space :
  let s := Console.session (Reference.worker (Some "app") (Some "c") []) in
  Commands.command_words ("/help" +:+ Console.nbsp) = ["help"] /\
  Commands.command_words ("/login " +:+ Console.nbsp +:+ "check") = ["login"; "check"] /\
  Commands.command_words ("/update" +:+ Console.nbsp +:+ "app fix") =
    ["update"; "app"; "fix"] /\
  command_of (Console.nbsp +:+ "/login") = "login" /\
  Commands.handleInput 1 (Console.nbsp +:+ "/login") s = Commands.handleInput 1 "/login" s /\
  Commands.handleInput 1 ("/help" +:+ Console.nbsp) s = Commands.handleInput 1 "/help" s.
Proof. vm_compute. repeat split. Qed.

End CommandRuns.

Section ScaffoldRuns.
#[local] Existing Instance Reference.runtime.
#[local] Existing Instance Reference.host.
#[local] Existing Instance Reference.rendering.
#[local] Existing Instance Console.scaffolding.

(** [/init] runs in the directory the tools work in: the file the process
    writes is on the disk of the sandbox, and its command line is in the
    subprocess log; the read set is as it was. *)
Example init_writes_in_the_sandbox :
  let s := Console.session (Reference.worker (Some "app") (Some "c") []) in
  let box := sandbox (worker (Commands.handleInput 1 "/init my shop" s).2) in
  fs box = {["/home/user/project/opentool.json" := "{}"]} /\
  spawned box = [["npx"; "opentool"; "init"; "--name"; "my shop"]] /\
  readSet box = ∅ /\
  ui (worker (Commands.handleInput 1 "/init my shop" s).2) = [Line "init complete"].
Proof. vm_compute. repeat split. Qed.

End ScaffoldRuns.

Section ApprovedRuns.
#[local] Existing Instance Reference.runtime.
#[local] Existing Instance Reference.host.
#[local] Existing Instance Reference.rendering.
#[local] Existing Instance Console.approving.

Lemma token_comes_from_the_login_endpoint_witness :
  let s := Console.waiting (Reference.worker (Some "app") (Some "c") []) in
  ChatWorker.token_of (worker s) = Some "fresh" \/
  (command_of "/login check" = "login" /\
   exists userCode verificationUrl deviceCode,
     loginState (worker s) = login_pending userCode verificationUrl deviceCode /\
     Js.is_empty deviceCode = false /\
     pollDeviceLogin (w_baseUrl (worker s)) deviceCode = inr (Some "fresh")).
Proof.
  apply (token_comes_from_the_login_endpoint 1 "/login check" "fresh"
           (Console.waiting (Reference.worker (Some "app") (Some "c") []))).
  reflexivity.
Defined.

(** The approval is taken up by [/login check]: the token is held and
    written to the configuration, the device code is dropped. *)
Example login_approved :
  let s' := (Commands.handleInput 1 "/login check"
               (Console.waiting (Reference.worker (Some "app") (Some "c") []))).2 in
  loginState (worker s') = login_ready "fresh" /\
  cfg_token (config_rest s') = Some "fresh" /\
  cfg_deviceCode (config_rest s') = None /\
  ui (worker s') =
    [Line "login: approved";
     State "builder:app" "ready" "lsp:off" (Some "c") "enter send · /help"].
Proof. vm_compute. repeat split. Qed.

End ApprovedRuns.
